(** * DDGS: the DuckDuckGo search client of [duckduckgo_search.py]

    A shallow embedding of the class [DDGS] (transport, paginated text
    search, lite-HTML extractor, maps subdivision, chat session) and the
    properties its specification states about it.

    Conventions of the embedding.
    - Python [str] and [bytes] are [string]: sequences of code points below
      256.  [int] is [Z]; a [Decimal] is its value in [Q], and the
      arithmetic on it rounds to the 28 significant digits of the decimal
      context ([Decimal.add], [Decimal.div]).
    - A [dict] with string keys is a [gmap string _]; a [set] of strings is a
      [gset string].
    - A method of [DDGS] is a computation in the state-and-exception monad
      [St DDGS]: it reads and writes the instance and either returns a value
      or raises.  The state written before a [raise] is kept, as in Python.
    - The HTTP client [primp], the HTML parser [lxml] and the helpers of
      [utils.py] are interfaces (type classes): the development holds for
      every implementation of them. *)

From Stdlib Require Import ZArith QArith Qabs Qpower Lqa Sorted.
From stdpp Require Import base option list gmap strings pretty.

(** ** Python values *)

(** A decoded JSON document. *)
#[warnings="-register-all"]
Inductive Json : Type :=
  | JNull
  | JBool (b : bool)
  | JInt (n : Z)
  | JFloat (q : Q)
  | JStr (s : string)
  | JArr (items : list Json)
  | JObj (fields : list (string * Json)).

(** The exceptions the module raises or lets through.  The first four are the
    classes of [exceptions.py]; [ForeignError] is an exception raised inside
    [primp], [lxml] or a helper of [utils.py], with its type name and text. *)
Inductive Exn : Type :=
  | DuckDuckGoSearchException (arg : Json)
  | RatelimitException (arg : Json)
  | TimeoutException (arg : Json)
  | ConversationLimitException (arg : Json)
  | AssertionError (msg : string)
  | KeyError (key : string)
  | ValueError (msg : string)
  | TypeError (msg : string)
  | AttributeError (msg : string)
  | UnboundLocalError (var : string)
  | ForeignError (type_name text : string).

Inductive Res (A : Type) : Type :=
  | Ok (a : A)
  | Raise (e : Exn).
Arguments Ok {A} a.
Arguments Raise {A} e.

Definition is_Ok {A} (r : Res A) : bool :=
  match r with Ok _ => true | Raise _ => false end.

(** ** The state-and-exception monad *)

Definition St (S A : Type) : Type := S → Res A * S.

Definition ret {S A} (a : A) : St S A := λ s, (Ok a, s).

Definition bind {S A B} (m : St S A) (k : A → St S B) : St S B :=
  λ s, match m s with
       | (Ok a, s') => k a s'
       | (Raise e, s') => (Raise e, s')
       end.

Definition raise {S A} (e : Exn) : St S A := λ s, (Raise e, s).

(** A pure computation that may raise. *)
Definition lift {S A} (r : Res A) : St S A := λ s, (r, s).

Definition get {S} : St S S := λ s, (Ok s, s).
Definition modify {S} (f : S → S) : St S () := λ s, (Ok (), f s).

Notation "x <- m ;; k" := (bind m (λ x, k))
  (at level 100, m at next level, right associativity).
Notation "m ;;; k" := (bind m (λ _, k))
  (at level 100, right associativity).

(** [for x in l: out.extend(body(x))]: the loop bodies of the module append
    to a result list; [for_each] returns what they appended, in order. *)
Fixpoint for_each {S A B} (body : A → St S (list B)) (l : list A) : St S (list B) :=
  match l with
  | [] => ret []
  | x :: l' => r <- body x ;; rs <- for_each body l' ;; ret (r ++ rs)
  end.

(** ** Python built-ins *)

Module Py.

(** Truth value of an [Optional[int]], an [Optional[str]] and a [str]. *)
Definition truthy_int (o : option Z) : bool :=
  match o with Some n => negb (n =? 0)%Z | None => false end.

Definition truthy_str (s : string) : bool :=
  match s with EmptyString => false | _ => true end.

Definition truthy_opt_str (o : option string) : bool :=
  match o with Some s => truthy_str s | None => false end.

Definition truthy (v : Json) : bool :=
  match v with
  | JNull => false
  | JBool b => b
  | JInt n => negb (n =? 0)%Z
  | JFloat q => negb (Qeq_bool q 0)
  | JStr s => truthy_str s
  | JArr l => match l with [] => false | _ => true end
  | JObj o => match o with [] => false | _ => true end
  end.

(** [range(start, stop, step)] for a positive step. *)
Definition range (start stop step : Z) : list Z :=
  (λ k : nat, start + Z.of_nat k * step)%Z
    <$> seq 0 (Z.to_nat ((stop - start + step - 1) / step)).

Definition maxsize : Z := 2 ^ 63 - 1.

(** [list(islice(l, stop))]: everything for [None], the first [stop]
    items for [0 <= stop <= sys.maxsize], [ValueError] otherwise. *)
Definition islice {A} (l : list A) (stop : option Z) : Res (list A) :=
  match stop with
  | None => Ok l
  | Some n =>
      if ((0 <=? n) && (n <=? maxsize))%Z then Ok (take (Z.to_nat n) l)
      else Raise (ValueError "Stop argument for islice() must be None or an integer: 0 <= x <= sys.maxsize.")
  end.

(** [str.lower] and [str.upper], character by character.  [lower] is
    Python's on every code point below 256; [upper] is Python's on ASCII
    and on the Latin-1 letters whose capital is below 256. *)
Definition chr_lower (c : Ascii.ascii) : Ascii.ascii :=
  let n := Ascii.N_of_ascii c in
  if ((65 <=? n) && (n <=? 90) || (192 <=? n) && (n <=? 222) && negb (n =? 215))%N
  then Ascii.ascii_of_N (n + 32) else c.

Definition chr_upper (c : Ascii.ascii) : Ascii.ascii :=
  let n := Ascii.N_of_ascii c in
  if ((97 <=? n) && (n <=? 122) || (224 <=? n) && (n <=? 254) && negb (n =? 247))%N
  then Ascii.ascii_of_N (n - 32) else c.

Fixpoint lower (s : string) : string :=
  match s with
  | EmptyString => EmptyString
  | String c s' => String (chr_lower c) (lower s')
  end.

Fixpoint upper (s : string) : string :=
  match s with
  | EmptyString => EmptyString
  | String c s' => String (chr_upper c) (upper s')
  end.

(** [s.startswith(p)]. *)
Fixpoint startswith (p s : string) : bool :=
  match p, s with
  | EmptyString, _ => true
  | String a p', String b s' => if decide (a = b) then startswith p' s' else false
  | String _ _, EmptyString => false
  end.

(** [sub in s]. *)
Fixpoint contains (sub s : string) : bool :=
  startswith sub s ||
  match s with
  | EmptyString => false
  | String _ s' => contains sub s'
  end.

(** [s[n:]] and [s[:n]] for [n >= 0]. *)
Fixpoint slice_from (n : nat) (s : string) : string :=
  match n, s with
  | O, _ => s
  | S n', String _ s' => slice_from n' s'
  | S _, EmptyString => EmptyString
  end.

Fixpoint slice_to (n : nat) (s : string) : string :=
  match n, s with
  | S n', String c s' => String c (slice_to n' s')
  | _, _ => EmptyString
  end.

(** [d[k]] on a dict. *)
Definition getitem {V} (d : gmap string V) (k : string) : Res V :=
  match d !! k with Some v => Ok v | None => Raise (KeyError k) end.

(** [x == n] for a decoded JSON value (or a missing one) and an [int]. *)
Definition eq_int (v : option Json) (n : Z) : bool :=
  match v with
  | Some (JInt m) => (m =? n)%Z
  | Some (JFloat q) => Qeq_bool q (inject_Z n)
  | Some (JBool b) => ((if b then 1 else 0) =? n)%Z
  | _ => false
  end.

(** [x == s] for a decoded JSON value (or a missing one) and a [str]. *)
Definition eq_str (v : option Json) (s : string) : bool :=
  match v with
  | Some (JStr t) => bool_decide (t = s)
  | _ => false
  end.

(** [o.get(k)] on a decoded JSON object: the value of the key, if any. *)
Fixpoint assoc (k : string) (o : list (string * Json)) : option Json :=
  match o with
  | [] => None
  | (k', v) :: o' => if decide (k' = k) then Some v else assoc k o'
  end.

End Py.

(** ** The collaborators: [primp], [utils.py], [lxml] *)

(** The body of a chat request: [{"model": ..., "messages": [...]}]. *)
Record ChatBody : Type := {
  model : string;
  messages : list (gmap string string);
}.

(** One call of [primp.Client]: [request], [get] or [post] with its keyword
    arguments ([None] for an argument that is not passed). *)
Record Request : Type := {
  method : string;
  url : string;
  params : option (gmap string string);
  content : option string;
  data : option (gmap string string);
  headers : option (gmap string string);
  json : option ChatBody;
  timeout : option Z;
}.

Record Response : Type := {
  resp_url : string;
  status_code : Z;
  resp_content : string;
  resp_headers : gmap string string;
}.

(** What a call of the client comes back with: a response, or an exception
    [ex] with [type(ex).__name__] and [str(ex)]. *)
Inductive Outcome : Type :=
  | Responded (resp : Response)
  | Failed (type_name text : string).

(** The network as the client sees it: the outcome of a request may depend on
    the requests this client sent before (cookies, rate limits). *)
Class Client : Type := {
  client_request : list Request → Request → Outcome;
}.

(** The helpers imported from [utils.py], and [repr] of the arguments that
    the transport prints into one message. *)
Class Utils : Type := {
  _extract_vqd : string → string → Res string;
  _normalize : string → string;
  _normalize_url : string → string;
  _text_extract_json : string → string → Res (list (gmap string string));
  json_loads : string → Res Json;
  _calculate_distance : Q → Q → Q → Q → Q;
  repr_dict : option (gmap string string) → string;
  repr_bytes : option string → string;
  str_Decimal : Q → string;
}.

(** ** The instance *)

(** The attributes of a [DDGS] object that change after [__init__], and
    [wire], the requests its client has sent so far (oldest first). *)
Record DDGS : Type := {
  _exception_event : bool;
  _chat_messages : list (gmap string string);
  _chat_tokens_count : Z;
  _chat_vqd : string;
  wire : list Request;
}.

(** [DDGS.__init__]. *)
Definition __init__ : DDGS :=
  {| _exception_event := false;
     _chat_messages := [];
     _chat_tokens_count := 0;
     _chat_vqd := "";
     wire := [] |}.

Definition set_exception_event (self : DDGS) : DDGS :=
  {| _exception_event := true;
     _chat_messages := _chat_messages self;
     _chat_tokens_count := _chat_tokens_count self;
     _chat_vqd := _chat_vqd self;
     wire := wire self |}.

Definition set_wire (w : list Request) (self : DDGS) : DDGS :=
  {| _exception_event := _exception_event self;
     _chat_messages := _chat_messages self;
     _chat_tokens_count := _chat_tokens_count self;
     _chat_vqd := _chat_vqd self;
     wire := w |}.

Definition set_chat_vqd (v : string) (self : DDGS) : DDGS :=
  {| _exception_event := _exception_event self;
     _chat_messages := _chat_messages self;
     _chat_tokens_count := _chat_tokens_count self;
     _chat_vqd := v;
     wire := wire self |}.

Definition append_chat_message (m : gmap string string) (self : DDGS) : DDGS :=
  {| _exception_event := _exception_event self;
     _chat_messages := _chat_messages self ++ [m];
     _chat_tokens_count := _chat_tokens_count self;
     _chat_vqd := _chat_vqd self;
     wire := wire self |}.

Definition add_chat_tokens (n : Z) (self : DDGS) : DDGS :=
  {| _exception_event := _exception_event self;
     _chat_messages := _chat_messages self;
     _chat_tokens_count := (_chat_tokens_count self + n)%Z;
     _chat_vqd := _chat_vqd self;
     wire := wire self |}.

Section Transport.
Context `{Client} `{Utils}.

(** One call of [self.client]: the request goes on the wire and the
    network answers. *)
Definition send (req : Request) : St DDGS Outcome :=
  λ self, (Ok (client_request (wire self) req), set_wire (wire self ++ [req]) self).

(** [DDGS._get_url] (lines 106-129). *)
Definition _get_url (method url : string) (params : option (gmap string string))
    (content : option string) (data : option (gmap string string)) : St DDGS string :=
  self <- get ;;
  if _exception_event self then
    raise (DuckDuckGoSearchException (JStr "Exception occurred in previous call."))
  else
    out <- send {| method := method; url := url; params := params; content := content;
                   data := data; headers := None; json := None; timeout := None |} ;;
    match out with
    | Failed type_name ex =>
        modify set_exception_event ;;;
        if Py.contains "time" (Py.lower ex) then
          raise (TimeoutException (JStr (url +:+ " " +:+ type_name +:+ ": " +:+ ex)))
        else
          raise (DuckDuckGoSearchException (JStr (url +:+ " " +:+ type_name +:+ ": " +:+ ex)))
    | Responded resp =>
        if (status_code resp =? 200)%Z then ret (resp_content resp)
        else
          modify set_exception_event ;;;
          if bool_decide (status_code resp ∈ [202; 301; 403]%Z) then
            raise (RatelimitException
                     (JStr (resp_url resp +:+ " " +:+ pretty (status_code resp) +:+ " Ratelimit")))
          else
            raise (DuckDuckGoSearchException
                     (JStr (resp_url resp +:+ " return None. params=" +:+ repr_dict params
                            +:+ " content=" +:+ repr_bytes content
                            +:+ " data=" +:+ repr_dict data)))
    end.

(** [DDGS._get_vqd] (lines 131-134). *)
Definition _get_vqd (keywords : string) : St DDGS string :=
  resp_content <- _get_url "POST" "https://duckduckgo.com" None None
                    (Some {[ "q" := keywords ]}) ;;
  lift (_extract_vqd resp_content keywords).

End Transport.

(** ** Strings of the chat stream *)

Module Str.

(** The line feed ["\n"]. *)
Definition LF : string := String (Ascii.ascii_of_nat 10) EmptyString.

Definition to_list (s : string) : list Ascii.ascii := String.list_ascii_of_string s.
Definition of_list (l : list Ascii.ascii) : string := String.string_of_list_ascii l.

(** The characters [str.strip] removes, among the code points below 256. *)
Definition is_space (c : Ascii.ascii) : bool :=
  let n := Ascii.N_of_ascii c in
  ((9 <=? n) && (n <=? 13) || (28 <=? n) && (n <=? 32) || (n =? 133) || (n =? 160))%N.

Fixpoint drop_while (p : Ascii.ascii → bool) (l : list Ascii.ascii) : list Ascii.ascii :=
  match l with
  | [] => []
  | c :: l' => if p c then drop_while p l' else l
  end.

(** [s.rstrip(chars)]: drops the trailing characters that occur in [chars]. *)
Definition rstrip (chars s : string) : string :=
  of_list (rev (drop_while (λ c, bool_decide (c ∈ to_list chars)) (rev (to_list s)))).

(** [s.strip()]. *)
Definition strip (s : string) : string :=
  of_list (rev (drop_while is_space (rev (drop_while is_space (to_list s))))).

(** [s.split(sep)] for a non-empty [sep]: [cur] is the piece read so far
    (reversed), [skip] the characters of a separator still to pass. *)
Fixpoint split_go (sep : string) (skip : nat) (cur : list Ascii.ascii) (s : string)
    : list string :=
  match s with
  | EmptyString => [of_list (rev cur)]
  | String c s' =>
      match skip with
      | S k => split_go sep k cur s'
      | O =>
          if Py.startswith sep s
          then of_list (rev cur) :: split_go sep (String.length sep - 1) [] s'
          else split_go sep 0 (c :: cur) s'
      end
  end.

Definition split (sep s : string) : list string := split_go sep 0 [] s.

(** [sep.join(l)]. *)
Fixpoint join (sep : string) (l : list string) : string :=
  match l with
  | [] => ""
  | [x] => x
  | x :: l' => x +:+ sep +:+ join sep l'
  end.

End Str.

(** ** Chat (lines 136-194) *)

Section Chat.
Context `{Client} `{Utils}.

Definition models : gmap string string :=
  {[ "claude-3-haiku" := "claude-3-haiku-20240307";
     "gpt-4o-mini" := "gpt-4o-mini";
     "llama-3-70b" := "meta-llama/Llama-3-70b-chat-hf";
     "mixtral-8x7b" := "mistralai/Mixtral-8x7B-Instruct-v0.1" ]}.

(** [self.client.get(...)] and [self.client.post(...)]: an exception of the
    client passes through [chat] as it is. *)
Definition client_call (req : Request) : St DDGS Response :=
  out <- send req ;;
  match out with
  | Responded resp => ret resp
  | Failed type_name text => raise (ForeignError type_name text)
  end.

(** The loop over the decoded fragments (lines 177-189): [results] holds
    the messages collected so far.  The fields of a decoded object are its
    items, every key once. *)
Fixpoint chat_fragments (data : list Json) (results : list Json) : Res (list Json) :=
  match data with
  | [] => Ok results
  | JObj x :: data' =>
      if Py.eq_str (Py.assoc "action" x) "error" then
        let err_message := default (JStr "") (Py.assoc "type" x) in
        if Py.eq_int (Py.assoc "status" x) 429 then
          Raise (if Py.eq_str (Some err_message) "ERR_CONVERSATION_LIMIT"
                 then ConversationLimitException err_message
                 else RatelimitException err_message)
        else Raise (DuckDuckGoSearchException err_message)
      else
        match Py.assoc "message" x with
        | Some message =>
            if Py.truthy message then chat_fragments data' (results ++ [message])
            else chat_fragments data' results
        | None => chat_fragments data' results
        end
  | _ :: _ => Raise (AttributeError "object has no attribute 'get'")
  end.

(** [str.join] of the collected messages: every one must be a [str]. *)
Fixpoint join_messages (results : list Json) : Res string :=
  match results with
  | [] => Ok ""
  | JStr s :: results' =>
      match join_messages results' with
      | Ok t => Ok (s +:+ t)
      | Raise e => Raise e
      end
  | _ :: _ => Raise (TypeError "sequence item: expected str instance")
  end.

(** The decoding of the response text (lines 174-175). *)
Definition chat_decode (text : string) : Res (list Json) :=
  let pieces := Str.strip <$> Str.split "data:" (Str.rstrip ("[DONE]LIMT_CVRSA" +:+ Str.LF) text) in
  let data := Str.join "," (filter (λ x, Py.truthy_str x = true) pieces) in
  match json_loads ("[" +:+ data +:+ "]") with
  | Ok (JArr items) => Ok items
  | Ok _ => Raise (TypeError "object is not iterable")
  | Raise e => Raise e
  end.

Definition turn (role content : string) : gmap string string :=
  {[ "role" := role; "content" := content ]}.

(** The first half of [chat] (lines 148-171): the token of a fresh
    session, the user turn, and the request. *)
Definition chat_request (keywords model : string) (timeout : Z) : St DDGS Response :=
  self <- get ;;
  (if negb (Py.truthy_str (_chat_vqd self)) then
     resp <- client_call
               {| method := "GET"; url := "https://duckduckgo.com/duckchat/v1/status";
                  params := None; content := None; data := None;
                  headers := Some {[ "x-vqd-accept" := "1" ]};
                  json := None; timeout := None |} ;;
     modify (set_chat_vqd (default "" (resp_headers resp !! "x-vqd-4")))
   else ret ()) ;;;
  modify (append_chat_message (turn "user" keywords)) ;;;
  modify (add_chat_tokens
            (if (4 <=? Z.of_nat (String.length keywords))%Z
             then Z.of_nat (String.length keywords) / 4 else 1)%Z) ;;;
  model_id <- lift (Py.getitem models model) ;;
  self <- get ;;
  client_call
    {| method := "POST"; url := "https://duckduckgo.com/duckchat/v1/chat";
       params := None; content := None; data := None;
       headers := Some {[ "x-vqd-4" := _chat_vqd self ]};
       json := Some {| model := model_id; messages := _chat_messages self |};
       timeout := Some timeout |}.

(** [DDGS.chat]: the request, then lines 172-194. *)
Definition chat (keywords model : string) (timeout : Z) : St DDGS string :=
  resp <- chat_request keywords model timeout ;;
  modify (set_chat_vqd (default "" (resp_headers resp !! "x-vqd-4"))) ;;;
  data <- lift (chat_decode (resp_content resp)) ;;
  results <- lift (chat_fragments data []) ;;
  result <- lift (join_messages results) ;;
  modify (append_chat_message (turn "assistant" result)) ;;;
  modify (add_chat_tokens (Z.of_nat (length results))) ;;;
  ret result.

End Chat.

(** ** The thread pool *)

(** The locals one search call shares with its page closures: the instance,
    the [cache] of identity keys and the request [payload]. *)
Record Call : Type := {
  self : DDGS;
  cache : gset string;
  payload : gmap string string;
}.

Definition set_self (d : DDGS) (c : Call) : Call :=
  {| self := d; cache := cache c; payload := payload c |}.
Definition cache_add (k : string) (c : Call) : Call :=
  {| self := self c; cache := {[ k ]} ∪ cache c; payload := payload c |}.
Definition payload_set (k v : string) (c : Call) : Call :=
  {| self := self c; cache := cache c; payload := <[ k := v ]> (payload c) |}.

(** A method of the instance called from a page closure. *)
Definition on_self {A} (m : St DDGS A) : St Call A :=
  λ c, let '(r, d) := m (self c) in (r, set_self d c).

(** The body of a search call that owns the locals. *)
Definition with_locals {A} (p : gmap string string) (m : St Call A) : St DDGS A :=
  λ d, let '(r, c) := m {| self := d; cache := ∅; payload := p |} in (r, self c).

(** [ThreadPoolExecutor.map(fn, args)] hands every task to the pool at once
    and yields the results in the order of [args].  The order in which the
    tasks run is the pool's.  [run_tasks] runs them one at a time: at each
    step the next element of the schedule [sched] picks the task to run among
    those [pending] (its value modulo their number; the first one when the
    schedule is used up), so every [sched] is an order of the tasks and every
    order is some [sched].  The empty schedule runs them in the order of
    [args].  A task, once picked, runs to its end: of the interleavings of
    the pool these are the ones in which no task is interrupted by another.
    Every task runs, also after one has raised. *)
Fixpoint run_tasks {S A B} (fn : A → St S B) (n : nat) (pending : list (nat * A))
    (sched : list nat) (s : S) : list (nat * Res B) * S :=
  match n with
  | O => ([], s)
  | S n' =>
      let k := (hd 0 sched `mod` length pending)%nat in
      match pending !! k with
      | None => ([], s)
      | Some (i, a) =>
          let '(r, s1) := fn a s in
          let '(done, s2) := run_tasks fn n' (delete k pending) (tl sched) s1 in
          ((i, r) :: done, s2)
      end
  end.

(** The result of task [i], once the tasks have run. *)
Fixpoint result_of {B} (i : nat) (done : list (nat * Res B)) : option (Res B) :=
  match done with
  | [] => None
  | (j, r) :: done' => if decide (j = i) then Some r else result_of i done'
  end.

(** [for r in executor.map(...)]: the results in the order of the arguments;
    the first exception in that order is raised. *)
Fixpoint yield_results {B} (done : list (nat * Res B)) (i n : nat) : Res (list B) :=
  match n with
  | O => Ok []
  | S n' =>
      match result_of i done with
      | Some (Ok b) =>
          match yield_results done (S i) n' with
          | Ok bs => Ok (b :: bs)
          | Raise e => Raise e
          end
      | Some (Raise e) => Raise e
      | None => Ok []
      end
  end.

Definition executor_map {S A B} (sched : list nat) (fn : A → St S B) (args : list A)
    : St S (list B) :=
  λ s, let '(done, s') := run_tasks fn (length args) (imap (λ i a, (i, a)) args) sched s in
       (yield_results done 0 (length args), s').

(** ** Text search (lines 196-508) *)

(** The page offsets of a search and the effective [max_results] (lines
    310-313, and the same four lines of every paginated search with its own
    constants): offset [0] always; for a [max_results] that is neither [None]
    nor [0], [max_results] is cut down to [ceiling] and the offsets
    [range(first, max_results, stride)] follow. *)
Definition slist_of (ceiling first stride : Z) (max_results : option Z)
    : list Z * option Z :=
  if Py.truthy_int max_results then
    let max_results := Z.min (default 0%Z max_results) ceiling in
    (0%Z :: Py.range first max_results stride, Some max_results)
  else ([0%Z], max_results).

(** Lines 498-501 ([_text_lite]; 310-313 and 400-403 are the same text). *)
Definition text_slist : option Z → list Z * option Z := slist_of 2023 23 50.
(** Lines 596-599 ([images]). *)
Definition images_slist : option Z → list Z * option Z := slist_of 500 100 100.
(** Lines 673-676 ([videos]). *)
Definition videos_slist : option Z → list Z * option Z := slist_of 400 60 60.
(** Lines 750-753 ([news]). *)
Definition news_slist : option Z → list Z * option Z := slist_of 120 30 30.

(** What [lxml] hands to the extractors.  An element of [//div[h2]] with the
    results of the three queries made on it, and a row of
    [//table[last()]//tr] with its three.  These location paths select
    elements, and attribute and text queries return lists of strings, so the
    [isinstance] guards of the source hold. *)
Record HtmlDiv : Type := {
  div_a_href : list string;      (* ./a/@href *)
  div_h2_a_text : list string;   (* ./h2/a/text() *)
  div_a_text : list string;      (* ./a//text() *)
}.

Record LiteTr : Type := {
  tr_a_href : list string;       (* .//a//@href *)
  tr_a_text : list string;       (* .//a//text() *)
  tr_snippet : list string;      (* .//td[@class='result-snippet']//text() *)
}.

Class Lxml : Type := {
  LXML_AVAILABLE : bool;
  html_divs : string → Res (list HtmlDiv);
  lite_trs : string → Res (list LiteTr);
}.

(** The iterator [zip(cycle(range(1, 5)), elements)]: the number of pairs
    drawn so far and the elements left. *)
Definition RowIter : Type := nat * list LiteTr.

(** [next(data, None)]. *)
Definition row_next (data : RowIter) : option (nat * LiteTr) * RowIter :=
  match data.2 with
  | [] => (None, data)
  | e :: rest => (Some ((data.1 `mod` 4 + 1)%nat, e), (S data.1, rest))
  end.

(** [[next(data, None) for _ in range(3)]] (line 477). *)
Definition row_skip3 (data : RowIter) : RowIter :=
  (row_next (row_next (row_next data).2).2).2.

Definition is_ad_link (href : string) : bool :=
  Py.startswith "http://www.google.com/search?q=" href
  || Py.startswith "https://duckduckgo.com/y.js?ad_domain" href.

(** The tail of a text search (lines 288-289 and 310-320 of [_text_api];
    362-363 and 400-410 of [_text_html], 449-450 and 498-508 of [_text_lite]
    are the same text around their own page function): a fresh [cache], the
    page offsets, one task per offset on the pool, the pages put together in
    the order of the offsets, and the cut at [max_results]. *)
Definition text_pages {R} (sched : list nat) (page : Z → St Call (list R))
    (payload : gmap string string) (max_results : option Z) : St DDGS (list R) :=
  let '(slist, max_results) := text_slist max_results in
  pages <- with_locals payload (executor_map sched page slist) ;;
  lift (Py.islice (concat pages) max_results).

Section Text.
Context `{Client} `{Utils} `{Lxml}.

Definition result (title href body : string) : gmap string string :=
  {[ "title" := _normalize title; "href" := _normalize_url href; "body" := _normalize body ]}.

(** *** backend "api" *)

(** The result of a row whose link is new (lines 300-307): none when the
    normalised body is empty. *)
Definition _text_api_result (row : gmap string string) (href : string)
    : Res (list (gmap string string)) :=
  match Py.getitem row "a" with
  | Ok a =>
      let body := _normalize a in
      if Py.truthy_str body then
        match Py.getitem row "t" with
        | Ok t =>
            Ok [ ({[ "title" := _normalize t; "href" := _normalize_url href;
                     "body" := body ]} : gmap string string) ]
        | Raise e => Raise e
        end
      else Ok []
  | Raise e => Raise e
  end.

(** The body of the loop over [page_data] (lines 297-307). *)
Definition _text_api_row (keywords : string) (row : gmap string string)
    : St Call (list (gmap string string)) :=
  c <- get ;;
  match row !! "u" with
  | Some href =>
      if Py.truthy_str href && bool_decide (href ∉ cache c)
         && negb (bool_decide (href = "http://www.google.com/search?q=" +:+ keywords))
      then
        modify (cache_add href) ;;;
        lift (_text_api_result row href)
      else ret []
  | None => ret []
  end.

(** The first lines of [_text_api_page] (292-294): the request for the
    page at offset [s] and the rows decoded from the answer. *)
Definition _text_api_fetch (keywords : string) (s : Z)
    : St Call (list (gmap string string)) :=
  modify (payload_set "s" (pretty s)) ;;;
  c <- get ;;
  resp_content <- on_self (_get_url "GET" "https://links.duckduckgo.com/d.js"
                             (Some (payload c)) None None) ;;
  lift (_text_extract_json resp_content keywords).

(** [_text_api_page] (lines 291-308). *)
Definition _text_api_page (keywords : string) (s : Z)
    : St Call (list (gmap string string)) :=
  page_data <- _text_api_fetch keywords s ;;
  for_each (_text_api_row keywords) page_data.

Definition _text_api (sched : list nat) (keywords region safesearch : string)
    (timelimit : option string) (max_results : option Z)
    : St DDGS (list (gmap string string)) :=
  if negb (Py.truthy_str keywords) then raise (AssertionError "keywords is mandatory")
  else
    vqd <- _get_vqd keywords ;;
    let payload : gmap string string :=
      {[ "q" := keywords; "kl" := region; "l" := region; "p" := ""; "s" := "0";
         "df" := ""; "vqd" := vqd;
         "bing_market" := Py.slice_from 3 region +:+ "-" +:+ Py.upper (Py.slice_to 2 region);
         "ex" := "" ]} in
    let safesearch := Py.lower safesearch in
    let payload :=
      if decide (safesearch = "moderate") then <[ "ex" := "-1" ]> payload
      else if decide (safesearch = "off") then <[ "ex" := "-2" ]> payload
      else if decide (safesearch = "on") then <[ "p" := "1" ]> payload
      else payload in
    let payload :=
      if Py.truthy_opt_str timelimit then <[ "df" := default "" timelimit ]> payload
      else payload in
    text_pages sched (_text_api_page keywords) payload max_results.

(** *** backend "html" *)

(** The body of the loop over [elements] (lines 377-397). *)
Definition _text_html_row (e : HtmlDiv) : St Call (list (gmap string string)) :=
  c <- get ;;
  match head (div_a_href e) with
  | Some href =>
      if Py.truthy_str href && bool_decide (href ∉ cache c) && negb (is_ad_link href)
      then
        modify (cache_add href) ;;;
        let title := default "" (head (div_h2_a_text e)) in
        let body := Str.join "" (div_a_text e) in
        ret [ result title href body ]
      else ret []
  | None => ret []
  end.

Definition _text_html_page (s : Z) : St Call (list (gmap string string)) :=
  modify (payload_set "s" (pretty s)) ;;;
  c <- get ;;
  resp_content <- on_self (_get_url "POST" "https://html.duckduckgo.com/html"
                             None None (Some (payload c))) ;;
  if Py.contains "No  results." resp_content then ret []
  else
    elements <- lift (html_divs resp_content) ;;
    for_each _text_html_row elements.

Definition _text_html (sched : list nat) (keywords region : string)
    (timelimit : option string) (max_results : option Z)
    : St DDGS (list (gmap string string)) :=
  if negb (Py.truthy_str keywords) then raise (AssertionError "keywords is mandatory")
  else
    let payload : gmap string string :=
      {[ "q" := keywords; "s" := "0"; "o" := "json"; "api" := "d.js"; "vqd" := "";
         "kl" := region; "bing_market" := region ]} in
    let payload :=
      if Py.truthy_opt_str timelimit then <[ "df" := default "" timelimit ]> payload
      else payload in
    payload <- (if Py.truthy_int max_results && (20 <? default 0 max_results)%Z then
                  vqd <- _get_vqd keywords ;; ret (<[ "vqd" := vqd ]> payload)
                else ret payload) ;;
    text_pages sched _text_html_page payload max_results.

(** *** backend "lite" *)

(** The loop [for i, e in data] (lines 465-495), from the state of the
    iterator [data] and of the locals [href] and [title]; [fuel] bounds the
    number of rounds.  A round draws one row; after a filtered row at
    position 1 it draws three more. *)
Fixpoint _text_lite_rows (fuel : nat) (data : RowIter) (href : option string)
    (title : string) : St Call (list (gmap string string)) :=
  match fuel with
  | O => ret []
  | S fuel' =>
      match row_next data with
      | (None, _) => ret []
      | (Some (i, e), data) =>
          if decide (i = 1%nat) then
            let href := head (tr_a_href e) in
            c <- get ;;
            match href with
            | Some h =>
                if bool_decide (h ∈ cache c) || is_ad_link h
                then _text_lite_rows fuel' (row_skip3 data) href title
                else
                  modify (cache_add h) ;;;
                  _text_lite_rows fuel' data href (default "" (head (tr_a_text e)))
            | None => _text_lite_rows fuel' (row_skip3 data) href title
            end
          else if decide (i = 2%nat) then
            let body :=
              match tr_snippet e with
              | [] => ""
              | _ => Str.strip (Str.join "" (tr_snippet e))
              end in
            if Py.truthy_opt_str href then
              rs <- _text_lite_rows fuel' data href title ;;
              ret (result title (default "" href) body :: rs)
            else _text_lite_rows fuel' data href title
          else _text_lite_rows fuel' data href title
      end
  end.

Definition _text_lite_page (s : Z) : St Call (list (gmap string string)) :=
  modify (payload_set "s" (pretty s)) ;;;
  c <- get ;;
  resp_content <- on_self (_get_url "POST" "https://lite.duckduckgo.com/lite/"
                             None None (Some (payload c))) ;;
  if Py.contains "No more results." resp_content then ret []
  else
    elements <- lift (lite_trs resp_content) ;;
    _text_lite_rows (length elements) (0%nat, elements) None "".

Definition _text_lite (sched : list nat) (keywords region : string)
    (timelimit : option string) (max_results : option Z)
    : St DDGS (list (gmap string string)) :=
  if negb (Py.truthy_str keywords) then raise (AssertionError "keywords is mandatory")
  else
    let payload : gmap string string :=
      {[ "q" := keywords; "s" := "0"; "o" := "json"; "api" := "d.js"; "vqd" := "";
         "kl" := region; "bing_market" := region ]} in
    let payload :=
      if Py.truthy_opt_str timelimit then <[ "df" := default "" timelimit ]> payload
      else payload in
    text_pages sched _text_lite_page payload max_results.

(** *** [DDGS.text] (lines 196-236) *)

Definition text (sched : list nat) (keywords region safesearch : string)
    (timelimit : option string) (backend : string) (max_results : option Z)
    : St DDGS (list (gmap string string)) :=
  let backend :=
    if negb LXML_AVAILABLE && negb (bool_decide (backend = "api")) then "api" else backend in
  if decide (backend = "api") then
    _text_api sched keywords region safesearch timelimit max_results
  else if decide (backend = "html") then
    _text_html sched keywords region timelimit max_results
  else if decide (backend = "lite") then
    _text_lite sched keywords region timelimit max_results
  else raise (UnboundLocalError "results").

End Text.

(** ** [decimal.Decimal]

    The coordinates of [maps] are numbers of [decimal.Decimal], each
    modelled by its value.  A sum or a quotient of two of them is the exact
    result rounded by the context of the thread, which is the one a thread
    starts with: 28 significant digits, a tie goes to the even digit
    ([ROUND_HALF_EVEN]).  The exponents of coordinates lie far inside the
    range of that context (from -999999 to 999999), where it traps no
    signal. *)
Module Decimal.

Definition prec : Z := 28.

(** [len(str(n)) - 1] for an integer [n >= 1]. *)
Fixpoint log10_fuel (fuel : nat) (n : Z) : Z :=
  match fuel with
  | O => 0
  | S fuel' => if (n <? 10)%Z then 0%Z else (1 + log10_fuel fuel' (n / 10))%Z
  end.

Definition log10 (n : Z) : Z := log10_fuel (Z.to_nat (Z.log2 n)) n.

(** The fraction [n / d] over [10^e], as a fraction of integers. *)
Definition scale (e n d : Z) : Z * Z :=
  if (0 <=? e)%Z then (n, d * 10 ^ e)%Z else (n * 10 ^ (- e), d)%Z.

(** The adjusted exponent of a value other than zero, which is the
    exponent of its first digit: [10^k <= |q| < 10^(k+1)]. *)
Definition adjusted (q : Q) : Z :=
  let n := Z.abs (Qnum q) in
  let d := Zpos (Qden q) in
  let k := (log10 n - log10 d)%Z in
  let '(n', d') := scale k n d in
  if (d' <=? n')%Z then k else (k - 1)%Z.

(** The integer nearest to [n / d]; of two that are as near, the even
    one. *)
Definition round_half_even (n d : Z) : Z :=
  let q := (n / d)%Z in
  let r := (n `mod` d)%Z in
  if (2 * r <? d)%Z then q
  else if (d <? 2 * r)%Z then (q + 1)%Z
  else if Z.even q then q else (q + 1)%Z.

(** The value of the coefficient [c] with the exponent [e]. *)
Definition of_coefficient (c e : Z) : Q :=
  if (0 <=? e)%Z then inject_Z (c * 10 ^ e) else c # Z.to_pos (10 ^ (- e)).

(** A value as the context rounds it: to the 28 digits from its first
    digit on. *)
Definition round (q : Q) : Q :=
  if (Qnum q =? 0)%Z then 0%Q
  else
    let e := (adjusted q - (prec - 1))%Z in
    let '(n, d) := scale e (Z.abs (Qnum q)) (Zpos (Qden q)) in
    Qred (of_coefficient (Z.sgn (Qnum q) * round_half_even n d) e).

(** [x + y] and [x / y] (for a [y] other than zero). *)
Definition add (x y : Q) : Q := round (x + y).
Definition div (x y : Q) : Q := round (x / y).

End Decimal.

(** ** Maps: the search squares (lines 955-1045) *)

(** A search square [(lat_t, lon_l, lat_b, lon_r)]. *)
Definition BBox : Type := Q * Q * Q * Q.

(** What [_maps_page] makes of one decoded row (lines 982-1003): the
    identity key [f'{res["name"]} {res["address"]}'] and the record of the
    place.  Both read fields of the row and may raise; they enter as
    functions of the row. *)
Class Places : Type := {
  place_key : Json → Res string;
  place_record : Json → Res (gmap string Json);
}.

(** [for res in page_data] over a decoded JSON value. *)
Definition iter_json (v : Json) : Res (list Json) :=
  match v with
  | JArr items => Ok items
  | JStr s => Ok ((λ c, JStr (String c EmptyString)) <$> Str.to_list s)
  | JObj fields => Ok ((λ kv, JStr kv.1) <$> fields)
  | _ => Raise (TypeError "object is not iterable")
  end.

Section Maps.
Context `{Client} `{Utils} `{Places}.

(** The four quadrants of a square (lines 1018-1023). *)
Definition quadrants (bbox : BBox) : list BBox :=
  let '(lat_t, lon_l, lat_b, lon_r) := bbox in
  let lat_middle := Decimal.div (Decimal.add lat_t lat_b) 2 in
  let lon_middle := Decimal.div (Decimal.add lon_l lon_r) 2 in
  let bbox1 := (lat_t, lon_l, lat_middle, lon_middle) in
  let bbox2 := (lat_t, lon_middle, lat_middle, lon_r) in
  let bbox3 := (lat_middle, lon_l, lat_b, lon_middle) in
  let bbox4 := (lat_middle, lon_middle, lat_b, lon_r) in
  [bbox1; bbox2; bbox3; bbox4].

(** The loop [for bbox in work_bboxes] (lines 1013-1024).  [vars] are the
    locals [lat_t, lon_l, lat_b, lon_r] of [maps] on entry; the loop
    returns them as it leaves them, with [queue_bboxes].  ([tasks] ends as
    a copy of [work_bboxes].) *)
Fixpoint maps_queue (vars : BBox) (work_bboxes : list BBox) : BBox * list BBox :=
  match work_bboxes with
  | [] => (vars, [])
  | bbox :: work' =>
      let '(lat_t, lon_l, lat_b, lon_r) := vars in
      if negb (Qle_bool (_calculate_distance lat_t lon_l lat_b lon_r) 1) then
        let '(vars', queue) := maps_queue bbox work' in
        (vars', quadrants bbox ++ queue)
      else maps_queue vars work'
  end.

(** The body of the loop over [page_data] (lines 981-1004). *)
Definition _maps_row (res : Json) : St Call (list (gmap string Json)) :=
  r_name <- lift (place_key res) ;;
  c <- get ;;
  if bool_decide (r_name ∈ cache c) then ret []
  else
    modify (cache_add r_name) ;;;
    result <- lift (place_record res) ;;
    ret [result].

(** [_maps_page] (lines 958-1005); [n_results] is [len(results)], which
    does not change while the pages of a round run. *)
Definition _maps_page (keywords vqd : string) (max_results : option Z) (n_results : nat)
    (bbox : BBox) : St Call (option (list (gmap string Json))) :=
  if Py.truthy_int max_results && (default 0 max_results <=? Z.of_nat n_results)%Z
  then ret None
  else
    let '(lat_t, lon_l, lat_b, lon_r) := bbox in
    let params : gmap string string :=
      {[ "q" := keywords; "vqd" := vqd; "tg" := "maps_places"; "rt" := "D";
         "mkexp" := "b"; "wiki_info" := "1"; "is_requery" := "1";
         "bbox_tl" := str_Decimal lat_t +:+ "," +:+ str_Decimal lon_l;
         "bbox_br" := str_Decimal lat_b +:+ "," +:+ str_Decimal lon_r;
         "strict_bbox" := "1" ]} in
    resp_content <- on_self (_get_url "GET" "https://duckduckgo.com/local.js"
                               (Some params) None None) ;;
    resp_json <- lift (json_loads resp_content) ;;
    match resp_json with
    | JObj fields =>
        page_data <- lift (iter_json (default (JArr []) (Py.assoc "results" fields))) ;;
        page_results <- for_each _maps_row page_data ;;
        ret (Some page_results)
    | _ => raise (AttributeError "object has no attribute 'get'")
    end.

(** The loop [while work_bboxes] (lines 1010-1043): one round per unit of
    [fuel].  It returns [results]. *)
Fixpoint maps_rounds (fuel : nat) (sched : list (list nat)) (keywords vqd : string)
    (max_results : option Z) (vars : BBox) (work_bboxes : list BBox)
    (results : list (gmap string Json)) : St Call (list (gmap string Json)) :=
  match fuel, work_bboxes with
  | O, _ | _, [] => ret results
  | S fuel', _ :: _ =>
      let tasks := work_bboxes in
      let '(vars, queue_bboxes) := maps_queue vars work_bboxes in
      pages <- executor_map (hd [] sched)
                 (_maps_page keywords vqd max_results (length results)) tasks ;;
      let work_bboxes_results := concat (default [] <$> pages) in
      let results := results ++ work_bboxes_results in
      if negb (Py.truthy_int max_results)
         || (default 0 max_results <=? Z.of_nat (length results))%Z
         || bool_decide (length work_bboxes_results = 0%nat)
      then ret results
      else maps_rounds fuel' (tl sched) keywords vqd max_results vars queue_bboxes results
  end.

(** [maps] from [start_bbox] on (lines 1007-1045), for the query token
    [vqd] and the square the earlier lines arrive at.  A round that does
    not leave the loop adds a result, so the loop makes at most
    [max_results] rounds. *)
Definition maps_from (sched : list (list nat)) (keywords vqd : string)
    (start_bbox : BBox) (max_results : option Z) : St DDGS (list (gmap string Json)) :=
  results <- with_locals ∅
               (maps_rounds (S (Z.to_nat (default 0%Z max_results))) sched keywords vqd
                  max_results start_bbox [start_bbox] []) ;;
  lift (Py.islice results max_results).

End Maps.

(** ** Decoded values as Python sees them *)

Module Value.

(** [v[k]] for a key [k] that is a [str]. *)
Definition item (v : Json) (k : string) : Res Json :=
  match v with
  | JObj fields =>
      match Py.assoc k fields with
      | Some x => Ok x
      | None => Raise (KeyError k)
      end
  | JArr _ => Raise (TypeError "list indices must be integers or slices, not str")
  | JStr _ => Raise (TypeError "string indices must be integers")
  | _ => Raise (TypeError "object is not subscriptable")
  end.

(** [v.get(k, d)]; [v.get(k)] is [v.get(k, None)]. *)
Definition get_default (v : Json) (k : string) (d : Json) : Res Json :=
  match v with
  | JObj fields => Ok (default d (Py.assoc k fields))
  | _ => Raise (AttributeError "object has no attribute 'get'")
  end.

(** [d[k] = x] on a dict: the value of [k] is replaced where it stands, a
    new key goes to the end. *)
Fixpoint assoc_set (k : string) (x : Json) (fields : list (string * Json))
    : list (string * Json) :=
  match fields with
  | [] => [(k, x)]
  | (k', y) :: fields' =>
      if decide (k' = k) then (k, x) :: fields' else (k', y) :: assoc_set k x fields'
  end.

(** [v[k] = x] for a key [k] that is a [str]. *)
Definition setitem (v : Json) (k : string) (x : Json) : Res Json :=
  match v with
  | JObj fields => Ok (JObj (assoc_set k x fields))
  | JArr _ => Raise (TypeError "list indices must be integers or slices, not str")
  | _ => Raise (TypeError "object does not support item assignment")
  end.

(** Lists and dicts have no hash. *)
Definition hashable (v : Json) : bool :=
  match v with
  | JArr _ | JObj _ => false
  | _ => true
  end.

(** The number a value is, if it is one: [True] is 1 and [False] is 0. *)
Definition number (v : Json) : option Q :=
  match v with
  | JBool b => Some (if b then 1 else 0)%Q
  | JInt n => Some (inject_Z n)
  | JFloat q => Some q
  | _ => None
  end.

(** [v == w] for values that have a hash. *)
Definition eqb (v w : Json) : bool :=
  match v, w with
  | JNull, JNull => true
  | JStr s, JStr t => bool_decide (s = t)
  | _, _ =>
      match number v, number w with
      | Some p, Some q => Qeq_bool p q
      | _, _ => false
      end
  end.

(** [v in cache] for a set [cache], given by its members. *)
Definition mem (v : Json) (cache : list Json) : Res bool :=
  if hashable v then Ok (existsb (eqb v) cache)
  else Raise (TypeError "unhashable type").

End Value.

(** [str.encode()]: UTF-8, for code points below 256. *)
Definition utf8 (c : Ascii.ascii) : list Ascii.ascii :=
  let n := Ascii.N_of_ascii c in
  if (n <? 128)%N then [c]
  else [Ascii.ascii_of_N (192 + n / 64); Ascii.ascii_of_N (128 + n mod 64)].

Definition encode (s : string) : string :=
  Str.of_list (concat (utf8 <$> Str.to_list s)).

(** What [utils.py] and the standard library do with a decoded value that
    is not a [str]: the two normalisers, [f"{v}"], and
    [datetime.fromtimestamp(v, timezone.utc).isoformat()] for any value. *)
Class Values : Type := {
  _normalize_value : Json → Res Json;
  _normalize_url_value : Json → Res Json;
  format_value : Json → string;
  fromtimestamp_isoformat : Json → Res string;
}.

(** ** Searches that answer in JSON (lines 510-856, 1047-1098) *)

(** The locals that [images], [videos] and [news] share with their page
    closures.  The identity keys in [cache] are decoded values; the set is
    given by its members, the last added first. *)
Module Media.

Record Call : Type := {
  self : DDGS;
  cache : list Json;
  payload : gmap string string;
}.

Definition set_self (d : DDGS) (c : Call) : Call :=
  {| self := d; cache := cache c; payload := payload c |}.
Definition cache_add (k : Json) (c : Call) : Call :=
  {| self := self c; cache := k :: cache c; payload := payload c |}.
Definition payload_set (k v : string) (c : Call) : Call :=
  {| self := self c; cache := cache c; payload := <[ k := v ]> (payload c) |}.

Definition on_self {A} (m : St DDGS A) : St Call A :=
  λ c, let '(r, d) := m (self c) in (r, set_self d c).

Definition with_locals {A} (p : gmap string string) (m : St Call A) : St DDGS A :=
  λ d, let '(r, c) := m {| self := d; cache := []; payload := p |} in (r, self c).

End Media.

(** The tail of [images], [videos] and [news] (lines 570-571 and 596-606 of
    [images], and the same text in the other two): a fresh [cache], the page
    offsets of the search, one task per offset on the pool, the pages put
    together in the order of the offsets, and the cut at [max_results]. *)
Definition media_pages {R} (slist_of_search : option Z → list Z * option Z)
    (sched : list nat) (page : Z → St Media.Call (list R))
    (payload : gmap string string) (max_results : option Z) : St DDGS (list R) :=
  let '(slist, max_results) := slist_of_search max_results in
  pages <- Media.with_locals payload (executor_map sched page slist) ;;
  lift (Py.islice (concat pages) max_results).

(** [for row in resp_json.get("results", [])]. *)
Definition results_of (resp_json : Json) : Res (list Json) :=
  match Value.get_default resp_json "results" (JArr []) with
  | Ok page_data => iter_json page_data
  | Raise e => Raise e
  end.

(** [f"name:{v}" if v else ""]. *)
Definition filter_tag (name : string) (v : option string) : string :=
  if Py.truthy_opt_str v then name +:+ ":" +:+ default "" v else "".

(** [keywords] of [translate]: a string or a list of strings. *)
Inductive Keywords : Type :=
  | One (keyword : string)
  | Many (keywords : list string).

Section MediaSearch.
Context `{Client} `{Utils} `{Values}.

Definition normalize (v : Json) : Res Json :=
  match v with
  | JStr s => Ok (JStr (_normalize s))
  | _ => _normalize_value v
  end.

Definition normalize_url (v : Json) : Res Json :=
  match v with
  | JStr s => Ok (JStr (_normalize_url s))
  | _ => _normalize_url_value v
  end.

(** [f"{v}"]. *)
Definition format (v : Json) : string :=
  match v with
  | JStr s => s
  | _ => format_value v
  end.

(** *** [DDGS.images] (lines 510-606) *)

(** The body of the loop over [page_data] (lines 581-593). *)
Definition _images_row (row : Json) : St Media.Call (list (gmap string Json)) :=
  image_url <- lift (Value.get_default row "image" JNull) ;;
  if Py.truthy image_url then
    c <- get ;;
    seen <- lift (Value.mem image_url (Media.cache c)) ;;
    if seen then ret []
    else
      modify (Media.cache_add image_url) ;;;
      title <- lift (Value.item row "title") ;;
      image <- lift (normalize_url image_url) ;;
      thumbnail <- lift (Value.item row "thumbnail") ;;
      thumbnail <- lift (normalize_url thumbnail) ;;
      url <- lift (Value.item row "url") ;;
      url <- lift (normalize_url url) ;;
      height <- lift (Value.item row "height") ;;
      width <- lift (Value.item row "width") ;;
      source <- lift (Value.item row "source") ;;
      ret [ ({[ "title" := title; "image" := image; "thumbnail" := thumbnail;
                "url" := url; "height" := height; "width" := width;
                "source" := source ]} : gmap string Json) ]
  else ret [].

(** [_images_page] (lines 573-594). *)
Definition _images_page (s : Z) : St Media.Call (list (gmap string Json)) :=
  modify (Media.payload_set "s" (pretty s)) ;;;
  c <- get ;;
  resp_content <- Media.on_self (_get_url "GET" "https://duckduckgo.com/i.js"
                                   (Some (Media.payload c)) None None) ;;
  resp_json <- lift (json_loads resp_content) ;;
  page_data <- lift (results_of resp_json) ;;
  for_each _images_row page_data.

Definition images (sched : list nat) (keywords region safesearch : string)
    (timelimit size color type_image layout license_image : option string)
    (max_results : option Z) : St DDGS (list (gmap string Json)) :=
  if negb (Py.truthy_str keywords) then raise (AssertionError "keywords is mandatory")
  else
    vqd <- _get_vqd keywords ;;
    let safesearch_base : gmap string string :=
      {[ "on" := "1"; "moderate" := "1"; "off" := "-1" ]} in
    let timelimit := filter_tag "time" timelimit in
    let size := filter_tag "size" size in
    let color := filter_tag "color" color in
    let type_image := filter_tag "type" type_image in
    let layout := filter_tag "layout" layout in
    let license_image := filter_tag "license" license_image in
    p <- lift (Py.getitem safesearch_base (Py.lower safesearch)) ;;
    let payload : gmap string string :=
      {[ "l" := region; "o" := "json"; "q" := keywords; "vqd" := vqd;
         "f" := timelimit +:+ "," +:+ size +:+ "," +:+ color +:+ "," +:+ type_image
                +:+ "," +:+ layout +:+ "," +:+ license_image;
         "p" := p ]} in
    media_pages images_slist sched _images_page payload max_results.

(** *** [DDGS.videos] (lines 608-683) *)

(** The body of the loop over [page_data] (lines 668-670). *)
Definition _videos_row (row : Json) : St Media.Call (list Json) :=
  content <- lift (Value.item row "content") ;;
  c <- get ;;
  seen <- lift (Value.mem content (Media.cache c)) ;;
  if seen then ret []
  else
    modify (Media.cache_add content) ;;;
    ret [row].

(** [_videos_page] (lines 660-671). *)
Definition _videos_page (s : Z) : St Media.Call (list Json) :=
  modify (Media.payload_set "s" (pretty s)) ;;;
  c <- get ;;
  resp_content <- Media.on_self (_get_url "GET" "https://duckduckgo.com/v.js"
                                   (Some (Media.payload c)) None None) ;;
  resp_json <- lift (json_loads resp_content) ;;
  page_data <- lift (results_of resp_json) ;;
  for_each _videos_row page_data.

Definition videos (sched : list nat) (keywords region safesearch : string)
    (timelimit resolution duration license_videos : option string)
    (max_results : option Z) : St DDGS (list Json) :=
  if negb (Py.truthy_str keywords) then raise (AssertionError "keywords is mandatory")
  else
    vqd <- _get_vqd keywords ;;
    let safesearch_base : gmap string string :=
      {[ "on" := "1"; "moderate" := "-1"; "off" := "-2" ]} in
    let timelimit := filter_tag "publishedAfter" timelimit in
    let resolution := filter_tag "videoDefinition" resolution in
    let duration := filter_tag "videoDuration" duration in
    let license_videos := filter_tag "videoLicense" license_videos in
    p <- lift (Py.getitem safesearch_base (Py.lower safesearch)) ;;
    let payload : gmap string string :=
      {[ "l" := region; "o" := "json"; "q" := keywords; "vqd" := vqd;
         "f" := timelimit +:+ "," +:+ resolution +:+ "," +:+ duration
                +:+ "," +:+ license_videos;
         "p" := p ]} in
    media_pages videos_slist sched _videos_page payload max_results.

(** *** [DDGS.news] (lines 685-760) *)

(** The body of the loop over [page_data] (lines 736-747). *)
Definition _news_row (row : Json) : St Media.Call (list (gmap string Json)) :=
  url <- lift (Value.item row "url") ;;
  c <- get ;;
  seen <- lift (Value.mem url (Media.cache c)) ;;
  if seen then ret []
  else
    modify (Media.cache_add url) ;;;
    image_url <- lift (Value.get_default row "image" JNull) ;;
    date <- lift (Value.item row "date") ;;
    date <- lift (fromtimestamp_isoformat date) ;;
    title <- lift (Value.item row "title") ;;
    excerpt <- lift (Value.item row "excerpt") ;;
    body <- lift (normalize excerpt) ;;
    url <- lift (normalize_url url) ;;
    image <- lift (normalize_url image_url) ;;
    source <- lift (Value.item row "source") ;;
    ret [ ({[ "date" := JStr date; "title" := title; "body" := body; "url" := url;
              "image" := image; "source" := source ]} : gmap string Json) ].

(** [_news_page] (lines 729-748). *)
Definition _news_page (s : Z) : St Media.Call (list (gmap string Json)) :=
  modify (Media.payload_set "s" (pretty s)) ;;;
  c <- get ;;
  resp_content <- Media.on_self (_get_url "GET" "https://duckduckgo.com/news.js"
                                   (Some (Media.payload c)) None None) ;;
  resp_json <- lift (json_loads resp_content) ;;
  page_data <- lift (results_of resp_json) ;;
  for_each _news_row page_data.

Definition news (sched : list nat) (keywords region safesearch : string)
    (timelimit : option string) (max_results : option Z)
    : St DDGS (list (gmap string Json)) :=
  if negb (Py.truthy_str keywords) then raise (AssertionError "keywords is mandatory")
  else
    vqd <- _get_vqd keywords ;;
    let safesearch_base : gmap string string :=
      {[ "on" := "1"; "moderate" := "-1"; "off" := "-2" ]} in
    p <- lift (Py.getitem safesearch_base (Py.lower safesearch)) ;;
    let payload : gmap string string :=
      {[ "l" := region; "o" := "json"; "noamp" := "1"; "q" := keywords; "vqd" := vqd;
         "p" := p ]} in
    let payload :=
      if Py.truthy_opt_str timelimit then <[ "df" := default "" timelimit ]> payload
      else payload in
    media_pages news_slist sched _news_page payload max_results.

(** *** [DDGS.answers] (lines 762-831) *)

(** A result of [answers]. *)
Definition answer (icon text topic url : Json) : gmap string Json :=
  {[ "icon" := icon; "text" := text; "topic" := topic; "url" := url ]}.

(** The result of a topic or of a topic of a group (lines 810-818 and
    821-829). *)
Definition _answers_topic (topic : Json) (row : Json) : Res (gmap string Json) :=
  match Value.item row "Icon" with
  | Ok row_icon =>
      match Value.get_default row_icon "URL" JNull with
      | Ok icon =>
          let icon :=
            if Py.truthy icon then JStr ("https://duckduckgo.com" +:+ format icon)
            else JStr "" in
          match Value.item row "Text" with
          | Ok text =>
              match Value.item row "FirstURL" with
              | Ok url => Ok (answer icon text topic url)
              | Raise e => Raise e
              end
          | Raise e => Raise e
          end
      | Raise e => Raise e
      end
  | Raise e => Raise e
  end.

(** [for x in l: out.append(f(x))] for an [f] that may raise. *)
Fixpoint map_res {A B} (f : A → Res B) (l : list A) : Res (list B) :=
  match l with
  | [] => Ok []
  | x :: l' =>
      match f x with
      | Ok y =>
          match map_res f l' with
          | Ok ys => Ok (y :: ys)
          | Raise e => Raise e
          end
      | Raise e => Raise e
      end
  end.

(** The body of the loop over the related topics (lines 808-829). *)
Definition _answers_row (row : Json) : Res (list (gmap string Json)) :=
  match Value.get_default row "Name" JNull with
  | Ok topic =>
      if negb (Py.truthy topic) then
        match _answers_topic JNull row with
        | Ok r => Ok [r]
        | Raise e => Raise e
        end
      else
        match Value.item row "Topics" with
        | Ok topics =>
            match iter_json topics with
            | Ok subrows => map_res (_answers_topic topic) subrows
            | Raise e => Raise e
            end
        | Raise e => Raise e
        end
  | Raise e => Raise e
  end.

(** The loop over the related topics, with what it has appended when a row
    raises lost with the call. *)
Fixpoint _answers_rows (page_data : list Json) : Res (list (gmap string Json)) :=
  match page_data with
  | [] => Ok []
  | row :: page_data' =>
      match _answers_row row with
      | Ok rs =>
          match _answers_rows page_data' with
          | Ok rs' => Ok (rs ++ rs')
          | Raise e => Raise e
          end
      | Raise e => Raise e
      end
  end.

Definition answers (keywords : string) : St DDGS (list (gmap string Json)) :=
  if negb (Py.truthy_str keywords) then raise (AssertionError "keywords is mandatory")
  else
    let payload : gmap string string :=
      {[ "q" := "what is " +:+ keywords; "format" := "json" ]} in
    resp_content <- _get_url "GET" "https://api.duckduckgo.com/" (Some payload) None None ;;
    page_data <- lift (json_loads resp_content) ;;
    answer_text <- lift (Value.get_default page_data "AbstractText" JNull) ;;
    url <- lift (Value.get_default page_data "AbstractURL" JNull) ;;
    let results :=
      if Py.truthy answer_text then [answer JNull answer_text JNull url] else [] in
    let payload : gmap string string := {[ "q" := keywords; "format" := "json" ]} in
    resp_content <- _get_url "GET" "https://api.duckduckgo.com/" (Some payload) None None ;;
    resp_json <- lift (json_loads resp_content) ;;
    page_data <- lift (Value.get_default resp_json "RelatedTopics" (JArr [])) ;;
    page_data <- lift (iter_json page_data) ;;
    related <- lift (_answers_rows page_data) ;;
    ret (results ++ related).

(** *** [DDGS.suggestions] (lines 833-856) *)

Definition suggestions (keywords region : string) : St DDGS (list Json) :=
  if negb (Py.truthy_str keywords) then raise (AssertionError "keywords is mandatory")
  else
    let payload : gmap string string := {[ "q" := keywords; "kl" := region ]} in
    resp_content <- _get_url "GET" "https://duckduckgo.com/ac/" (Some payload) None None ;;
    page_data <- lift (json_loads resp_content) ;;
    lift (iter_json page_data).

(** *** [DDGS.translate] (lines 1047-1098) *)

(** [_translate_keyword] (lines 1077-1086). *)
Definition _translate_keyword (payload : gmap string string) (keyword : string)
    : St DDGS Json :=
  resp_content <- _get_url "POST" "https://duckduckgo.com/translation.js"
                    (Some payload) (Some (encode keyword)) None ;;
  page_data <- lift (json_loads resp_content) ;;
  lift (Value.setitem page_data "original" (JStr keyword)).

Definition translate (sched : list nat) (keywords : Keywords) (from_ : option string)
    (to : string) : St DDGS (list Json) :=
  let given :=
    match keywords with
    | One keyword => Py.truthy_str keyword
    | Many l => match l with [] => false | _ => true end
    end in
  if negb given then raise (AssertionError "keywords is mandatory")
  else
    vqd <- _get_vqd "translate" ;;
    let payload : gmap string string :=
      {[ "vqd" := vqd; "query" := "translate"; "to" := to ]} in
    let payload :=
      if Py.truthy_opt_str from_ then <[ "from" := default "" from_ ]> payload
      else payload in
    let keywords :=
      match keywords with
      | One keyword => [keyword]
      | Many l => l
      end in
    executor_map sched (_translate_keyword payload) keywords.

End MediaSearch.

(** * The life of an instance *)

(** The methods of the embedding, as calls on an instance. *)
Inductive Method : Type :=
  | Call_get_url (method url : string) (params : option (gmap string string))
      (content : option string) (data : option (gmap string string))
  | Call_get_vqd (keywords : string)
  | Call_chat (keywords model : string) (timeout : Z)
  | Call_text (sched : list nat) (keywords region safesearch : string)
      (timelimit : option string) (backend : string) (max_results : option Z)
  | Call_maps_from (sched : list (list nat)) (keywords vqd : string) (start_bbox : BBox)
      (max_results : option Z).

Section Life.
Context `{Client} `{Utils} `{Lxml} `{Places}.

(** The instance after a call, whether the call returned or raised. *)
Definition after (m : Method) (self : DDGS) : DDGS :=
  match m with
  | Call_get_url method url params content data =>
      (_get_url method url params content data self).2
  | Call_get_vqd keywords => (_get_vqd keywords self).2
  | Call_chat keywords model timeout => (chat keywords model timeout self).2
  | Call_text sched keywords region safesearch timelimit backend max_results =>
      (text sched keywords region safesearch timelimit backend max_results self).2
  | Call_maps_from sched keywords vqd start_bbox max_results =>
      (maps_from sched keywords vqd start_bbox max_results self).2
  end.

(** The instance after a sequence of calls. *)
Definition after_all (calls : list Method) (self : DDGS) : DDGS :=
  foldl (λ s m, after m s) self calls.

End Life.

(** A computation keeps a property of the state: it holds afterwards if it
    held before, whether the computation returns or raises. *)
Definition keeps {S A} (P : S → Prop) (m : St S A) : Prop :=
  ∀ s, P s → P (m s).2.

Definition tripped (self : DDGS) : Prop := _exception_event self = true.

(** * Fragments of a chat answer *)

(** An error fragment: [x.get("action") == "error"]. *)
Definition error_fragment (x : list (string * Json)) : Prop :=
  Py.eq_str (Py.assoc "action" x) "error" = true.

(** A fragment that is an object and no error fragment. *)
Definition plain_fragment (v : Json) : Prop :=
  ∃ x, v = JObj x ∧ ¬ error_fragment x.

(** Its status is 429, and its error code ([type], the empty string when
    the fragment has none). *)
Definition status_429 (x : list (string * Json)) : Prop :=
  Py.eq_int (Py.assoc "status" x) 429 = true.

Definition error_code (x : list (string * Json)) : Json :=
  default (JStr "") (Py.assoc "type" x).

(** * The lite table, four rows at a time *)

(** A run of four rows: the row of the link and title, the row of the
    snippet, and two rows that carry nothing. *)
Definition Block : Type := LiteTr * LiteTr * LiteTr * LiteTr.

Definition rows_of_block (b : Block) : list LiteTr :=
  let '(e1, e2, e3, e4) := b in [e1; e2; e3; e4].

(** The table made of a sequence of runs. *)
Fixpoint rows_of_blocks (blocks : list Block) : list LiteTr :=
  match blocks with
  | [] => []
  | b :: blocks' => rows_of_block b ++ rows_of_blocks blocks'
  end.

(** The first row of a run is filtered out: it has no link, its link was
    seen before, or its link is an advertisement or a redirection. *)
Definition lite_filtered (seen : gset string) (e : LiteTr) : bool :=
  match head (tr_a_href e) with
  | Some h => bool_decide (h ∈ seen) || is_ad_link h
  | None => true
  end.

(** The links seen after a sequence of runs. *)
Fixpoint lite_seen (seen : gset string) (blocks : list Block) : gset string :=
  match blocks with
  | [] => seen
  | (e1, _, _, _) :: blocks' =>
      if lite_filtered seen e1 then lite_seen seen blocks'
      else lite_seen ({[ default "" (head (tr_a_href e1)) ]} ∪ seen) blocks'
  end.

Section LiteSpec.
Context `{Utils}.

(** The result of a run that is not filtered out: title and link of its
    first row, snippet of its second. *)
Definition block_result (b : Block) : gmap string string :=
  let '(e1, e2, _, _) := b in
  result (default "" (head (tr_a_text e1))) (default "" (head (tr_a_href e1)))
    (match tr_snippet e2 with [] => "" | _ => Str.strip (Str.join "" (tr_snippet e2)) end).

(** The results of a table read run by run: a filtered run gives nothing,
    any other run gives its result (nothing if its link is empty). *)
Fixpoint lite_results (seen : gset string) (blocks : list Block)
    : list (gmap string string) :=
  match blocks with
  | [] => []
  | b :: blocks' =>
      let '(e1, _, _, _) := b in
      if lite_filtered seen e1 then lite_results seen blocks'
      else
        (if Py.truthy_opt_str (head (tr_a_href e1)) then [block_result b] else [])
        ++ lite_results ({[ default "" (head (tr_a_href e1)) ]} ∪ seen) blocks'
  end.

End LiteSpec.

Definition set_cache (s : gset string) (c : Call) : Call :=
  {| self := self c; cache := s; payload := payload c |}.

(** * Squares *)

(** A point lies in a square. *)
Definition inside (lat lon : Q) (bbox : BBox) : Prop :=
  let '(lat_t, lon_l, lat_b, lon_r) := bbox in
  (lat_b <= lat <= lat_t ∧ lon_l <= lon <= lon_r)%Q.

(** The inner points of a square. *)
Definition strictly_inside (lat lon : Q) (bbox : BBox) : Prop :=
  let '(lat_t, lon_l, lat_b, lon_r) := bbox in
  (lat_b < lat < lat_t ∧ lon_l < lon < lon_r)%Q.

(** North is not south of south, east is not west of west. *)
Definition normal (bbox : BBox) : Prop :=
  let '(lat_t, lon_l, lat_b, lon_r) := bbox in
  (lat_b <= lat_t ∧ lon_l <= lon_r)%Q.

Section Squares.
Context `{Utils}.

(** The diagonal of a square is above the threshold of [maps]. *)
Definition wide (bbox : BBox) : bool :=
  let '(lat_t, lon_l, lat_b, lon_r) := bbox in
  negb (Qle_bool (_calculate_distance lat_t lon_l lat_b lon_r) 1).

End Squares.

(** * The pool, one task after the other *)

(** The order in which [run_tasks] picks among [pending]. *)
Fixpoint pick_order {A} (n : nat) (pending : list A) (sched : list nat) : list A :=
  match n with
  | O => []
  | S n' =>
      let k := (hd 0 sched `mod` length pending)%nat in
      match pending !! k with
      | None => []
      | Some x => x :: pick_order n' (delete k pending) (tl sched)
      end
  end.

(** The tasks of [executor_map sched fn args] in the order they run, each
    with its place in [args]. *)
Definition run_order {A} (sched : list nat) (args : list A) : list (nat * A) :=
  pick_order (length args) (imap (λ i a, (i, a)) args) sched.

(** Tasks run one after the other, in the order of the list. *)
Fixpoint run_in_order {S A B} (fn : A → St S B) (tasks : list (nat * A)) (s : S)
    : list (nat * Res B) * S :=
  match tasks with
  | [] => ([], s)
  | (i, a) :: tasks' =>
      let '(r, s1) := fn a s in
      let '(done, s2) := run_in_order fn tasks' s1 in
      ((i, r) :: done, s2)
  end.

(** * First occurrences *)

Section ApiSpec.
Context `{Utils}.





End ApiSpec.

(** * The wire *)

(** What a computation puts on the wire: the requests that were there stay,
    at most [n] requests follow them, and each of these satisfies [Q].
    [w] reads the wire off the state. *)
Definition emits {S A} (w : S → list Request) (Q : Request → Prop) (n : nat)
    (m : St S A) : Prop :=
  ∀ s, ∃ reqs, w (m s).2 = w s ++ reqs ∧ (length reqs ≤ n)%nat ∧ Forall Q reqs.

(** An answer other than a response of status 200. *)
Definition refused (out : Outcome) : Prop :=
  match out with
  | Responded resp => status_code resp ≠ 200%Z
  | Failed _ _ => True
  end.

Section WireSpec.
Context `{Client}.

(** One of the requests sent after the first [n] was refused. *)
Definition refused_since (n : nat) (d : DDGS) : Prop :=
  ∃ w req rest,
    wire d = w ++ req :: rest ∧ (n ≤ length w)%nat ∧ refused (client_request w req).

(** The wire holds its first [n] requests, and an instance that has tripped
    has tripped on a request sent after them. *)
Definition trip_explained (n : nat) (d : DDGS) : Prop :=
  (n ≤ length (wire d))%nat ∧ (_exception_event d = true → refused_since n d).

End WireSpec.

(** * Squares and the rounding of the context *)

(** The sides of a square are further apart than the rounding of their
    middle can reach: by [2 * 10^-27] times their sum, north from south and
    east from west. *)
Definition separated (bbox : BBox) : Prop :=
  let '(lat_t, lon_l, lat_b, lon_r) := bbox in
  (Qabs (lat_t + lat_b) * (2 # 10 ^ 27) <= lat_t - lat_b ∧
   Qabs (lon_l + lon_r) * (2 # 10 ^ 27) <= lon_r - lon_l)%Q.

(** A square one unit of the 28th digit high, just south of 60 N. *)
Definition thin_square : BBox :=
  (5999999999999999999999999999 # 10 ^ 26, 0,
   5999999999999999999999999998 # 10 ^ 26, 1)%Q.

(** The endpoint of the token and the three endpoints of a text search. *)
Definition text_endpoints : list string :=
  [ "https://duckduckgo.com"; "https://links.duckduckgo.com/d.js";
    "https://html.duckduckgo.com/html"; "https://lite.duckduckgo.com/lite/" ].

(** * The html page, link by link *)

(** The link of an element of the html page, if the loop can keep it: the
    first [./a/@href], unless it is missing, empty, or an advertisement or
    a redirection. *)
Definition html_key (e : HtmlDiv) : option string :=
  match head (div_a_href e) with
  | Some href => if Py.truthy_str href && negb (is_ad_link href) then Some href else None
  | None => None
  end.

(** Of the elements that have a link, the first with each link not [seen]
    before, in the order of the page. *)
Fixpoint html_kept (seen : gset string) (elements : list HtmlDiv) : list HtmlDiv :=
  match elements with
  | [] => []
  | e :: elements' =>
      match html_key e with
      | Some k =>
          if decide (k ∈ seen) then html_kept seen elements'
          else e :: html_kept ({[ k ]} ∪ seen) elements'
      | None => html_kept seen elements'
      end
  end.

(** The links seen after the elements. *)
Fixpoint html_seen (seen : gset string) (elements : list HtmlDiv) : gset string :=
  match elements with
  | [] => seen
  | e :: elements' =>
      match html_key e with
      | Some k =>
          if decide (k ∈ seen) then html_seen seen elements'
          else html_seen ({[ k ]} ∪ seen) elements'
      | None => html_seen seen elements'
      end
  end.

Section HtmlSpec.
Context `{Utils}.

(** The result of an element that is kept (lines 385-397). *)
Definition html_result (e : HtmlDiv) : gmap string string :=
  result (default "" (head (div_h2_a_text e))) (default "" (head (div_a_href e)))
    (Str.join "" (div_a_text e)).

End HtmlSpec.

(** * The messages of a chat answer *)

(** The message a fragment carries, if it is an object with a [message]
    that is not empty. *)
Definition fragment_message (v : Json) : option Json :=
  match v with
  | JObj x =>
      match Py.assoc "message" x with
      | Some message => if Py.truthy message then Some message else None
      | None => None
      end
  | _ => None
  end.

(** * Searches that answer in JSON *)

(** The identity of a value that has a hash: two such values are equal for
    Python exactly when they have the same identity. *)
Inductive Identity : Type :=
  | INone
  | INumber (num den : Z)
  | IString (s : string).

Definition identity (v : Json) : option Identity :=
  match v with
  | JNull => Some INone
  | JStr s => Some (IString s)
  | _ =>
      match Value.number v with
      | Some q => Some (INumber (Qnum (Qred q)) (Zpos (Qden (Qred q))))
      | None => None
      end
  end.

(** The content signature of a row of a videos page ([JNull] for a row
    that has none). *)
Definition content_of (row : Json) : Json :=
  match Value.item row "content" with
  | Ok k => k
  | Raise _ => JNull
  end.

(** The endpoints of the searches that answer in JSON, after the endpoint
    of the token. *)
Definition images_endpoints : list string :=
  [ "https://duckduckgo.com"; "https://duckduckgo.com/i.js" ].
Definition videos_endpoints : list string :=
  [ "https://duckduckgo.com"; "https://duckduckgo.com/v.js" ].
Definition news_endpoints : list string :=
  [ "https://duckduckgo.com"; "https://duckduckgo.com/news.js" ].
Definition translate_endpoints : list string :=
  [ "https://duckduckgo.com"; "https://duckduckgo.com/translation.js" ].

(** The request for the token of a query. *)
Definition vqd_request (keywords : string) : Request :=
  {| method := "POST"; url := "https://duckduckgo.com"; params := None; content := None;
     data := Some {[ "q" := keywords ]}; headers := None; json := None; timeout := None |}.

(** The parameters of the requests of [translate] with the token [vqd]
    (lines 1069-1075), and the request for one keyword. *)
Definition translate_payload (vqd : string) (from_ : option string) (to : string)
    : gmap string string :=
  let payload : gmap string string :=
    {[ "vqd" := vqd; "query" := "translate"; "to" := to ]} in
  if Py.truthy_opt_str from_ then <[ "from" := default "" from_ ]> payload else payload.

Definition translate_request (payload : gmap string string) (keyword : string) : Request :=
  {| method := "POST"; url := "https://duckduckgo.com/translation.js";
     params := Some payload; content := Some (encode keyword); data := None;
     headers := None; json := None; timeout := None |}.

(** The keywords of a call of [translate], as a list. *)
Definition keywords_list (keywords : Keywords) : list string :=
  match keywords with
  | One keyword => [keyword]
  | Many l => l
  end.

Section MediaSpec.
Context `{Client} `{Utils}.

(** A page of [images], [videos] or [news]: the three page functions are
    this text, each with its endpoint and its loop body. *)
Definition media_page {R} (endpoint : string) (row : Json → St Media.Call (list R)) (s : Z)
    : St Media.Call (list R) :=
  modify (Media.payload_set "s" (pretty s)) ;;;
  c <- get ;;
  resp_content <- Media.on_self (_get_url "GET" endpoint (Some (Media.payload c)) None None) ;;
  resp_json <- lift (json_loads resp_content) ;;
  page_data <- lift (results_of resp_json) ;;
  for_each row page_data.

End MediaSpec.

(** A cache in order: its members have a hash and differ from one
    another. *)
Definition cache_ok (cache : list Json) : Prop :=
  Forall (λ k, Value.hashable k = true) cache ∧ NoDup (identity <$> cache).

(** A row of a videos page with a content signature that has a hash. *)
Definition signed (row : Json) : Prop :=
  Value.item row "content" = Ok (content_of row) ∧ Value.hashable (content_of row) = true.

(** A computation on the locals of [videos] that keeps the cache in order
    and, when it returns rows, has put their content signatures into the
    cache, each for itself. *)
Definition caches_contents (m : St Media.Call (list Json)) : Prop :=
  ∀ c, cache_ok (Media.cache c) →
    cache_ok (Media.cache (m c).2) ∧
    match (m c).1 with
    | Ok rows =>
        (content_of <$> rows) ++ Media.cache c ⊆+ Media.cache (m c).2 ∧ Forall signed rows
    | Raise _ => Media.cache c ⊆+ Media.cache (m c).2
    end.

(** The icon of a related topic is a string: empty, or an address at
    duckduckgo.com. *)
Definition related_icon (r : gmap string Json) : Prop :=
  ∃ icon, r !! "icon" = Some (JStr icon) ∧
          (icon = "" ∨ Py.startswith "https://duckduckgo.com" icon = true).

Section AnswersSpec.
Context `{Values}.

(** The abstract of a decoded answer: one result, with neither icon nor
    topic, when the answer has an [AbstractText] that counts as true;
    none otherwise. *)
Definition abstract_of (page : Json) (abstract : list (gmap string Json)) : Prop :=
  ∃ text url,
    Value.get_default page "AbstractText" JNull = Ok text ∧
    Value.get_default page "AbstractURL" JNull = Ok url ∧
    abstract
    = if Py.truthy text
      then [ ({[ "icon" := JNull; "text" := text; "topic" := JNull; "url" := url ]}
               : gmap string Json) ]
      else [].

(** The result [r] of a topic [row] listed under [topic] (the name of its
    group, or [None]): the text and the address of the row, and its icon
    made an address at duckduckgo.com, or the empty string when the row
    has none. *)
Definition topic_result (topic row : Json) (r : gmap string Json) : Prop :=
  ∃ row_icon icon text url,
    Value.item row "Icon" = Ok row_icon ∧
    Value.get_default row_icon "URL" JNull = Ok icon ∧
    Value.item row "Text" = Ok text ∧
    Value.item row "FirstURL" = Ok url ∧
    r = {[ "icon" := if Py.truthy icon
                     then JStr ("https://duckduckgo.com" +:+ format icon) else JStr "";
           "text" := text; "topic" := topic; "url" := url ]}.

(** The results of a row of the related topics: the row itself when it
    has no name, the topics of the group it names otherwise. *)
Definition related_of_row (row : Json) (rs : list (gmap string Json)) : Prop :=
  ∃ name,
    Value.get_default row "Name" JNull = Ok name ∧
    if Py.truthy name
    then ∃ topics subrows,
           Value.item row "Topics" = Ok topics ∧ iter_json topics = Ok subrows ∧
           Forall2 (topic_result name) subrows rs
    else ∃ r, rs = [r] ∧ topic_result JNull row r.

End AnswersSpec.

(** A request of [answers] for the query [q]. *)
Definition answers_request (q : string) : Request :=
  {| method := "GET"; url := "https://api.duckduckgo.com/";
     params := Some {[ "q" := q; "format" := "json" ]}; content := None; data := None;
     headers := None; json := None; timeout := None |}.

(** * A text search, end to end *)

Section TextSpec.
Context `{Client} `{Utils} `{Lxml}.

(** The backend a search runs on (lines 226-228): without the HTML parser
    every search goes to the api backend. *)
Definition effective_backend (backend : string) : string :=
  if negb LXML_AVAILABLE && negb (bool_decide (backend = "api")) then "api" else backend.

(** The page function of a backend. *)
Definition text_page (backend keywords : string) : Z → St Call (list (gmap string string)) :=
  if decide (backend = "api") then _text_api_page keywords
  else if decide (backend = "html") then _text_html_page
  else _text_lite_page.

(** What a search does before its pages (lines 263-286, 345-360 and
    435-447): it refuses empty keywords, asks for the token where the
    backend sends one, and makes the payload that its pages share. *)
Definition text_payload (backend keywords region safesearch : string)
    (timelimit : option string) (max_results : option Z) : St DDGS (gmap string string) :=
  if negb (Py.truthy_str keywords) then raise (AssertionError "keywords is mandatory")
  else if decide (backend = "api") then
    vqd <- _get_vqd keywords ;;
    let payload : gmap string string :=
      {[ "q" := keywords; "kl" := region; "l" := region; "p" := ""; "s" := "0";
         "df" := ""; "vqd" := vqd;
         "bing_market" := Py.slice_from 3 region +:+ "-" +:+ Py.upper (Py.slice_to 2 region);
         "ex" := "" ]} in
    let safesearch := Py.lower safesearch in
    let payload :=
      if decide (safesearch = "moderate") then <[ "ex" := "-1" ]> payload
      else if decide (safesearch = "off") then <[ "ex" := "-2" ]> payload
      else if decide (safesearch = "on") then <[ "p" := "1" ]> payload
      else payload in
    ret (if Py.truthy_opt_str timelimit then <[ "df" := default "" timelimit ]> payload
         else payload)
  else
    let payload : gmap string string :=
      {[ "q" := keywords; "s" := "0"; "o" := "json"; "api" := "d.js"; "vqd" := "";
         "kl" := region; "bing_market" := region ]} in
    let payload :=
      if Py.truthy_opt_str timelimit then <[ "df" := default "" timelimit ]> payload
      else payload in
    if decide (backend = "html") then
      if Py.truthy_int max_results && (20 <? default 0 max_results)%Z then
        vqd <- _get_vqd keywords ;; ret (<[ "vqd" := vqd ]> payload)
      else ret payload
    else ret payload.

(** The cut at the end of a search: the first [max_results] entries, at
    most 2023; all of them without [max_results]. *)
Definition text_cut {R} (max_results : option Z) (results : list R) : list R :=
  match max_results with
  | Some N => take (Z.to_nat (Z.min N 2023)) results
  | None => results
  end.


End TextSpec.

(** * A small world for the examples

    One implementation of the interfaces, on which the statements below are
    run: a network that answers by URL, and helpers that decode its few
    bodies. *)

Module World.

Definition dq : string := String (Ascii.ascii_of_nat 34) EmptyString.

Definition response (status : Z) (body : string) (hdrs : gmap string string) (u : string)
    : Outcome :=
  Responded {| resp_url := u; status_code := status; resp_content := body;
               resp_headers := hdrs |}.

(** The offset [s] of a page request, wherever it travels. *)
Definition offset_of (req : Request) : string :=
  match default ∅ (params req) !! "s" with
  | Some s => s
  | None => default "" (default ∅ (data req) !! "s")
  end.

Definition quoted (s : string) : string := dq +:+ s +:+ dq.

(** The chat stream of a conversation that hit its limit, and the one
    fragment in it. *)
Definition limit_fragment : string :=
  "{" +:+ quoted "action" +:+ ":" +:+ quoted "error" +:+ ","
  +:+ quoted "status" +:+ ":429,"
  +:+ quoted "type" +:+ ":" +:+ quoted "ERR_CONVERSATION_LIMIT" +:+ "}".

Definition limit_stream : string :=
  "data: " +:+ limit_fragment +:+ Str.LF +:+ Str.LF +:+ "data: [DONE]" +:+ Str.LF.

Definition route (req : Request) : Outcome :=
  let u := url req in
  if decide (u = "https://duckduckgo.com") then response 200 "vqd=4-1" ∅ u
  else if decide (u = "https://links.duckduckgo.com/d.js") then
    response 200 ("api page " +:+ offset_of req) ∅ u
  else if decide (u = "https://html.duckduckgo.com/html") then
    response 200 ("html page " +:+ offset_of req) ∅ u
  else if decide (u = "https://lite.duckduckgo.com/lite/") then
    response 200 ("lite page " +:+ offset_of req) ∅ u
  else if decide (u = "https://duckduckgo.com/local.js") then
    response 200 ("places " +:+ default "" (default ∅ (params req) !! "bbox_tl")) ∅ u
  else if decide (u = "https://duckduckgo.com/duckchat/v1/status") then
    response 200 "" {[ "x-vqd-4" := "token-1" ]} u
  else if decide (u = "https://duckduckgo.com/duckchat/v1/chat") then
    response 200 limit_stream {[ "x-vqd-4" := "token-2" ]} u
  else if decide (u = "https://blocked.example") then response 403 "" ∅ u
  else Failed "ConnectError" "operation timed out".

#[export] Instance client : Client := {| client_request := λ _ req, route req |}.

Definition row (u t a : string) : gmap string string :=
  {[ "u" := u; "t" := t; "a" := a ]}.

(** Offset 0 has two results; offset 23 repeats the second of them under
    another title; offset 73 has one link twice, first without a body. *)
Definition api_rows (body : string) : list (gmap string string) :=
  if decide (body = "api page 0") then
    [row "https://a.example" "A" "about a"; row "https://b.example" "B" "about b"]
  else if decide (body = "api page 23") then
    [row "https://b.example" "B again" "more about b"; row "https://c.example" "C" "about c"]
  else if decide (body = "api page 73") then
    [row "https://d.example" "D" ""; row "https://d.example" "D again" "about d"]
  else [].


(** The titles of a list of results. *)
Definition titles (r : Res (list (gmap string string))) : Res (list (option string)) :=
  match r with
  | Ok l => Ok ((λ d : gmap string string, d !! "title") <$> l)
  | Raise e => Raise e
  end.

(** The locals of a search that starts on a fresh instance. *)
Definition fresh : Call := {| self := __init__; cache := ∅; payload := ∅ |}.

(** The decoder knows the chat fragment above, and reads the body of a
    places page as one place named after the page. *)
Definition decode (s : string) : Res Json :=
  if decide (s = "[" +:+ limit_fragment +:+ "]")
  then Ok (JArr [JObj [("action", JStr "error"); ("status", JInt 429);
                       ("type", JStr "ERR_CONVERSATION_LIMIT")]])
  else if Py.startswith "places " s
  then Ok (JObj [("results", JArr [JObj [("name", JStr s); ("address", JStr "")]])])
  else Raise (ForeignError "JSONDecodeError" s).

(** Modelled from the spec: [_calculate_distance] of [utils.py], which the
    spec calls the diagonal span of a box and measures against a threshold
    of about one degree.  This is the square of that span, the sum of the
    squares of the sides in degrees; against the threshold 1 the square
    decides as the span does. *)
Definition span2 (lat1 lon1 lat2 lon2 : Q) : Q :=
  (lat1 - lat2) * (lat1 - lat2) + (lon1 - lon2) * (lon1 - lon2).

(** Modelled from the spec: the helpers of [utils.py].  The token is what
    follows [vqd=] in the body; the normalisers, which collapse white space,
    decode entities and unwrap redirections, change nothing on the plain
    text and plain links of the examples; a body decodes to the rows and the
    JSON values listed above. *)
#[export] Instance utils : Utils :=
  {| _extract_vqd := λ body _,
       if Py.startswith "vqd=" body then Ok (Py.slice_from 4 body)
       else Raise (ForeignError "DuckDuckGoSearchException" "_extract_vqd() could not extract vqd.");
     _normalize := λ s, s;
     _normalize_url := λ s, s;
     _text_extract_json := λ body _, Ok (api_rows body);
     json_loads := decode;
     _calculate_distance := span2;
     repr_dict := λ _, "{...}";
     repr_bytes := λ _, "b'...'";
     str_Decimal := λ q, pretty (Qnum q) +:+ "/" +:+ pretty (Zpos (Qden q)) |}.

Definition tr (hrefs texts snippet : list string) : LiteTr :=
  {| tr_a_href := hrefs; tr_a_text := texts; tr_snippet := snippet |}.

(** A lite table of two results: an advertisement, then a page. *)
Definition lite_table : list LiteTr :=
  [ tr ["https://duckduckgo.com/y.js?ad_domain=shop.example"] ["Buy cats"] [];
    tr [] [] ["Cats for sale"];
    tr [] [] [];
    tr [] [] [];
    tr ["https://cats.example"] ["All about cats"] [];
    tr [] [] ["  Everything on cats. "];
    tr [] [] [];
    tr [] [] [] ].

Definition div (hrefs titles texts : list string) : HtmlDiv :=
  {| div_a_href := hrefs; div_h2_a_text := titles; div_a_text := texts |}.

#[export] Instance lxml : Lxml :=
  {| LXML_AVAILABLE := true;
     html_divs := λ body,
       if decide (body = "html page 0")
       then Ok [div ["https://cats.example"] ["All about cats"] ["Everything "; "on cats."]]
       else Ok [];
     lite_trs := λ body,
       if decide (body = "lite page 0") then Ok lite_table else Ok [] |}.

Definition field (k : string) (res : Json) : Res Json :=
  match res with
  | JObj fields =>
      match Py.assoc k fields with
      | Some v => Ok v
      | None => Raise (KeyError k)
      end
  | _ => Raise (TypeError "string indices must be integers")
  end.

#[export] Instance places : Places :=
  {| place_key := λ res,
       match field "name" res, field "address" res with
       | Ok (JStr name), Ok (JStr address) => Ok (name +:+ " " +:+ address)
       | Raise e, _ | _, Raise e => Raise e
       | _, _ => Raise (TypeError "the examples name places by strings")
       end;
     place_record := λ res,
       match field "name" res, field "address" res with
       | Ok name, Ok address => Ok {[ "title" := name; "address" := address ]}
       | Raise e, _ | _, Raise e => Raise e
       end |}.

(** The square between the equator and 1 N, Greenwich and 1 E, and its
    north-west quadrant. *)
Definition unit_square : BBox := (1, 0, 0, 1)%Q.
Definition north_west : BBox :=
  (1, 0, Decimal.div (Decimal.add 1 0) 2, Decimal.div (Decimal.add 0 1) 2)%Q.

(** The two runs of the example table. *)
Definition lite_blocks : list Block :=
  [ (tr ["https://duckduckgo.com/y.js?ad_domain=shop.example"] ["Buy cats"] [],
     tr [] [] ["Cats for sale"], tr [] [] [], tr [] [] []);
    (tr ["https://cats.example"] ["All about cats"] [],
     tr [] [] ["  Everything on cats. "], tr [] [] [], tr [] [] []) ].

(** The error fragment of the example stream. *)
Definition limit_reached : list (string * Json) :=
  [("action", JStr "error"); ("status", JInt 429); ("type", JStr "ERR_CONVERSATION_LIMIT")].

End World.

(** * A second world: the answers in JSON, and a chat that goes well

    The network of the first world with four more endpoints, a chat that
    answers in two messages, and a decoder for their bodies. *)

Module Replies.

(** A fragment of a chat answer that carries a message. *)
Definition message_fragment (s : string) : string :=
  "{" +:+ World.quoted "message" +:+ ":" +:+ World.quoted s +:+ "}".

Definition chat_stream : string :=
  "data: " +:+ message_fragment "Hel" +:+ Str.LF +:+ Str.LF
  +:+ "data: " +:+ message_fragment "lo" +:+ Str.LF +:+ Str.LF
  +:+ "data: [DONE]" +:+ Str.LF.

Definition route (req : Request) : Outcome :=
  let u := url req in
  if decide (u = "https://duckduckgo.com/duckchat/v1/chat") then
    World.response 200 chat_stream {[ "x-vqd-4" := "token-2" ]} u
  else if decide (u = "https://duckduckgo.com/v.js") then
    World.response 200 ("videos page " +:+ World.offset_of req) ∅ u
  else if decide (u = "https://duckduckgo.com/translation.js") then
    World.response 200 ("translated " +:+ default "" (content req)) ∅ u
  else if decide (u = "https://api.duckduckgo.com/") then
    World.response 200 ("answer " +:+ default "" (default ∅ (params req) !! "q")) ∅ u
  else World.route req.

#[export] Instance client : Client := {| client_request := λ _ req, route req |}.

(** The network that answers two requests and turns every later one away
    with status 202. *)
Definition limited : Client :=
  {| client_request := λ w req,
       if (length w <? 2)%nat then World.route req
       else World.response 202 "" ∅ (url req) |}.

Definition video (content : Json) (title : string) : Json :=
  JObj [("content", content); ("title", JStr title)].

(** The page at offset 0 has three videos; the page at offset 60 repeats
    the first, has the number of the second as a float and as a truth
    value, and one video more. *)
Definition videos_rows (body : string) : list Json :=
  if decide (body = "videos page 0") then
    [video (JStr "a") "A"; video (JInt 1) "One"; video JNull "None"]
  else if decide (body = "videos page 60") then
    [video (JStr "a") "A again"; video (JFloat 1) "One point zero";
     video (JBool true) "True"; video (JStr "c") "C"]
  else [].

Definition topic (icon text url : string) : Json :=
  JObj [("Icon", JObj [("URL", JStr icon)]); ("Text", JStr text); ("FirstURL", JStr url)].

Definition decode (s : string) : Res Json :=
  if decide (s = "[" +:+ message_fragment "Hel" +:+ "," +:+ message_fragment "lo" +:+ "]")
  then Ok (JArr [JObj [("message", JStr "Hel")]; JObj [("message", JStr "lo")]])
  else if Py.startswith "videos page " s then Ok (JObj [("results", JArr (videos_rows s))])
  else if Py.startswith "translated " s then
    Ok (JObj [("detected_language", JStr "de"); ("original", JStr "stale");
              ("translated", JStr (Py.upper (Py.slice_from 11 s)))])
  else if decide (s = "answer what is cats") then
    Ok (JObj [("AbstractText", JStr "Cats are small carnivores.");
              ("AbstractURL", JStr "https://cats.example")])
  else if decide (s = "answer cats") then
    Ok (JObj [("RelatedTopics",
               JArr [topic "/i/cat.png" "Cat" "https://duckduckgo.com/Cat";
                     JObj [("Name", JStr "Breeds");
                           ("Topics", JArr [topic "" "Siamese"
                                              "https://duckduckgo.com/Siamese"])]])])
  else World.decode s.

(** Modelled from the spec: the helpers of [utils.py], as in the first
    world, with the decoder above for the bodies of this one. *)
#[export] Instance utils : Utils :=
  {| _extract_vqd := @_extract_vqd World.utils;
     _normalize := λ s, s;
     _normalize_url := λ s, s;
     _text_extract_json := λ body _, Ok (World.api_rows body);
     json_loads := decode;
     _calculate_distance := World.span2;
     repr_dict := λ _, "{...}";
     repr_bytes := λ _, "b'...'";
     str_Decimal := @str_Decimal World.utils |}.

(** The examples ask the helpers about strings only; a value that is no
    string is refused. *)
#[export] Instance values : Values :=
  {| _normalize_value := λ _, Raise (ForeignError "TypeError" "expected str");
     _normalize_url_value := λ _, Raise (ForeignError "TypeError" "expected str");
     format_value := λ _, "";
     fromtimestamp_isoformat := λ _, Raise (ForeignError "TypeError" "expected a number") |}.

(** Modelled from the spec: a normaliser of links that removes the
    wrapper of a tracking redirector, with a page at offset 0 that carries
    one link twice, bare and wrapped.  The other helpers are those of the
    first world. *)
Definition wrapper : string := "https://duckduckgo.com/l/?uddg=".

Definition unwrap (url : string) : string :=
  if Py.startswith wrapper url then Py.slice_from (String.length wrapper) url else url.

Definition wrapped_rows (body : string) : list (gmap string string) :=
  if decide (body = "api page 0") then
    [World.row "https://a.example" "A" "about a";
     World.row (wrapper +:+ "https://a.example") "A, wrapped" "about a"]
  else [].

Definition unwrapping : Utils :=
  {| _extract_vqd := @_extract_vqd World.utils;
     _normalize := λ s, s;
     _normalize_url := unwrap;
     _text_extract_json := λ body _, Ok (wrapped_rows body);
     json_loads := World.decode;
     _calculate_distance := World.span2;
     repr_dict := λ _, "{...}";
     repr_bytes := λ _, "b'...'";
     str_Decimal := @str_Decimal World.utils |}.

(** The links of a list of results. *)
Definition hrefs (r : Res (list (gmap string string))) : Res (list (option string)) :=
  match r with
  | Ok l => Ok ((λ d : gmap string string, d !! "href") <$> l)
  | Raise e => Raise e
  end.

(** The calls of the examples, on a fresh instance unless it says so. *)
Definition tripped_instance : DDGS := set_exception_event __init__.

Definition in_session : DDGS := set_chat_vqd "token-1" __init__.

Definition search_videos : Res (list Json) * DDGS :=
  videos [1%nat] "cats" "wt-wt" "moderate" None None None None (Some 100%Z) __init__.

Definition translate_words : Res (list Json) * DDGS :=
  translate [1%nat] (Many ["katze"; "hund"]) None "en" __init__.

Definition ask_cats : Res (list (gmap string Json)) * DDGS := answers "cats" __init__.

Definition say_hi : Res string * DDGS := chat "hi" "gpt-4o-mini" 30%Z __init__.

Definition strict_images : Res (list (gmap string Json)) * DDGS :=
  images [] "cats" "wt-wt" "Strict" None None None None None None (Some 10%Z) __init__.

Definition suggest_tripped : Res (list Json) * DDGS :=
  suggestions "cats" "wt-wt" tripped_instance.

Definition translate_nothing : Res (list Json) * DDGS :=
  translate [] (Many []) None "en" __init__.

Definition search_limited : Res (list (gmap string string)) * DDGS :=
  @text limited World.utils World.lxml [] "cats" "wt-wt" "moderate" None "api"
    (Some 100%Z) __init__.

Definition search_wrapped : Res (list (gmap string string)) * DDGS :=
  @text World.client unwrapping World.lxml [] "cats" "wt-wt" "moderate" None "api" None
    __init__.

End Replies.

(** * Properties *)

(** ** Page offsets *)

Lemma range_length_lt (first stop step : Z) (k : nat) :
  (0 < step)%Z →
  (k < Z.to_nat ((stop - first + step - 1) / step))%nat ↔ (first + Z.of_nat k * step < stop)%Z.
Proof.
  intros Hstep. split.
  - intros Hk.
    assert (Z.of_nat k + 1 <= (stop - first + step - 1) / step)%Z as Hq by lia.
    assert (step * ((stop - first + step - 1) / step) <= stop - first + step - 1)%Z
      by (apply Z.mul_div_le; lia).
    nia.
  - intros Hlt.
    assert (Z.of_nat k + 1 <= (stop - first + step - 1) / step)%Z; [|lia].
    apply Z.div_le_lower_bound; lia.
Qed.

Lemma elem_of_range (first stop step x : Z) :
  (0 < step)%Z →
  x ∈ Py.range first stop step ↔
  ∃ k : Z, (0 <= k)%Z ∧ x = (first + k * step)%Z ∧ (x < stop)%Z.
Proof.
  intros Hstep. unfold Py.range. rewrite list_elem_of_fmap. split.
  - intros (k & -> & Hk). apply elem_of_seq in Hk.
    exists (Z.of_nat k). split; [lia|]. split; [done|].
    apply range_length_lt; [done|lia].
  - intros (k & Hk & -> & Hlt). exists (Z.to_nat k).
    rewrite Z2Nat.id by done. split; [done|].
    apply elem_of_seq. split; [lia|]. simpl.
    apply range_length_lt; [done|]. rewrite Z2Nat.id by done. done.
Qed.

Lemma slist_of_unset (ceiling first stride : Z) :
  slist_of ceiling first stride None = ([0%Z], None).
Proof. reflexivity. Qed.

Lemma slist_of_given (ceiling first stride N : Z) :
  (0 < first)%Z → (0 < stride)%Z →
  slist_of ceiling first stride (Some N)
  = (0%Z :: Py.range first (Z.min N ceiling) stride,
     Some (if decide (N = 0%Z) then 0%Z else Z.min N ceiling)).
Proof.
  intros Hfirst Hstride. unfold slist_of. simpl.
  destruct (decide (N = 0%Z)) as [->|Hne]; simpl.
  - replace (Py.range first (Z.min 0 ceiling) stride) with (@nil Z); [done|].
    unfold Py.range. 
    replace (Z.to_nat ((Z.min 0 ceiling - first + stride - 1) / stride)) with 0%nat; [done|].
    assert ((Z.min 0 ceiling - first + stride - 1) / stride < 1)%Z; [|lia].
    apply Z.div_lt_upper_bound; lia.
  - destruct (N =? 0)%Z eqn:E; [lia|]. done.
Qed.

Lemma range_sorted (first stop step : Z) :
  (0 < step)%Z → StronglySorted Z.lt (Py.range first stop step).
Proof.
  intros Hstep. unfold Py.range.
  generalize (Z.to_nat ((stop - first + step - 1) / step)) as n.
  generalize 0%nat as a. intros a n. revert a.
  induction n as [|n IH]; intros a; simpl; constructor.
  - apply IH.
  - apply Forall_forall. intros y Hy.
    apply list_elem_of_fmap in Hy as (k & -> & Hk). apply elem_of_seq in Hk. nia.
Qed.

Lemma slist_of_sorted (ceiling first stride : Z) (max_results : option Z) :
  (0 < first)%Z → (0 < stride)%Z →
  StronglySorted Z.lt (slist_of ceiling first stride max_results).1.
Proof.
  intros Hfirst Hstride. unfold slist_of.
  destruct (Py.truthy_int max_results); simpl.
  - constructor; [by apply range_sorted|].
    apply Forall_forall. intros y Hy. apply elem_of_range in Hy as (k & ? & -> & _); [nia|done].
  - repeat constructor.
Qed.

Lemma slist_of_elem (ceiling first stride N x : Z) :
  (0 < first)%Z → (0 < stride)%Z →
  x ∈ (slist_of ceiling first stride (Some N)).1 ↔
  x = 0%Z ∨ ∃ k : Z, (0 <= k)%Z ∧ x = (first + k * stride)%Z ∧ (x < Z.min N ceiling)%Z.
Proof.
  intros Hfirst Hstride. rewrite slist_of_given by done. simpl.
  rewrite elem_of_cons, elem_of_range by done. done.
Qed.

(** C3.  The page offsets of every paginated search start with [0], whatever
    [max_results] is; they are in increasing order; and for a given
    [max_results = N] the further offsets are exactly the numbers
    [first + k * stride] below [min(N, ceiling)], with ceiling 2023, first
    offset 23 and stride 50 for text, 500/100/100 for images, 400/60/60 for
    videos and 120/30/30 for news, while [max_results] itself is cut down to
    [min(N, ceiling)] (a [max_results] of [None] stays [None]). *)
Theorem slist_offsets (m : option Z) (N x : Z) :
  (head (text_slist m).1 = Some 0%Z ∧ head (images_slist m).1 = Some 0%Z ∧
   head (videos_slist m).1 = Some 0%Z ∧ head (news_slist m).1 = Some 0%Z) ∧
  (StronglySorted Z.lt (text_slist m).1 ∧ StronglySorted Z.lt (images_slist m).1 ∧
   StronglySorted Z.lt (videos_slist m).1 ∧ StronglySorted Z.lt (news_slist m).1) ∧
  (text_slist None = ([0%Z], None) ∧ images_slist None = ([0%Z], None) ∧
   videos_slist None = ([0%Z], None) ∧ news_slist None = ([0%Z], None)) ∧
  ((text_slist (Some N)).2 = Some (Z.min N 2023) ∧
   (images_slist (Some N)).2 = Some (Z.min N 500) ∧
   (videos_slist (Some N)).2 = Some (Z.min N 400) ∧
   (news_slist (Some N)).2 = Some (Z.min N 120)) ∧
  (x ∈ (text_slist (Some N)).1 ↔
     x = 0%Z ∨ ∃ k : Z, (0 <= k)%Z ∧ x = (23 + k * 50)%Z ∧ (x < Z.min N 2023)%Z) ∧
  (x ∈ (images_slist (Some N)).1 ↔
     x = 0%Z ∨ ∃ k : Z, (0 <= k)%Z ∧ x = (100 + k * 100)%Z ∧ (x < Z.min N 500)%Z) ∧
  (x ∈ (videos_slist (Some N)).1 ↔
     x = 0%Z ∨ ∃ k : Z, (0 <= k)%Z ∧ x = (60 + k * 60)%Z ∧ (x < Z.min N 400)%Z) ∧
  (x ∈ (news_slist (Some N)).1 ↔
     x = 0%Z ∨ ∃ k : Z, (0 <= k)%Z ∧ x = (30 + k * 30)%Z ∧ (x < Z.min N 120)%Z).
Proof.
  unfold text_slist, images_slist, videos_slist, news_slist.
  split; [|split; [|split; [|split]]].
  - unfold slist_of. destruct (Py.truthy_int m); done.
  - repeat split; apply slist_of_sorted; lia.
  - done.
  - rewrite !slist_of_given by lia. simpl.
    destruct (decide (N = 0%Z)) as [->|]; done.
  - repeat split; try (apply slist_of_elem; lia); apply slist_of_elem; lia.
Qed.


(** ** The transport *)

(** Membership of a status code in a literal tuple. *)
Ltac status_tuple :=
  repeat match goal with
         | H : context [_ ∈ _ :: _] |- _ => rewrite elem_of_cons in H
         | H : context [_ ∈ []] |- _ => rewrite elem_of_nil in H
         | |- context [_ ∈ _ :: _] => rewrite elem_of_cons
         | |- context [_ ∈ []] => rewrite elem_of_nil
         end; lia.

Section TransportProps.
Context `{Client} `{Utils}.

(** A call on a tripped instance: the error of the previous call, the
    instance as it was, nothing on the wire. *)
Lemma _get_url_tripped (self : DDGS) method url params content data :
  _exception_event self = true →
  _get_url method url params content data self
  = (Raise (DuckDuckGoSearchException (JStr "Exception occurred in previous call.")), self).
Proof. intros Hset. unfold _get_url, bind, get, raise. simpl. by rewrite Hset. Qed.

(** C5.  On an instance that has not tripped, [_get_url] puts the request
    on the wire and: returns a body exactly when the answer has status
    200, and then the body of the answer; raises the rate-limit error
    exactly when the status is 202, 301 or 403; raises the timeout error
    exactly when the client itself raised with a text that contains
    [time] once in lower case; raises the general error exactly in the
    remaining cases (another status, another client failure); and whenever
    it raises, the instance has tripped. *)
Theorem _get_url_outcomes (self : DDGS) method url params content data :
  _exception_event self = false →
  let req := {| method := method; url := url; params := params; content := content;
                data := data; headers := None; json := None; timeout := None |} in
  let out := client_request (wire self) req in
  let r := (_get_url method url params content data self).1 in
  let self' := (_get_url method url params content data self).2 in
  wire self' = wire self ++ [req] ∧
  (∀ body, r = Ok body ↔
     ∃ resp, out = Responded resp ∧ status_code resp = 200%Z ∧ body = resp_content resp) ∧
  ((∃ msg, r = Raise (RatelimitException msg)) ↔
     ∃ resp, out = Responded resp ∧ status_code resp ∈ [202; 301; 403]%Z) ∧
  ((∃ msg, r = Raise (TimeoutException msg)) ↔
     ∃ type_name ex, out = Failed type_name ex ∧ Py.contains "time" (Py.lower ex) = true) ∧
  ((∃ msg, r = Raise (DuckDuckGoSearchException msg)) ↔
     (∃ resp, out = Responded resp ∧ status_code resp ∉ [200; 202; 301; 403]%Z) ∨
     (∃ type_name ex, out = Failed type_name ex ∧ Py.contains "time" (Py.lower ex) = false)) ∧
  (is_Ok r = false → _exception_event self' = true).
Proof.
  intros Hclear req out r self'. subst r self'.
  unfold _get_url, bind, get, send, raise, ret, modify. simpl. rewrite Hclear.
  fold req. fold out. destruct out as [resp|type_name ex] eqn:Hout; simpl.
  - destruct (status_code resp =? 200)%Z eqn:E200; simpl.
    + apply Z.eqb_eq in E200.
      split; [done|]. split; [|split; [|split; [|split]]].
      * intros body. split; [intros [= <-]; eauto|]. by intros (? & [= <-] & _ & ->).
      * split; [by intros [? ?]|]. intros (? & [= <-] & Hin). status_tuple.
      * split; [by intros [? ?]|]. by intros (? & ? & ? & _).
      * split; [by intros [? ?]|]. intros [(? & [= <-] & Hnin)|(? & ? & ? & _)]; [|done].
        status_tuple.
      * done.
    + apply Z.eqb_neq in E200.
      case_bool_decide as Hin; simpl.
      * split; [done|]. split; [|split; [|split; [|split]]]; try done.
        -- intros body. split; [done|]. by intros (? & [= <-] & ? & _).
        -- split; [eauto|eauto].
        -- split; [by intros [? ?]|]. by intros (? & ? & ? & _).
        -- split; [by intros [? ?]|]. intros [(? & [= <-] & Hnin)|(? & ? & ? & _)]; [|done].
           status_tuple.
      * split; [done|]. split; [|split; [|split; [|split]]]; try done.
        -- intros body. split; [done|]. by intros (? & [= <-] & ? & _).
        -- split; [by intros [? ?]|]. by intros (? & [= <-] & ?).
        -- split; [by intros [? ?]|]. by intros (? & ? & ? & _).
        -- split; [|eauto]. intros _. left. exists resp. split; [done|]. status_tuple.
  - destruct (Py.contains "time" (Py.lower ex)) eqn:Etime; simpl.
    + split; [done|]. split; [|split; [|split; [|split]]]; try done.
      * intros body. split; [done|]. by intros (? & ? & _).
      * split; [by intros [? ?]|]. by intros (? & ? & _).
      * split; [eauto|eauto].
      * split; [by intros [? ?]|]. intros [(? & ? & _)|(? & ? & [= <- <-] & ?)]; [done|].
        congruence.
    + split; [done|]. split; [|split; [|split; [|split]]]; try done.
      * intros body. split; [done|]. by intros (? & ? & _).
      * split; [by intros [? ?]|]. by intros (? & ? & _).
      * split; [by intros [? ?]|]. intros (? & ? & [= <- <-] & ?). congruence.
      * split; [|eauto]. intros _. right. eauto.
Qed.

End TransportProps.

(** ** The latch is never released *)

Section Keeps.
Context {S : Type} (P : S → Prop).

Lemma keeps_ret {A} (a : A) : keeps P (ret a).
Proof. by intros s. Qed.

Lemma keeps_raise {A} (e : Exn) : keeps P (@raise S A e).
Proof. by intros s. Qed.

Lemma keeps_lift {A} (r : Res A) : keeps P (lift r).
Proof. by intros s. Qed.

Lemma keeps_get : keeps P get.
Proof. by intros s. Qed.

Lemma keeps_modify (f : S → S) : (∀ s, P s → P (f s)) → keeps P (modify f).
Proof. intros Hf s. apply Hf. Qed.

Lemma keeps_bind {A B} (m : St S A) (k : A → St S B) :
  keeps P m → (∀ a, keeps P (k a)) → keeps P (bind m k).
Proof.
  intros Hm Hk s Hs. unfold bind. specialize (Hm s Hs).
  destruct (m s) as [[a|e] s1]; simpl in *; [by apply Hk|done].
Qed.

Lemma keeps_for_each {A B} (body : A → St S (list B)) (l : list A) :
  (∀ a, keeps P (body a)) → keeps P (for_each body l).
Proof.
  intros Hbody. induction l as [|x l IH]; simpl.
  - apply keeps_ret.
  - apply keeps_bind; [done|]. intros r.
    apply keeps_bind; [done|]. intros rs. apply keeps_ret.
Qed.

Lemma keeps_run_tasks {A B} (fn : A → St S B) n pending sched s :
  (∀ a, keeps P (fn a)) → P s → P (run_tasks fn n pending sched s).2.
Proof.
  intros Hfn. revert pending sched s.
  induction n as [|n IH]; intros pending sched s Hs; simpl; [done|].
  destruct (pending !! _) as [[i a]|]; [|done].
  specialize (Hfn a s Hs). destruct (fn a s) as [r s1]. simpl in Hfn.
  specialize (IH (delete (hd 0 sched `mod` length pending)%nat pending) (tl sched) s1 Hfn).
  destruct (run_tasks fn n _ _ s1) as [done s2]. done.
Qed.

Lemma keeps_executor_map {A B} sched (fn : A → St S B) (args : list A) :
  (∀ a, keeps P (fn a)) → keeps P (executor_map sched fn args).
Proof.
  intros Hfn s Hs. unfold executor_map.
  pose proof (keeps_run_tasks fn (length args) (imap (λ i a, (i, a)) args) sched s Hfn Hs)
    as Hrun.
  destruct (run_tasks fn _ _ sched s) as [done s']. done.
Qed.

End Keeps.

Lemma keeps_on_self {A} (P : DDGS → Prop) (m : St DDGS A) :
  keeps P m → keeps (λ c, P (self c)) (on_self m).
Proof.
  intros Hm c Hc. unfold on_self. specialize (Hm (self c) Hc).
  destruct (m (self c)) as [r d]. done.
Qed.

Lemma keeps_with_locals {A} (P : DDGS → Prop) payload (m : St Call A) :
  keeps (λ c, P (self c)) m → keeps P (with_locals payload m).
Proof.
  intros Hm d Hd. unfold with_locals.
  specialize (Hm {| self := d; cache := ∅; payload := payload |} Hd).
  destruct (m _) as [r c]. done.
Qed.

(** Breaks a computation into its steps, down to the steps listed. *)
Ltac keeps_steps :=
  repeat first
    [ apply keeps_ret | apply keeps_raise | apply keeps_lift | apply keeps_get
    | apply keeps_bind; [|intros ?]
    | apply keeps_for_each; intros ?
    | apply keeps_executor_map; intros ?
    | apply keeps_with_locals
    | apply keeps_on_self
    | apply keeps_modify; (intros [] ?; done)
    | assumption
    | match goal with
      | |- keeps _ (if ?b then _ else _) => destruct b
      | |- keeps _ (match ?x with _ => _ end) => destruct x
      | |- keeps _ (let (_, _) := ?x in _) => destruct x
      end ].

Section Latch.
Context `{Client} `{Utils} `{Lxml} `{Places}.

Lemma keeps_send req : keeps tripped (send req).
Proof. by intros s. Qed.

Lemma keeps__get_url method url params content data :
  keeps tripped (_get_url method url params content data).
Proof.
  unfold _get_url. pose proof keeps_send. keeps_steps; try done.
Qed.

Lemma keeps__get_vqd keywords : keeps tripped (_get_vqd keywords).
Proof. unfold _get_vqd. pose proof keeps__get_url. keeps_steps. Qed.

Lemma keeps_chat keywords model timeout : keeps tripped (chat keywords model timeout).
Proof.
  unfold chat, chat_request, client_call. pose proof keeps_send. keeps_steps.
Qed.

Lemma keeps_text_pages {R} sched (page : Z → St Call (list R)) payload max_results :
  (∀ s, keeps (λ c, tripped (self c)) (page s)) →
  keeps tripped (text_pages sched page payload max_results).
Proof. intros Hpage. unfold text_pages. keeps_steps. apply Hpage. Qed.

Lemma keeps__text_lite_rows fuel data href title :
  keeps (λ c, tripped (self c)) (_text_lite_rows fuel data href title).
Proof.
  revert data href title. induction fuel as [|fuel IH]; intros data href title; simpl.
  - apply keeps_ret.
  - destruct (row_next data) as [[[i e]|] data1]; keeps_steps; apply IH.
Qed.

Lemma keeps_text sched keywords region safesearch timelimit backend max_results :
  keeps tripped (text sched keywords region safesearch timelimit backend max_results).
Proof.
  pose proof keeps__get_url. pose proof keeps__get_vqd. pose proof keeps__text_lite_rows.
  unfold text, _text_api, _text_html, _text_lite.
  keeps_steps; apply keeps_text_pages; intros ?;
    unfold _text_api_page, _text_api_fetch, _text_api_row, _text_html_page, _text_html_row,
      _text_lite_page;
    keeps_steps; auto.
Qed.

Lemma keeps_maps_rounds fuel sched keywords vqd max_results vars work results :
  keeps (λ c, tripped (self c))
    (maps_rounds fuel sched keywords vqd max_results vars work results).
Proof.
  pose proof keeps__get_url.
  revert sched vars work results.
  induction fuel as [|fuel IH]; intros sched vars work results; simpl.
  - destruct work; apply keeps_ret.
  - destruct work as [|bbox work]; [apply keeps_ret|].
    destruct (maps_queue vars (bbox :: work)) as [vars' queue].
    unfold _maps_page, _maps_row. keeps_steps. apply IH.
Qed.

Lemma keeps_maps_from sched keywords vqd start_bbox max_results :
  keeps tripped (maps_from sched keywords vqd start_bbox max_results).
Proof. unfold maps_from. pose proof keeps_maps_rounds. keeps_steps; auto. Qed.

Lemma tripped_after (m : Method) (self : DDGS) : tripped self → tripped (after m self).
Proof.
  destruct m; simpl.
  - apply keeps__get_url.
  - apply keeps__get_vqd.
  - apply keeps_chat.
  - apply keeps_text.
  - apply keeps_maps_from.
Qed.

Lemma tripped_after_all (calls : list Method) (self : DDGS) :
  tripped self → tripped (after_all calls self).
Proof.
  revert self. induction calls as [|m calls IH]; intros self Hself; simpl; [done|].
  apply IH. by apply tripped_after.
Qed.

Lemma _get_url_raise_trips (self self' : DDGS) method url params content data e :
_get_url method url params content data self = (Raise e, self') → tripped self'.
Proof.
destruct (_exception_event self) eqn:Hflag.
- rewrite _get_url_tripped by done. by intros [= _ <-].
- unfold _get_url, bind, get, send, raise, ret, modify. simpl. rewrite Hflag.
  destruct (client_request _ _) as [resp|type_name ex]; simpl.
  + destruct (status_code resp =? 200)%Z; simpl; [done|].
    destruct (bool_decide _); by intros [= _ <-].
  + destruct (Py.contains _ _); by intros [= _ <-].
Qed.

(** C4.  Once a call of [_get_url] on an instance has raised, then after
    any further calls of its methods the instance is still tripped, and a
    call of [_get_url] raises the error of the previous call at once: the
    instance is unchanged by it, and so is the wire. *)
Theorem fail_fast_latch (self0 self : DDGS) (e : Exn) (calls : list Method)
    method0 url0 params0 content0 data0 method url params content data :
  _get_url method0 url0 params0 content0 data0 self0 = (Raise e, self) →
  _exception_event (after_all calls self) = true ∧
  _get_url method url params content data (after_all calls self)
  = (Raise (DuckDuckGoSearchException (JStr "Exception occurred in previous call.")),
     after_all calls self) ∧
  wire (_get_url method url params content data (after_all calls self)).2
  = wire (after_all calls self).
Proof.
  intros Hfailed.
  assert (tripped (after_all calls self)) as Hlatch.
  { apply tripped_after_all. by eapply _get_url_raise_trips. }
  split; [done|]. rewrite _get_url_tripped by done. done.
Qed.

End Latch.

(** ** Chat *)

Section ChatProps.
Context `{Client} `{Utils}.

(** The loop reaches the first error fragment with the messages collected
    so far, whatever they are. *)
Lemma chat_fragments_plain (pre rest results : list Json) :
  Forall plain_fragment pre →
  ∃ results', chat_fragments (pre ++ rest) results = chat_fragments rest results'.
Proof.
  intros Hpre. revert results.
  induction Hpre as [|v pre (x & -> & Hplain) _ IH]; intros results; simpl; [eauto|].
  unfold error_fragment in Hplain. destruct (Py.eq_str _ "error"); [done|].
  destruct (Py.assoc "message" x) as [message|]; [destruct (Py.truthy message)|]; apply IH.
Qed.

Lemma eq_str_Some (v : Json) (s : string) : Py.eq_str (Some v) s = true ↔ v = JStr s.
Proof.
  destruct v; simpl; try (split; [done|by intros [=]]).
  rewrite bool_decide_eq_true. split; [by intros ->|by intros [= ->]].
Qed.

Lemma chat_fragments_error (pre post results : list Json) (x : list (string * Json)) :
  Forall plain_fragment pre → error_fragment x →
  chat_fragments (pre ++ JObj x :: post) results
  = Raise (if Py.eq_int (Py.assoc "status" x) 429
           then if Py.eq_str (Some (error_code x)) "ERR_CONVERSATION_LIMIT"
                then ConversationLimitException (error_code x)
                else RatelimitException (error_code x)
           else DuckDuckGoSearchException (error_code x)).
Proof.
  intros Hpre Herr.
  destruct (chat_fragments_plain pre (JObj x :: post) results Hpre) as [results' ->].
  simpl. unfold error_fragment in Herr. rewrite Herr. fold (error_code x).
  by destruct (Py.eq_int (Py.assoc "status" x) 429),
    (Py.eq_str (Some (error_code x)) "ERR_CONVERSATION_LIMIT").
Qed.

Lemma chat_after_request (self self1 : DDGS) keywords model timeout resp :
  chat_request keywords model timeout self = (Ok resp, self1) →
  chat keywords model timeout self
  = (data <- lift (chat_decode (resp_content resp)) ;;
     results <- lift (chat_fragments data []) ;;
     result <- lift (join_messages results) ;;
     modify (append_chat_message (turn "assistant" result)) ;;;
     modify (add_chat_tokens (Z.of_nat (length results))) ;;;
     ret result)
      (set_chat_vqd (default "" (resp_headers resp !! "x-vqd-4")) self1).
Proof. intros Hreq. unfold chat at 1. unfold bind at 1. rewrite Hreq. done. Qed.

Lemma chat_raises_on_error (self self1 : DDGS) keywords model timeout resp
    (pre post : list Json) (x : list (string * Json)) :
  chat_request keywords model timeout self = (Ok resp, self1) →
  chat_decode (resp_content resp) = Ok (pre ++ JObj x :: post) →
  Forall plain_fragment pre → error_fragment x →
  chat keywords model timeout self
  = (Raise (if Py.eq_int (Py.assoc "status" x) 429
            then if Py.eq_str (Some (error_code x)) "ERR_CONVERSATION_LIMIT"
                 then ConversationLimitException (error_code x)
                 else RatelimitException (error_code x)
            else DuckDuckGoSearchException (error_code x)),
     set_chat_vqd (default "" (resp_headers resp !! "x-vqd-4")) self1).
Proof.
  intros Hreq Hdecode Hpre Herr. rewrite (chat_after_request _ _ _ _ _ _ Hreq).
  unfold bind, lift. rewrite Hdecode. by rewrite chat_fragments_error.
Qed.

(** C8.  When the answer to the chat request decodes to fragments of which
    the first error fragment is [x], [chat] raises, with the error code of
    [x] as its argument: the conversation-limit error exactly when [x] has
    status 429 and the code [ERR_CONVERSATION_LIMIT]; the rate-limit error
    exactly when it has status 429 and another code; the general error
    exactly when its status is not 429. *)
Theorem chat_error_classes (self self1 : DDGS) keywords model timeout resp
    (pre post : list Json) (x : list (string * Json)) :
  chat_request keywords model timeout self = (Ok resp, self1) →
  chat_decode (resp_content resp) = Ok (pre ++ JObj x :: post) →
  Forall plain_fragment pre → error_fragment x →
  let r := (chat keywords model timeout self).1 in
  (∃ e, r = Raise e) ∧
  (r = Raise (ConversationLimitException (error_code x)) ↔
     status_429 x ∧ error_code x = JStr "ERR_CONVERSATION_LIMIT") ∧
  (r = Raise (RatelimitException (error_code x)) ↔
     status_429 x ∧ error_code x ≠ JStr "ERR_CONVERSATION_LIMIT") ∧
  (r = Raise (DuckDuckGoSearchException (error_code x)) ↔ ¬ status_429 x).
Proof.
  intros Hreq Hdecode Hpre Herr r. subst r.
  rewrite (chat_raises_on_error _ _ _ _ _ _ _ _ _ Hreq Hdecode Hpre Herr). cbn [fst].
  unfold status_429.
  destruct (Py.eq_int (Py.assoc "status" x) 429) eqn:E429.
  - destruct (Py.eq_str (Some (error_code x)) "ERR_CONVERSATION_LIMIT") eqn:Ecode.
    + apply eq_str_Some in Ecode. split; [eauto|]. split; [done|]. split.
      * split; [done|]. by intros [_ Hne].
      * split; [done|]. intros Hno. by destruct Hno.
    + assert (error_code x ≠ JStr "ERR_CONVERSATION_LIMIT") as Hne.
      { intros Heq. apply eq_str_Some in Heq. congruence. }
      split; [eauto|]. split; [|split].
      * split; [done|]. by intros [_ Heq].
      * done.
      * split; [done|]. intros Hno. by destruct Hno.
  - split; [eauto|]. split; [|split].
    + split; [done|]. by intros [? _].
    + split; [done|]. by intros [? _].
    + done.
Qed.

(** What [chat_request] leaves behind when it returns: the history with
    the user turn at its end. *)
Lemma chat_request_history (self self1 : DDGS) keywords model timeout resp :
  chat_request keywords model timeout self = (Ok resp, self1) →
  _chat_messages self1 = _chat_messages self ++ [turn "user" keywords].
Proof.
  unfold chat_request, client_call, bind, get, modify, send, lift, ret, raise. simpl.
  destruct (negb (Py.truthy_str (_chat_vqd self))); simpl.
  - destruct (client_request (wire self) _); simpl; [|done].
    destruct (Py.getitem models model); simpl; [|done].
    destruct (client_request _ _); simpl; [|done]. by intros [= _ <-].
  - destruct (Py.getitem models model); simpl; [|done].
    destruct (client_request _ _); simpl; [|done]. by intros [= _ <-].
Qed.

(** C9.  When [chat] fails on an error fragment of the answer, the
    instance has changed all the same: the history is the old one with the
    user turn of this call at its end, no assistant turn after it, and the
    session token is the one of the failing answer (the empty string if
    the answer carries none). *)
Theorem chat_failure_keeps_changes (self self1 : DDGS) keywords model timeout resp
    (pre post : list Json) (x : list (string * Json)) :
  chat_request keywords model timeout self = (Ok resp, self1) →
  chat_decode (resp_content resp) = Ok (pre ++ JObj x :: post) →
  Forall plain_fragment pre → error_fragment x →
  let r := (chat keywords model timeout self).1 in
  let self' := (chat keywords model timeout self).2 in
  is_Ok r = false ∧
  _chat_messages self' = _chat_messages self ++ [turn "user" keywords] ∧
  last (_chat_messages self') = Some (turn "user" keywords) ∧
  _chat_vqd self' = default "" (resp_headers resp !! "x-vqd-4").
Proof.
  intros Hreq Hdecode Hpre Herr r self'. subst r self'.
  rewrite (chat_raises_on_error _ _ _ _ _ _ _ _ _ Hreq Hdecode Hpre Herr). simpl.
  rewrite (chat_request_history _ _ _ _ _ _ Hreq), last_snoc. done.
Qed.

End ChatProps.

(** ** The dispatch of [text] *)

Section TextDispatch.
Context `{Client} `{Utils} `{Lxml}.

(** C10.  With the HTML parser installed, [text] with a backend other than
    [api], [html] and [lite] reaches [return results] with [results] never
    assigned: it raises [UnboundLocalError] and leaves the instance as it
    was; so whenever [text] returns a list, the backend is one of the
    three. *)
Theorem text_unknown_backend (self : DDGS) sched keywords region safesearch timelimit
    backend max_results :
  LXML_AVAILABLE = true →
  (backend ∉ ["api"; "html"; "lite"] →
   text sched keywords region safesearch timelimit backend max_results self
   = (Raise (UnboundLocalError "results"), self)) ∧
  (∀ l self',
     text sched keywords region safesearch timelimit backend max_results self = (Ok l, self') →
     backend ∈ ["api"; "html"; "lite"]).
Proof.
  intros Hlxml. unfold text. rewrite Hlxml. simpl.
  destruct (decide (backend = "api")) as [->|Hapi]; [split; [|intros; by left]|].
  { intros Hnot. destruct Hnot. by left. }
  destruct (decide (backend = "html")) as [->|Hhtml]; [split; [|intros; by right; left]|].
  { intros Hnot. destruct Hnot. by right; left. }
  destruct (decide (backend = "lite")) as [->|Hlite]; [split; [|intros; by right; right; left]|].
  { intros Hnot. destruct Hnot. by right; right; left. }
  split; [done|]. intros l self'. unfold raise. done.
Qed.

End TextDispatch.

(** ** The lite table *)

Section LiteProps.
Context `{Client} `{Utils} `{Lxml}.

Lemma row_next_cons (k : nat) (e : LiteTr) (rest : list LiteTr) :
  row_next (k, e :: rest) = (Some ((k `mod` 4 + 1)%nat, e), (S k, rest)).
Proof. reflexivity. Qed.

(** Three draws pass the rest of a run, or all that is left of the table. *)
Lemma row_skip3_run (k : nat) (e2 e3 e4 : LiteTr) (rest : list LiteTr) :
  row_skip3 (S k, e2 :: e3 :: e4 :: rest) = ((k + 4)%nat, rest).
Proof. unfold row_skip3. simpl. f_equal. lia. Qed.

Lemma position_1 (j : nat) : ((4 * j) `mod` 4 + 1 = 1)%nat.
Proof. rewrite Nat.mul_comm, Nat.Div0.mod_mul. done. Qed.

Lemma position_2 (j : nat) : ((S (4 * j)) `mod` 4 + 1 = 2)%nat.
Proof. replace (S (4 * j)) with (1 + j * 4)%nat by lia. by rewrite Nat.Div0.mod_add. Qed.

Lemma position_3 (j : nat) : ((S (S (4 * j))) `mod` 4 + 1 = 3)%nat.
Proof. replace (S (S (4 * j))) with (2 + j * 4)%nat by lia. by rewrite Nat.Div0.mod_add. Qed.

Lemma position_4 (j : nat) : ((S (S (S (4 * j)))) `mod` 4 + 1 = 4)%nat.
Proof.
  replace (S (S (S (4 * j)))) with (3 + j * 4)%nat by lia. by rewrite Nat.Div0.mod_add.
Qed.

(** The step of the loop on a filtered first row. *)
Lemma _text_lite_rows_filtered (fuel j : nat) (e : LiteTr) (rest : list LiteTr)
    href title (c : Call) :
  lite_filtered (cache c) e = true →
  _text_lite_rows (S fuel) ((4 * j)%nat, e :: rest) href title c
  = _text_lite_rows fuel (row_skip3 (S (4 * j), rest)) (head (tr_a_href e)) title c.
Proof.
  intros Hfil. cbn [_text_lite_rows]. rewrite row_next_cons, position_1.
  destruct (decide (1 = 1)%nat); [|done].
  unfold lite_filtered in Hfil. unfold bind at 1. unfold get at 1.
  destruct (head (tr_a_href e)) as [h|]; [|done]. by rewrite Hfil.
Qed.

Lemma row_skip3_aligned (k : nat) (rest : list LiteTr) :
  (k `mod` 4 = 0)%nat →
  (row_skip3 (S k, rest)).2 = [] ∨ ((row_skip3 (S k, rest)).1 `mod` 4 = 0)%nat.
Proof.
  intros Hk. destruct rest as [|e2 [|e3 [|e4 rest]]]; [by left..|]. right.
  rewrite row_skip3_run. cbn [fst].
  replace (k + 4)%nat with (k + 1 * 4)%nat by lia. by rewrite Nat.Div0.mod_add.
Qed.

(** At the first row of a run, and at the end of the table, the loop does
    not read [href] and [title] before it assigns them. *)
Lemma _text_lite_rows_fresh (fuel k : nat) (rows : list LiteTr) href title href' title'
    (c : Call) :
  rows = [] ∨ (k `mod` 4 = 0)%nat →
  _text_lite_rows fuel (k, rows) href title c
  = _text_lite_rows fuel (k, rows) href' title' c.
Proof.
  revert k rows href title href' title' c.
  induction fuel as [|fuel IH]; intros k rows href title href' title' c Hk; [done|].
  destruct rows as [|e rest]; [done|]. destruct Hk as [|Hk]; [done|].
  cbn [_text_lite_rows]. rewrite row_next_cons, Hk.
  destruct (decide (0 + 1 = 1)%nat); [|done]. unfold bind, get.
  pose proof (row_skip3_aligned k rest Hk) as Haligned.
  destruct (row_skip3 (S k, rest)) as [k' rows'] eqn:Hskip. simpl in Haligned.
  destruct (head (tr_a_href e)) as [h|]; [|by apply IH].
  destruct (bool_decide (h ∈ cache c) || is_ad_link h); [by apply IH|done].
Qed.

Lemma _text_lite_rows_start (fuel j : nat) (rows : list LiteTr) href title href' title'
    (c : Call) :
  _text_lite_rows fuel ((4 * j)%nat, rows) href title c
  = _text_lite_rows fuel ((4 * j)%nat, rows) href' title' c.
Proof.
  apply _text_lite_rows_fresh. right. by rewrite Nat.mul_comm, Nat.Div0.mod_mul.
Qed.

(** The step of the loop on a first row that is kept. *)
Lemma _text_lite_rows_kept (fuel j : nat) (e : LiteTr) (rest : list LiteTr)
    href title (c : Call) :
  lite_filtered (cache c) e = false →
  _text_lite_rows (S fuel) ((4 * j)%nat, e :: rest) href title c
  = _text_lite_rows fuel (S (4 * j), rest) (head (tr_a_href e))
      (default "" (head (tr_a_text e))) (cache_add (default "" (head (tr_a_href e))) c).
Proof.
  intros Hfil. cbn [_text_lite_rows]. rewrite row_next_cons, position_1.
  destruct (decide (1 = 1)%nat); [|done].
  unfold lite_filtered in Hfil. unfold bind at 1. unfold get at 1.
  destruct (head (tr_a_href e)) as [h|]; [|done]. by rewrite Hfil.
Qed.

(** The step of the loop on the second row of a run. *)
Lemma _text_lite_rows_snippet (fuel j : nat) (e : LiteTr) (rest : list LiteTr)
    href title (c : Call) :
  _text_lite_rows (S fuel) (S (4 * j), e :: rest) href title c
  = (rs <- _text_lite_rows fuel (S (S (4 * j)), rest) href title ;;
     ret ((if Py.truthy_opt_str href
           then [result title (default "" href)
                   (match tr_snippet e with
                    | [] => ""
                    | _ => Str.strip (Str.join "" (tr_snippet e))
                    end)]
           else []) ++ rs)) c.
Proof.
  cbn [_text_lite_rows]. rewrite row_next_cons, position_2.
  destruct (decide (2 = 1)%nat); [done|]. destruct (decide (2 = 2)%nat); [|done].
  destruct (Py.truthy_opt_str href); [done|]. unfold bind, ret.
  by destruct (_text_lite_rows fuel _ href title c) as [[rs|err] c'].
Qed.

(** The steps of the loop on the third and fourth row of a run. *)
Lemma _text_lite_rows_padding (fuel j : nat) (e3 e4 : LiteTr) (rest : list LiteTr)
    href title (c : Call) :
  _text_lite_rows (S (S fuel)) (S (S (4 * j)), e3 :: e4 :: rest) href title c
  = _text_lite_rows fuel ((4 * S j)%nat, rest) href title c.
Proof.
  cbn [_text_lite_rows]. rewrite row_next_cons, position_3.
  destruct (decide (3 = 1)%nat); [done|]. destruct (decide (3 = 2)%nat); [done|].
  destruct fuel as [|fuel].
  - cbn [_text_lite_rows]. rewrite row_next_cons, position_4.
    destruct (decide (4 = 1)%nat); [done|]. by destruct (decide (4 = 2)%nat).
  - cbn [_text_lite_rows]. rewrite row_next_cons, position_4.
    destruct (decide (4 = 1)%nat); [done|]. destruct (decide (4 = 2)%nat); [done|].
    by replace (S (S (S (S (4 * j))))) with (4 * S j)%nat by lia.
Qed.

(** The step of the loop on a whole run. *)
Lemma _text_lite_rows_block (fuel j : nat) (b : Block) (rest : list LiteTr) href title
    (c : Call) :
  _text_lite_rows (4 + fuel) ((4 * j)%nat, rows_of_block b ++ rest) href title c
  = let '(e1, _, _, _) := b in
    if lite_filtered (cache c) e1 then
      _text_lite_rows (3 + fuel) ((4 * S j)%nat, rest) None "" c
    else
      (rs <- _text_lite_rows fuel ((4 * S j)%nat, rest) None "" ;;
       ret ((if Py.truthy_opt_str (head (tr_a_href e1)) then [block_result b] else []) ++ rs))
        (cache_add (default "" (head (tr_a_href e1))) c).
Proof.
  destruct b as [[[e1 e2] e3] e4]. cbn [rows_of_block app].
  destruct (lite_filtered (cache c) e1) eqn:Hfil.
  - change (4 + fuel)%nat with (S (3 + fuel)).
    rewrite _text_lite_rows_filtered by done. rewrite row_skip3_run.
    replace (4 * j + 4)%nat with (4 * S j)%nat by lia.
    apply _text_lite_rows_start.
  - change (4 + fuel)%nat with (S (S (S (S fuel)))).
    rewrite _text_lite_rows_kept by done. rewrite _text_lite_rows_snippet.
    unfold bind. rewrite _text_lite_rows_padding.
    rewrite (_text_lite_rows_start fuel (S j) rest _ _ None "").
    unfold block_result.
    assert (default "" (head (tr_a_href e1)) = default "" (head (tr_a_href e1))) by done.
    destruct (head (tr_a_href e1)); done.
Qed.

(** The loop on a table of whole runs, by induction on the runs. *)
Lemma _text_lite_rows_blocks (blocks : list Block) (fuel j : nat) (c : Call) :
  (length (rows_of_blocks blocks) ≤ fuel)%nat →
  _text_lite_rows fuel ((4 * j)%nat, rows_of_blocks blocks) None "" c
  = (Ok (lite_results (cache c) blocks), set_cache (lite_seen (cache c) blocks) c).
Proof.
  revert fuel j c. induction blocks as [|b blocks IH]; intros fuel j c Hfuel.
  - destruct c. by destruct fuel.
  - cbn [rows_of_blocks] in *.
    assert (∃ fuel', fuel = 4 + fuel' ∧ length (rows_of_blocks blocks) ≤ fuel')%nat
      as (fuel' & -> & Hfuel').
    { destruct b as [[[e1 e2] e3] e4]. simpl in Hfuel. exists (fuel - 4)%nat. lia. }
    rewrite _text_lite_rows_block. destruct b as [[[e1 e2] e3] e4].
    cbn [lite_results lite_seen]. destruct (lite_filtered (cache c) e1).
    + apply IH. lia.
    + unfold bind. rewrite IH by done. destruct c. done.
Qed.

Lemma row_skip3_length (data : RowIter) :
(length (row_skip3 data).2 ≤ length data.2)%nat.
Proof. destruct data as [k [|e1 [|e2 [|e3 rest]]]]; cbn; lia. Qed.

(** The loop ends before its fuel does: a round draws a row, and the table
    has no more rows than the loop has fuel. *)
Lemma _text_lite_rows_fuel (fuel1 fuel2 : nat) (data : RowIter) href title (c : Call) :
(length data.2 ≤ fuel1)%nat → (length data.2 ≤ fuel2)%nat →
_text_lite_rows fuel1 data href title c = _text_lite_rows fuel2 data href title c.
Proof.
revert fuel2 data href title c.
induction fuel1 as [|fuel1 IH]; intros fuel2 [k rows] href title c Hlen1 Hlen2.
- destruct rows; [by destruct fuel2|]. cbn in Hlen1. lia.
- destruct rows as [|e rest]; [by destruct fuel2|]. cbn [snd length] in Hlen1, Hlen2.
  destruct fuel2 as [|fuel2]; [lia|].
  cbn [_text_lite_rows]. rewrite row_next_cons.
  pose proof (row_skip3_length (S k, rest)) as Hskip. cbn [snd] in Hskip.
  destruct (decide (k `mod` 4 + 1 = 1)%nat).
  + unfold bind, get, modify.
    destruct (head (tr_a_href e)) as [h|].
    * destruct (bool_decide (h ∈ cache c) || is_ad_link h); apply IH; cbn [snd]; lia.
    * apply IH; lia.
  + destruct (decide (k `mod` 4 + 1 = 2)%nat).
    * destruct (Py.truthy_opt_str href).
      -- unfold bind. rewrite (IH fuel2) by (cbn [snd]; lia). done.
      -- apply IH; cbn [snd]; lia.
    * apply IH; cbn [snd]; lia.
Qed.

(** C6.  On a table of whole runs of four rows, [_text_lite_page]'s loop
    reads every run from its first row: when the first row of a run is
    filtered out (no link, a link seen before, an advertisement or a
    redirection) the loop passes the three other rows of the run and
    treats the row after them as a first row again, so the results are
    those of the table read run by run, a filtered run giving nothing and
    every other run its own title, link and snippet. *)
Theorem lite_resynchronises (blocks : list Block) (e1 e2 e3 e4 : LiteTr)
    (rest : list LiteTr) (fuel j : nat) href title (c : Call) :
  lite_filtered (cache c) e1 = true →
  row_skip3 (S (4 * j), e2 :: e3 :: e4 :: rest) = ((4 * S j)%nat, rest) ∧
  (∀ e, head rest = Some e →
     (row_next (row_skip3 (S (4 * j), e2 :: e3 :: e4 :: rest))).1 = Some (1%nat, e)) ∧
  _text_lite_rows (S fuel) ((4 * j)%nat, e1 :: e2 :: e3 :: e4 :: rest) href title c
  = _text_lite_rows fuel ((4 * S j)%nat, rest) None "" c ∧
  _text_lite_rows (length (rows_of_blocks blocks)) (0%nat, rows_of_blocks blocks) None "" c
  = (Ok (lite_results (cache c) blocks), set_cache (lite_seen (cache c) blocks) c).
Proof.
  intros Hfil.
  assert (row_skip3 (S (4 * j), e2 :: e3 :: e4 :: rest) = ((4 * S j)%nat, rest)) as Hskip.
  { rewrite row_skip3_run. f_equal. lia. }
  split; [done|]. split; [|split].
  - intros e Hrest. rewrite Hskip. destruct rest as [|e' rest']; [done|].
    cbn in Hrest. injection Hrest as ->.
    rewrite row_next_cons. cbn [fst]. by rewrite position_1.
  - rewrite _text_lite_rows_filtered by done. rewrite Hskip.
    apply _text_lite_rows_start.
  - by apply (_text_lite_rows_blocks blocks _ 0).
Qed.

End LiteProps.

(** ** The search squares of [maps] *)

Section MapsProps.
Context `{Client} `{Utils} `{Places}.

Lemma quadrants_length (bbox : BBox) : length (quadrants bbox) = 4%nat.
Proof. by destruct bbox as [[[lat_t lon_l] lat_b] lon_r]. Qed.

(** Wherever the middle of a square is computed to lie, the four quadrants
    cover the square, and no point is inside two of them. *)
Lemma quadrants_tile (bbox : BBox) (lat lon : Q) :
  (inside lat lon bbox → ∃ q, q ∈ quadrants bbox ∧ inside lat lon q) ∧
  (∀ q1 q2 i1 i2, quadrants bbox !! i1 = Some q1 → quadrants bbox !! i2 = Some q2 →
     strictly_inside lat lon q1 → strictly_inside lat lon q2 → i1 = i2).
Proof.
  destruct bbox as [[[lat_t lon_l] lat_b] lon_r]. unfold quadrants.
  set (lat_middle := Decimal.div (Decimal.add lat_t lat_b) 2).
  set (lon_middle := Decimal.div (Decimal.add lon_l lon_r) 2). split.
  - intros [[Hb Ht] [Hl Hr]].
    destruct (Qlt_le_dec lat lat_middle) as [Hs|Hn];
      destruct (Qlt_le_dec lon lon_middle) as [Hw|He].
    + eexists. split; [do 2 right; left|]. cbn [inside]. lra.
    + eexists. split; [do 3 right; left|]. cbn [inside]. lra.
    + eexists. split; [left|]. cbn [inside]. lra.
    + eexists. split; [right; left|]. cbn [inside]. lra.
  - intros q1 q2 i1 i2 Hq1 Hq2 Hin1 Hin2.
    destruct i1 as [|[|[|[|i1]]]], i2 as [|[|[|[|i2]]]]; try done;
      cbn [lookup list_lookup] in Hq1, Hq2; simplify_eq;
      cbn [strictly_inside] in Hin1, Hin2; lra.
Qed.

(** Whether the loop cuts a square depends on the locals it enters with:
    the square unpacked last, not the square at hand. *)
Lemma maps_queue_cons (vars bbox : BBox) (work : list BBox) :
  maps_queue vars (bbox :: work)
  = if wide vars
    then ((maps_queue bbox work).1, quadrants bbox ++ (maps_queue bbox work).2)
    else maps_queue vars work.
Proof.
  destruct vars as [[[lat_t lon_l] lat_b] lon_r]. cbn [maps_queue wide].
  destruct (negb _); [|done]. by destruct (maps_queue bbox work).
Qed.

(** The loop over the rounds ends before its fuel does: a round that goes
    on has added a result and is still short of [max_results]. *)
Lemma maps_rounds_fuel (fuel1 fuel2 : nat) sched keywords vqd (max_results : option Z)
  (vars : BBox) (work : list BBox) (results : list (gmap string Json)) (c : Call) :
(Z.to_nat (default 0%Z max_results - Z.of_nat (length results)) < fuel1)%nat →
(Z.to_nat (default 0%Z max_results - Z.of_nat (length results)) < fuel2)%nat →
maps_rounds fuel1 sched keywords vqd max_results vars work results c
= maps_rounds fuel2 sched keywords vqd max_results vars work results c.
Proof.
revert fuel2 sched vars work results c.
induction fuel1 as [|fuel1 IH]; intros fuel2 sched vars work results c Hfuel1 Hfuel2; [lia|].
destruct fuel2 as [|fuel2]; [lia|].
destruct work as [|bbox work]; [done|].
cbn [maps_rounds].
destruct (maps_queue vars (bbox :: work)) as [vars' queue].
unfold bind. destruct (executor_map _ _ _ c) as [[pages|e] c1]; [|done].
destruct (negb (Py.truthy_int max_results)) eqn:Hgiven; [done|]. cbn [orb].
destruct (default 0%Z max_results <=? _)%Z eqn:Hshort; [done|]. cbn [orb].
case_bool_decide as Hnew; [done|].
apply Z.leb_gt in Hshort. apply IH; rewrite length_app in *; lia.
Qed.

End MapsProps.

(** ** The pool *)

Section Pool.
Context {S A B : Type} (fn : A → St S B).

Lemma run_tasks_pick_order (n : nat) (pending : list (nat * A)) (sched : list nat) (s : S) :
  run_tasks fn n pending sched s = run_in_order fn (pick_order n pending sched) s.
Proof.
  revert pending sched s. induction n as [|n IH]; intros pending sched s; [done|].
  cbn [run_tasks pick_order].
  destruct (pending !! _) as [[i a]|]; [|done].
  cbn [run_in_order]. destruct (fn a s) as [r s1]. by rewrite IH.
Qed.

Lemma executor_map_run_order (sched : list nat) (args : list A) (s : S) :
  executor_map sched fn args s
  = (yield_results (run_in_order fn (run_order sched args) s).1 0 (length args),
     (run_in_order fn (run_order sched args) s).2).
Proof.
  unfold executor_map, run_order. rewrite run_tasks_pick_order.
  by destruct (run_in_order fn _ s).
Qed.

Lemma run_in_order_indices (tasks : list (nat * A)) (s : S) :
  (run_in_order fn tasks s).1.*1 = tasks.*1.
Proof.
  revert s. induction tasks as [|[i a] tasks IH]; intros s; [done|].
  cbn [run_in_order]. destruct (fn a s) as [r s1]. specialize (IH s1).
  destruct (run_in_order fn tasks s1) as [done s2]. cbn [fst] in *.
  rewrite !fmap_cons. cbn [fst]. by rewrite IH.
Qed.

End Pool.

Lemma pick_order_perm {A} (n : nat) (pending : list A) (sched : list nat) :
  length pending = n → pick_order n pending sched ≡ₚ pending.
Proof.
  revert pending sched. induction n as [|n IH]; intros pending sched Hlen.
  - by destruct pending.
  - cbn [pick_order].
    assert (hd 0 sched `mod` length pending < length pending)%nat as Hk
      by (apply Nat.mod_upper_bound; lia).
    destruct (lookup_lt_is_Some_2 pending _ Hk) as [x Hx]. rewrite Hx.
    etrans; [|symmetry; apply (delete_Permutation pending _ x Hx)]. constructor.
    apply IH. rewrite length_delete by eauto. lia.
Qed.


Lemma run_order_perm {A} (sched : list nat) (args : list A) :
  run_order sched args ≡ₚ imap (λ i a, (i, a)) args.
Proof. apply pick_order_perm. by rewrite length_imap. Qed.


Lemma bind_Ok {S A B} (m : St S A) (k : A → St S B) (s s' : S) (b : B) :
  bind m k s = (Ok b, s') → ∃ a s1, m s = (Ok a, s1) ∧ k a s1 = (Ok b, s').
Proof. unfold bind. destruct (m s) as [[a|e] s1]; [eauto|done]. Qed.

(** A single task: the pool has no order to choose. *)
Lemma executor_map_single {S A B} (sched : list nat) (fn : A → St S B) (a : A) (s : S) :
  executor_map sched fn [a] s
  = (match (fn a s).1 with Ok b => Ok [b] | Raise e => Raise e end, (fn a s).2).
Proof.
  unfold executor_map. cbn [length imap run_tasks].
  replace (hd 0 sched `mod` 1)%nat with 0%nat by (symmetry; apply Nat.mod_1_r).
  cbn [lookup list_lookup]. destruct (fn a s) as [[b|e] s1]; simpl; by destruct (decide (0 = 0)%nat).
Qed.

(** ** The cut at [max_results] *)

Section Pages.
Context {R : Type}.

(** Without [max_results] a text search is its first page. *)
Lemma text_pages_unset (sched : list nat) (page : Z → St Call (list R))
    (payload : gmap string string) (self : DDGS) :
  text_pages sched page payload None self = with_locals payload (page 0%Z) self.
Proof.
  unfold text_pages, text_slist. rewrite slist_of_unset. unfold bind, with_locals.
  rewrite executor_map_single.
  destruct (page 0%Z _) as [[l|e] c]; simpl; [|done]. by rewrite app_nil_r.
Qed.

(** With [max_results = N] it is the pages put together and cut at
    [min(N, 2023)], which is not negative when the search returns. *)
Lemma text_pages_given (sched : list nat) (page : Z → St Call (list R))
    (payload : gmap string string) (N : Z) (self self' : DDGS) (l : list R) :
  text_pages sched page payload (Some N) self = (Ok l, self') →
  (0 <= N)%Z ∧
  ∃ pages,
    with_locals payload (executor_map sched page (text_slist (Some N)).1) self
    = (Ok pages, self') ∧
    l = take (Z.to_nat (Z.min N 2023)) (concat pages).
Proof.
  unfold text_pages, text_slist. rewrite slist_of_given by lia. cbn [fst].
  intros Hrun. apply bind_Ok in Hrun as (pages & s1 & Hpages & Hcut).
  unfold lift, Py.islice in Hcut.
  destruct (decide (N = 0%Z)) as [->|Hne].
  - simpl in Hcut. simplify_eq. split; [done|]. by exists pages.
  - destruct ((0 <=? Z.min N 2023)%Z && (Z.min N 2023 <=? Py.maxsize)%Z) eqn:Hrange;
      [|done].
    simplify_eq. split; [lia|]. by exists pages.
Qed.

Lemma text_pages_returns (sched : list nat) (page : Z → St Call (list R))
    (payload : gmap string string) (N : Z) (self self' : DDGS) (pages : list (list R)) :
  (0 <= N)%Z →
  with_locals payload (executor_map sched page (text_slist (Some N)).1) self
  = (Ok pages, self') →
  text_pages sched page payload (Some N) self
  = (Ok (take (Z.to_nat (Z.min N 2023)) (concat pages)), self').
Proof.
  intros HN Hpages. unfold text_pages, text_slist in *.
  rewrite slist_of_given in * by lia. cbn [fst] in Hpages.
  unfold bind. rewrite Hpages. unfold lift, Py.islice.
  destruct (decide (N = 0%Z)) as [->|Hne]; [done|].
  replace ((0 <=? Z.min N 2023)%Z && (Z.min N 2023 <=? Py.maxsize)%Z) with true; [done|].
  symmetry. apply andb_true_iff. unfold Py.maxsize. split; lia.
Qed.

Lemma text_pages_length (sched : list nat) (page : Z → St Call (list R))
    (payload : gmap string string) (N : Z) (self self' : DDGS) (l : list R) :
  text_pages sched page payload (Some N) self = (Ok l, self') →
  (Z.of_nat (length l) <= N)%Z.
Proof.
  intros Hrun. apply text_pages_given in Hrun as (HN & pages & _ & ->).
  rewrite length_take. lia.
Qed.

End Pages.

(** ** First occurrences *)

Section Dedup.
Context `{Client} `{Utils}.


(** A row gives one result or none. *)
Lemma _text_api_result_length (row : gmap string string) (href : string)
  (rs : list (gmap string string)) :
_text_api_result row href = Ok rs → (length rs ≤ 1)%nat.
Proof.
unfold _text_api_result. destruct (Py.getitem row "a") as [a|]; [|done].
destruct (Py.truthy_str (_normalize a)); [|by intros [= <-]; cbn; lia].
destruct (Py.getitem row "t") as [t|]; [|done]. intros [= <-]. done.
Qed.







End Dedup.

(** ** What the pool yields *)

Lemma imap_pair_indices {A} (args : list A) :
  (imap (λ i a, (i, a)) args).*1 = seq 0 (length args).
Proof.
  apply list_eq. intros i. rewrite list_lookup_fmap, list_lookup_imap.
  destruct (args !! i) as [a|] eqn:Ha; simpl.
  - symmetry. apply lookup_seq. split; [done|]. by eapply lookup_lt_Some.
  - symmetry. apply lookup_seq_ge. by apply lookup_ge_None.
Qed.


Lemma result_of_None {B} (i : nat) (done : list (nat * Res B)) :
  result_of i done = None → i ∉ done.*1.
Proof.
  induction done as [|[j r] done IH]; [by intros _ ?%elem_of_nil|].
  cbn [result_of]. destruct (decide (j = i)) as [->|Hne]; [done|].
  intros Hnone. rewrite fmap_cons. cbn [fst].
  intros [->|Hin]%elem_of_cons; [done|]. by apply IH.
Qed.

Lemma result_of_elem {B} (i : nat) (r : Res B) (done : list (nat * Res B)) :
  NoDup done.*1 → (i, r) ∈ done → result_of i done = Some r.
Proof.
  induction done as [|[j r'] done IH]; [by intros _ ?%elem_of_nil|].
  rewrite fmap_cons. cbn [fst result_of]. intros [Hj Hnodup]%NoDup_cons Hin.
  apply elem_of_cons in Hin as [[= <- <-]|Hin].
  - by destruct (decide (i = i)).
  - destruct (decide (j = i)) as [->|Hne]; [|by apply IH].
    destruct Hj. apply list_elem_of_fmap. by exists (i, r).
Qed.

Lemma yield_results_Ok {B} (done : list (nat * Res B)) (i n : nat) (bs : list B) :
  yield_results done i n = Ok bs →
  (∀ j, (i ≤ j < i + n)%nat → j ∈ done.*1) →
  length bs = n ∧ ∀ j b, bs !! j = Some b → result_of (i + j) done = Some (Ok b).
Proof.
  revert i bs. induction n as [|n IH]; intros i bs Hyield Hall.
  - cbn in Hyield. simplify_eq. split; [done|]. intros j b Hb. by rewrite lookup_nil in Hb.
  - cbn [yield_results] in Hyield.
    destruct (result_of i done) as [[b|e]|] eqn:Hi.
    + destruct (yield_results done (S i) n) as [bs'|e] eqn:Hrest; [|done].
      simplify_eq. destruct (IH (S i) bs' Hrest) as [Hlen Hres].
      { intros j Hj. apply Hall. lia. }
      split; [by rewrite length_cons, Hlen|].
      intros [|j] b' Hb'; cbn in Hb'; simplify_eq.
      * by rewrite Nat.add_0_r.
      * replace (i + S j)%nat with (S i + j)%nat by lia. by apply Hres.
    + done.
    + apply result_of_None in Hi. destruct Hi. apply Hall. lia.
Qed.

(** When the pool yields its pages, every task returned, and the page at
    the place of a task is what the task returned. *)
Lemma executor_map_Ok {S A B} (sched : list nat) (fn : A → St S B) (args : list A)
    (s s' : S) (bs : list B) :
  executor_map sched fn args s = (Ok bs, s') →
  length bs = length args ∧
  ∀ i r, (i, r) ∈ (run_in_order fn (run_order sched args) s).1 →
         ∃ b, r = Ok b ∧ bs !! i = Some b.
Proof.
  rewrite executor_map_run_order. intros [= Hyield _].
  set (done := (run_in_order fn (run_order sched args) s).1) in *.
  assert (done.*1 ≡ₚ seq 0 (length args)) as Hperm.
  { unfold done. rewrite run_in_order_indices, <- imap_pair_indices.
    apply fmap_Permutation, run_order_perm. }
  assert (NoDup done.*1) as Hnodup by (rewrite Hperm; apply NoDup_seq).
  destruct (yield_results_Ok done 0 (length args) bs Hyield) as [Hlen Hres].
  { intros j Hj. rewrite Hperm. apply elem_of_seq. lia. }
  split; [done|]. intros i r Hin.
  assert (i < length args)%nat as Hi.
  { assert (i ∈ done.*1) as Hidx by (apply list_elem_of_fmap; by exists (i, r)).
    rewrite Hperm in Hidx. apply elem_of_seq in Hidx. lia. }
  destruct (lookup_lt_is_Some_2 bs i) as [b Hb]; [lia|].
  exists b. split; [|done].
  pose proof (Hres i b Hb) as Hfound. cbn in Hfound.
  rewrite (result_of_elem i r done Hnodup Hin) in Hfound. by simplify_eq.
Qed.

(** ** The pages of the api backend, put together *)

Section ApiPages.
Context `{Client} `{Utils}.

Lemma _get_url_Ok (d d' : DDGS) method url params content data body :
  _get_url method url params content data d = (Ok body, d') →
  _exception_event d = false ∧ _exception_event d' = false.
Proof.
  destruct (_exception_event d) eqn:Hflag.
  - by rewrite _get_url_tripped.
  - unfold _get_url, bind, get, send, raise, ret, modify. simpl. rewrite Hflag.
    destruct (client_request _ _) as [resp|type_name ex]; simpl.
    + destruct (status_code resp =? 200)%Z; simpl.
      * intros [= _ <-]. done.
      * by destruct (bool_decide _).
    + by destruct (Py.contains _ _).
Qed.

(** A fetch that returns leaves the cache and the latch alone. *)
Lemma _text_api_fetch_Ok (keywords : string) (s : Z) (c c1 : Call)
    (rows : list (gmap string string)) :
  _text_api_fetch keywords s c = (Ok rows, c1) →
  cache c1 = cache c ∧ _exception_event (self c1) = false.
Proof.
  unfold _text_api_fetch. intros Hrun.
  apply bind_Ok in Hrun as ([] & c2 & [= <-] & Hrun).
  apply bind_Ok in Hrun as (c3 & c4 & [= <- <-] & Hrun).
  apply bind_Ok in Hrun as (body & c5 & Hurl & [= _ <-]).
  unfold on_self in Hurl. cbn [self payload_set] in Hurl.
  destruct (_get_url _ _ _ _ _ (self c)) as [r d'] eqn:Hcall.
  injection Hurl as -> <-. apply _get_url_Ok in Hcall as [_ Hflag]. done.
Qed.

Section Run.
Variable keywords : string.
Variable rows_of : Z → list (gmap string string).
Hypothesis fetch_rows : ∀ s c,
  _exception_event (self c) = false →
  (_text_api_fetch keywords s c).1 = Ok (rows_of s).



End Run.

Lemma pages_in_order {B} (slist : list Z) (pages : list (list B)) :
  length pages = length slist →
  (λ t : nat * Z, default [] (pages !! t.1)) <$> imap (λ i a, (i, a)) slist = pages.
Proof.
  intros Hlen. apply list_eq. intros i.
  rewrite list_lookup_fmap, list_lookup_imap.
  destruct (slist !! i) as [a|] eqn:Ha; simpl.
  - destruct (lookup_lt_is_Some_2 pages i) as [b Hb].
    { rewrite Hlen. by eapply lookup_lt_Some. }
    by rewrite Hb.
  - symmetry. apply lookup_ge_None. rewrite Hlen. by apply lookup_ge_None.
Qed.


End ApiPages.

(** * Further properties *)

(** ** The arithmetic of the decimal context *)

Lemma log10_fuel_spec (fuel : nat) (n : Z) :
  (1 <= n < 10 * 2 ^ Z.of_nat fuel)%Z →
  (10 ^ Decimal.log10_fuel fuel n <= n < 10 ^ (Decimal.log10_fuel fuel n + 1))%Z ∧
  (0 <= Decimal.log10_fuel fuel n)%Z.
Proof.
  revert n. induction fuel as [|fuel IH]; intros n Hn; cbn [Decimal.log10_fuel].
  - change (2 ^ Z.of_nat 0)%Z with 1%Z in Hn. cbn. lia.
  - destruct (n <? 10)%Z eqn:Hlt.
    + apply Z.ltb_lt in Hlt. cbn. lia.
    + apply Z.ltb_ge in Hlt.
      assert (1 <= n / 10 < 10 * 2 ^ Z.of_nat fuel)%Z as Hdiv.
      { rewrite Nat2Z.inj_succ, Z.pow_succ_r in Hn by lia.
        split; [apply Z.div_le_lower_bound; lia|].
        apply Z.div_lt_upper_bound; [lia|]. lia. }
      destruct (IH _ Hdiv) as [[Hlo Hhi] Hpos].
      split; [|lia].
      replace (1 + Decimal.log10_fuel fuel (n / 10) + 1)%Z
        with (Z.succ (Z.succ (Decimal.log10_fuel fuel (n / 10)))) by lia.
      replace (1 + Decimal.log10_fuel fuel (n / 10))%Z
        with (Z.succ (Decimal.log10_fuel fuel (n / 10))) by lia.
      replace (Decimal.log10_fuel fuel (n / 10) + 1)%Z
        with (Z.succ (Decimal.log10_fuel fuel (n / 10))) in Hhi by lia.
      rewrite !Z.pow_succ_r in * by lia.
      pose proof (Z.div_mod n 10 ltac:(lia)). pose proof (Z.mod_pos_bound n 10 ltac:(lia)).
      lia.
Qed.

Lemma log10_spec (n : Z) :
  (1 <= n)%Z →
  (10 ^ Decimal.log10 n <= n < 10 ^ (Decimal.log10 n + 1))%Z ∧ (0 <= Decimal.log10 n)%Z.
Proof.
  intros Hn. apply log10_fuel_spec. split; [done|].
  rewrite Z2Nat.id by apply Z.log2_nonneg.
  pose proof (Z.log2_spec n ltac:(lia)) as [_ Hhi].
  rewrite Z.pow_succ_r in Hhi by apply Z.log2_nonneg. lia.
Qed.

Lemma round_half_even_spec (n d : Z) :
  (0 <= n)%Z → (0 < d)%Z →
  (0 <= Decimal.round_half_even n d)%Z ∧
  (2 * Z.abs (Decimal.round_half_even n d * d - n) <= d)%Z.
Proof.
  intros Hn Hd. unfold Decimal.round_half_even.
  pose proof (Z.div_mod n d ltac:(lia)). pose proof (Z.mod_pos_bound n d Hd).
  pose proof (Z.div_pos n d Hn Hd).
  destruct (2 * _ <? d)%Z eqn:Hr1; [apply Z.ltb_lt in Hr1; split; nia|].
  apply Z.ltb_ge in Hr1.
  destruct (d <? 2 * _)%Z eqn:Hr2; [apply Z.ltb_lt in Hr2; split; nia|].
  apply Z.ltb_ge in Hr2. destruct (Z.even _); split; nia.
Qed.

Lemma ten_pos (k : Z) : (0 < 10 ^ k)%Q.
Proof. by apply Qpower_0_lt. Qed.

Lemma ten_succ (k : Z) : (10 ^ (k + 1) == 10 * 10 ^ k)%Q.
Proof. rewrite Qpower_plus by done. rewrite Qpower_1_r. ring. Qed.

Lemma inject_pow10 (k : Z) : (0 <= k)%Z → (inject_Z (10 ^ k) == 10 ^ k)%Q.
Proof. intros Hk. by rewrite Zpower_Qpower. Qed.

(** [scale e n d] is the fraction [n / d] over [10^e]. *)
Lemma scale_spec (e n d : Z) :
  (0 < n)%Z → (0 < d)%Z →
  (0 < (Decimal.scale e n d).1)%Z ∧ (0 < (Decimal.scale e n d).2)%Z ∧
  (inject_Z (Decimal.scale e n d).1 * inject_Z d * 10 ^ e
   == inject_Z n * inject_Z (Decimal.scale e n d).2)%Q.
Proof.
  intros Hn Hd. unfold Decimal.scale. destruct (0 <=? e)%Z eqn:He; cbn [fst snd].
  - apply Z.leb_le in He. pose proof (Z.pow_pos_nonneg 10 e ltac:(lia) He).
    split; [done|]. split; [lia|].
    rewrite inject_Z_mult, inject_pow10 by done. ring.
  - apply Z.leb_gt in He. pose proof (Z.pow_pos_nonneg 10 (- e) ltac:(lia) ltac:(lia)).
    split; [lia|]. split; [done|].
    rewrite inject_Z_mult, inject_pow10 by lia. rewrite Qpower_opp.
    pose proof (ten_pos e). field. lra.
Qed.


(** Arithmetic of the bounds, on rationals. *)
Lemma scaled_lower (t d D N A : Q) :
  (0 < t → 0 < d → 0 < D → N * d * t == A * D → D <= N → t * d <= A)%Q.
Proof.
  intros. assert (0 < t * d)%Q by nra. assert (t * d * D <= A * D)%Q by nra. nra.
Qed.

Lemma scaled_upper (t d D N A : Q) :
  (0 < t → 0 < d → 0 < D → N * d * t == A * D → N < D → A < t * d)%Q.
Proof.
  intros. assert (0 < t * d)%Q by nra. assert (A * D < t * d * D)%Q by nra. nra.
Qed.

(** The value lies between the power of ten of its adjusted exponent and
    the next one. *)
Lemma adjusted_spec (q : Q) :
  Qnum q ≠ 0%Z →
  let a := inject_Z (Z.abs (Qnum q)) in
  let d := inject_Z (Zpos (Qden q)) in
  (10 ^ Decimal.adjusted q * d <= a ∧ a < 10 ^ (Decimal.adjusted q + 1) * d)%Q.
Proof.
  intros Hq. cbn zeta. unfold Decimal.adjusted.
  set (a := Z.abs (Qnum q)). set (d := Zpos (Qden q)).
  assert (0 < a)%Z as Ha by lia. assert (0 < d)%Z as Hd by done.
  destruct (log10_spec a ltac:(lia)) as [[Halo Hahi] Hla].
  destruct (log10_spec d ltac:(lia)) as [[Hdlo Hdhi] Hld].
  set (la := Decimal.log10 a) in *. set (ld := Decimal.log10 d) in *.
  rewrite Zle_Qle in Halo, Hdlo. rewrite Zlt_Qlt in Hahi, Hdhi.
  rewrite inject_pow10 in Halo, Hdlo, Hahi, Hdhi by lia.
  rewrite ten_succ in Hahi, Hdhi.
  destruct (scale_spec (la - ld) a d Ha Hd) as (HN & HD & Hscale).
  destruct (Decimal.scale (la - ld) a d) as [N D]. cbn [fst snd] in *.
  assert (10 ^ (la - ld) * 10 ^ ld == 10 ^ la)%Q as Hk.
  { rewrite <- Qpower_plus by done. by replace (la - ld + ld)%Z with la by lia. }
  assert (10 * 10 ^ (la - ld - 1) == 10 ^ (la - ld))%Q as Hprev.
  { rewrite <- ten_succ. by replace (la - ld - 1 + 1)%Z with (la - ld)%Z by lia. }
  pose proof (ten_pos (la - ld)) as Ht. pose proof (ten_pos (la - ld - 1)) as Ht'.
  assert (0 < inject_Z D)%Q as HDq by (by rewrite <- (Zlt_Qlt 0)).
  assert (0 < inject_Z d)%Q as Hdq by (by rewrite <- (Zlt_Qlt 0)).
  destruct (D <=? N)%Z eqn:Htest.
  - apply Z.leb_le in Htest. rewrite Zle_Qle in Htest. rewrite ten_succ.
    pose proof (scaled_lower _ _ _ _ _ Ht Hdq HDq Hscale Htest) as Hlow.
    split; [done|]. clear Hscale Hlow.
    revert Halo Hahi Hdlo Hdhi Hk Ht. generalize (10 ^ (la - ld))%Q (10 ^ la)%Q (10 ^ ld)%Q.
    intros t pa pd. nra.
  - apply Z.leb_gt in Htest. rewrite Zlt_Qlt in Htest.
    replace (la - ld - 1 + 1)%Z with (la - ld)%Z by lia.
    pose proof (scaled_upper _ _ _ _ _ Ht Hdq HDq Hscale Htest).
    split; [|done]. clear Hscale.
    revert Halo Hahi Hdlo Hdhi Hk Hprev Ht Ht'.
    generalize (10 ^ (la - ld - 1))%Q (10 ^ (la - ld))%Q (10 ^ la)%Q (10 ^ ld)%Q.
    intros t' t pa pd. nra.
Qed.

Lemma of_coefficient_spec (c e : Z) :
  (Decimal.of_coefficient c e == inject_Z c * 10 ^ e)%Q.
Proof.
  unfold Decimal.of_coefficient. destruct (0 <=? e)%Z eqn:He.
  - apply Z.leb_le in He. by rewrite inject_Z_mult, inject_pow10.
  - apply Z.leb_gt in He.
    pose proof (Z.pow_pos_nonneg 10 (- e) ltac:(lia) ltac:(lia)) as Hpos.
    rewrite Qmake_Qdiv, Z2Pos.id, inject_pow10 by lia. rewrite Qpower_opp.
    pose proof (ten_pos e). field. lra.
Qed.

(** The error of a coefficient rounded to the nearest integer, for a
    value of 28 digits before the point. *)
Lemma rounded_error (c T a d N D x : Q) :
  (0 < T → 0 < d → 0 < D → N * d * T == a * D → x * d == a →
   10 ^ 27 * T * d <= a → - D <= 2 * (c * D - N) <= D →
   - (x * (5 # 10 ^ 28)) <= c * T - x <= x * (5 # 10 ^ 28))%Q.
Proof.
  intros HT Hd HD Hscale Hx Hadj Hc.
  assert (x * D == N * T)%Q as HxD.
  { apply (Qmult_inj_r _ _ d); [lra|]. nra. }
  assert (10 ^ 27 * T <= x)%Q as Hlow.
  { apply (Qmult_le_r _ _ d Hd). nra. }
  assert (- T <= 2 * (c * T - x) <= T)%Q as [Hlo Hhi].
  { split; apply (Qmult_le_r _ _ D HD); nra. }
  change (10 ^ 27)%Q with (1000000000000000000000000000 # 1)%Q in Hlow.
  change (5 # 10 ^ 28)%Q with (5 # 10000000000000000000000000000)%Q.
  split; lra.
Qed.

(** Rounding to 28 digits changes a value by at most five units of its
    29th digit. *)
Lemma round_error (q : Q) :
  (Qabs (Decimal.round q - q) <= Qabs q * (5 # 10 ^ 28))%Q.
Proof.
  unfold Decimal.round. destruct (Qnum q =? 0)%Z eqn:Hzero.
  - apply Z.eqb_eq in Hzero. assert (q == 0)%Q as -> by (unfold Qeq; cbn; lia). done.
  - apply Z.eqb_neq in Hzero.
    destruct (adjusted_spec q Hzero) as [Hadj _]. cbn zeta in *.
    set (e := (Decimal.adjusted q - (Decimal.prec - 1))%Z).
    assert (10 ^ Decimal.adjusted q == 10 ^ 27 * 10 ^ e)%Q as Hpow.
    { rewrite <- Qpower_plus by done. unfold e, Decimal.prec.
      by replace (27 + (Decimal.adjusted q - (28 - 1)))%Z with (Decimal.adjusted q) by lia. }
    rewrite Hpow in Hadj.
    destruct (scale_spec e (Z.abs (Qnum q)) (Zpos (Qden q)) ltac:(lia) ltac:(done))
      as (HN & HD & Hscale).
    destruct (Decimal.scale e _ _) as [N D]. cbn [fst snd] in *.
    destruct (round_half_even_spec N D ltac:(lia) HD) as [Hc0 Hc].
    set (c := Decimal.round_half_even N D) in *.
    rewrite Qred_correct, of_coefficient_spec.
    assert (- inject_Z D <= 2 * (inject_Z c * inject_Z D - inject_Z N) <= inject_Z D)%Q
      as Hcq.
    { rewrite <- inject_Z_mult, <- inject_Z_opp. unfold Qminus.
      rewrite <- inject_Z_opp, <- inject_Z_plus.
      change 2%Q with (inject_Z 2). rewrite <- inject_Z_mult, <- !Zle_Qle. lia. }
    pose proof (ten_pos e) as HT.
    assert (0 < inject_Z D)%Q as HDq by (by rewrite <- (Zlt_Qlt 0)).
    assert (0 < inject_Z (Zpos (Qden q)))%Q as Hdq by (by rewrite <- (Zlt_Qlt 0)).
    apply Qabs_Qle_condition.
    destruct q as [[|p|p] d]; [done|..]; cbn [Qnum Qden Z.abs Z.sgn] in *.
    + assert ((Zpos p # d) * inject_Z (Zpos d) == inject_Z (Zpos p))%Q as Hx.
      { unfold Qeq. cbn. lia. }
      pose proof (rounded_error _ _ _ _ _ _ _ HT Hdq HDq Hscale Hx Hadj Hcq) as [Hlo Hhi].
      rewrite Z.mul_1_l. rewrite Qabs_pos by done. split; lra.
    + assert ((Zpos p # d) * inject_Z (Zpos d) == inject_Z (Zpos p))%Q as Hx.
      { unfold Qeq. cbn. lia. }
      pose proof (rounded_error _ _ _ _ _ _ _ HT Hdq HDq Hscale Hx Hadj Hcq) as [Hlo Hhi].
      assert ((Zneg p # d) == - (Zpos p # d))%Q as Hneg by done.
      replace (-1 * c)%Z with (- c)%Z by lia. rewrite inject_Z_opp.
      rewrite Hneg, Qabs_opp, Qabs_pos by done. split; lra.
Qed.

Lemma half_spec (x : Q) : (x / 2 == x * (1 # 2))%Q.
Proof. reflexivity. Qed.

(** The middle of two values as the code computes it lies within
    [10^-27 |a + b|] of their middle. *)
Lemma middle_error (a b : Q) :
  (Qabs (Decimal.div (Decimal.add a b) 2 - (a + b) / 2) <= Qabs (a + b) * (1 # 10 ^ 27))%Q.
Proof.
  unfold Decimal.div, Decimal.add.
  pose proof (round_error (a + b)) as Hsum.
  pose proof (round_error (Decimal.round (a + b) / 2)) as Hhalf.
  pose proof (half_spec (a + b)) as Hmid.
  pose proof (half_spec (Decimal.round (a + b))) as Hh.
  set (s := (a + b)%Q) in *. set (s' := Decimal.round s) in *.
  set (h := (s' / 2)%Q) in *. set (mid := (s / 2)%Q) in *.
  set (m := Decimal.round h) in *.
  apply Qabs_Qle_condition in Hsum as [Hs1 Hs2]. apply Qabs_Qle_condition in Hhalf as [Hh1 Hh2].
  change (5 # 10 ^ 28)%Q with (5 # 10000000000000000000000000000)%Q in *.
  change (1 # 10 ^ 27)%Q with (1 # 1000000000000000000000000000)%Q.
  apply Qabs_Qle_condition.
  destruct (Qlt_le_dec s 0) as [Hs|Hs]; destruct (Qlt_le_dec h 0) as [Hs'|Hs'].
  - rewrite (Qabs_neg s) in * by lra. rewrite (Qabs_neg h) in * by lra. split; lra.
  - rewrite (Qabs_neg s) in * by lra. rewrite (Qabs_pos h) in * by lra. split; lra.
  - rewrite (Qabs_pos s) in * by lra. rewrite (Qabs_neg h) in * by lra. split; lra.
  - rewrite (Qabs_pos s) in * by lra. rewrite (Qabs_pos h) in * by lra. split; lra.
Qed.

(** Two values that are further apart than the rounding take the middle
    computed between them, whichever is given first. *)
Lemma middle_between (a b : Q) :
  (Qabs (a + b) * (2 # 10 ^ 27) <= b - a →
   a <= Decimal.div (Decimal.add a b) 2 <= b)%Q.
Proof.
  intros Hapart. pose proof (middle_error a b) as Herr.
  pose proof (half_spec (a + b)) as Hmid. set (mid := ((a + b) / 2)%Q) in *.
  apply Qabs_Qle_condition in Herr as [Hlo Hhi].
  change (1 # 10 ^ 27)%Q with (1 # 1000000000000000000000000000)%Q in *.
  change (2 # 10 ^ 27)%Q with (2 # 1000000000000000000000000000)%Q in *.
  split; lra.
Qed.

Lemma middle_between_down (a b : Q) :
  (Qabs (a + b) * (2 # 10 ^ 27) <= a - b →
   b <= Decimal.div (Decimal.add a b) 2 <= a)%Q.
Proof.
  intros Hapart. pose proof (middle_error a b) as Herr.
  pose proof (half_spec (a + b)) as Hmid. set (mid := ((a + b) / 2)%Q) in *.
  apply Qabs_Qle_condition in Herr as [Hlo Hhi].
  change (1 # 10 ^ 27)%Q with (1 # 1000000000000000000000000000)%Q in *.
  change (2 # 10 ^ 27)%Q with (2 # 1000000000000000000000000000)%Q in *.
  split; lra.
Qed.

(** ** The squares of [maps] *)

(** The quadrants of a square whose sides are further apart than the
    rounding are normal and lie inside the square. *)
Lemma quadrants_within (bbox : BBox) :
  separated bbox →
  Forall normal (quadrants bbox) ∧
  ∀ q lat lon, q ∈ quadrants bbox → inside lat lon q → inside lat lon bbox.
Proof.
  destruct bbox as [[[lat_t lon_l] lat_b] lon_r]. intros [Hlat Hlon].
  apply middle_between_down in Hlat. apply middle_between in Hlon.
  unfold quadrants.
  set (lat_middle := Decimal.div (Decimal.add lat_t lat_b) 2) in *.
  set (lon_middle := Decimal.div (Decimal.add lon_l lon_r) 2) in *. split.
  - repeat constructor; cbn; lra.
  - intros q lat lon Hq Hin. cbn [inside].
    repeat (apply elem_of_cons in Hq as [->|Hq]); [..|by apply elem_of_nil in Hq];
      cbn [inside] in Hin; destruct Hin as [[? ?] [? ?]]; repeat split; lra.
Qed.

(** X1.  The squares that [maps] makes of a square are the four around one
    point, north-west, north-east, south-west and south-east of it: the
    centre of the square as the decimal context computes it.  That point
    is the centre up to the rounding of the context, within [10^-27] times
    the sum of the two sides.  Wherever it lies, every point of the square
    lies in one of the four squares, and no point is an inner point of two
    of them.  When the sides of the square are further apart than the
    rounding, the four are normal squares inside the square.  Without that
    they need not be: the quadrants of a normal square one unit of the last
    digit high are not all normal. *)
Theorem quadrants_partition (lat_t lon_l lat_b lon_r lat lon : Q) :
  let bbox : BBox := (lat_t, lon_l, lat_b, lon_r) in
  ∃ lat_middle lon_middle : Q,
    quadrants bbox
    = [ (lat_t, lon_l, lat_middle, lon_middle); (lat_t, lon_middle, lat_middle, lon_r);
        (lat_middle, lon_l, lat_b, lon_middle); (lat_middle, lon_middle, lat_b, lon_r) ] ∧
    (Qabs (lat_middle - (lat_t + lat_b) / 2) <= Qabs (lat_t + lat_b) * (1 # 10 ^ 27))%Q ∧
    (Qabs (lon_middle - (lon_l + lon_r) / 2) <= Qabs (lon_l + lon_r) * (1 # 10 ^ 27))%Q ∧
    (inside lat lon bbox → ∃ q, q ∈ quadrants bbox ∧ inside lat lon q) ∧
    (∀ q1 q2 i1 i2, quadrants bbox !! i1 = Some q1 → quadrants bbox !! i2 = Some q2 →
       strictly_inside lat lon q1 → strictly_inside lat lon q2 → i1 = i2) ∧
    (separated bbox →
     Forall normal (quadrants bbox) ∧
     ∀ q, q ∈ quadrants bbox → inside lat lon q → inside lat lon bbox) ∧
    (normal thin_square ∧ ¬ Forall normal (quadrants thin_square)).
Proof.
  cbn zeta. eexists _, _. split; [reflexivity|].
  split; [apply middle_error|]. split; [apply middle_error|].
  destruct (quadrants_tile (lat_t, lon_l, lat_b, lon_r) lat lon) as [Hcover Hapart].
  split; [done|]. split; [done|]. split.
  - intros Hsep. destruct (quadrants_within _ Hsep) as [Hnormal Hin].
    split; [done|]. intros q. apply Hin.
  - split; [by vm_compute|].
    intros Hnormal. apply Forall_cons in Hnormal as [[Hlat _] _].
    vm_compute in Hlat. done.
Qed.

Section QueueProps.
Context `{Utils}.

Lemma maps_queue_narrow (vars : BBox) (work : list BBox) :
  wide vars = false → maps_queue vars work = (vars, []).
Proof.
  intros Hnarrow. induction work as [|bbox work IH]; [done|].
  by rewrite maps_queue_cons, Hnarrow.
Qed.

Lemma maps_queue_from (vars : BBox) (work : list BBox) (q : BBox) :
  q ∈ (maps_queue vars work).2 → ∃ b, b ∈ work ∧ q ∈ quadrants b.
Proof.
  revert vars. induction work as [|bbox work IH]; intros vars.
  - by intros ?%elem_of_nil.
  - rewrite maps_queue_cons. destruct (wide vars); cbn [snd].
    + intros [Hq|Hq]%elem_of_app.
      * exists bbox. split; [by left|done].
      * destruct (IH bbox Hq) as (b & ? & ?). exists b. split; [by right|done].
    + intros Hq. destruct (IH vars Hq) as (b & ? & ?). exists b. split; [by right|done].
Qed.

Lemma maps_queue_length (vars : BBox) (work : list BBox) :
  ∃ k, length (maps_queue vars work).2 = (4 * k)%nat ∧ (k ≤ length work)%nat.
Proof.
  revert vars. induction work as [|bbox work IH]; intros vars.
  - exists 0%nat. done.
  - rewrite maps_queue_cons. destruct (wide vars); cbn [snd].
    + destruct (IH bbox) as (k & Hk & Hle). exists (S k).
      rewrite length_app, quadrants_length, Hk. cbn [length]. lia.
    + destruct (IH vars) as (k & Hk & Hle). exists k. cbn [length]. lia.
Qed.

(** X2.  Whatever the locals it enters with, the loop over the squares of a
    round queues nothing but quadrants of squares of that round, four for
    every square it cuts.  When the sides of the squares of the round are
    further apart than the rounding of the decimal context, the queued
    squares are normal and lie inside squares of the round.  With locals
    that hold a narrow square it queues nothing, however wide the squares
    of the round. *)
Theorem maps_queue_quadrants (vars : BBox) (work : list BBox) :
  let queue := (maps_queue vars work).2 in
  (∀ q, q ∈ queue → ∃ b, b ∈ work ∧ q ∈ quadrants b) ∧
  (∃ k, length queue = (4 * k)%nat ∧ (k ≤ length work)%nat) ∧
  (Forall separated work →
   Forall normal queue ∧
   ∀ q lat lon, q ∈ queue → inside lat lon q → ∃ b, b ∈ work ∧ inside lat lon b) ∧
  (wide vars = false → queue = []).
Proof.
  cbn zeta. split; [apply maps_queue_from|]. split; [apply maps_queue_length|]. split.
  - intros Hwork. rewrite Forall_forall in Hwork. split.
    + apply Forall_forall. intros q Hq.
      destruct (maps_queue_from vars work q Hq) as (b & Hb & Hqb).
      destruct (quadrants_within b (Hwork b Hb)) as [Hquad _].
      rewrite Forall_forall in Hquad. by apply Hquad.
    + intros q lat lon Hq Hin.
      destruct (maps_queue_from vars work q Hq) as (b & Hb & Hqb).
      exists b. split; [done|].
      destruct (quadrants_within b (Hwork b Hb)) as [_ Hinside]. by eapply Hinside.
  - intros Hnarrow. by rewrite maps_queue_narrow.
Qed.

End QueueProps.

(** ** Requests, counted *)

Section Emits.
Context {S : Type} (w : S → list Request) (Q : Request → Prop).

Lemma emits_silent {A} (m : St S A) : (∀ l, keeps (λ s, w s = l) m) → emits w Q 0 m.
Proof.
  intros Hm s. exists []. rewrite app_nil_r.
  split; [by apply (Hm (w s))|]. split; [done|constructor].
Qed.

Lemma emits_weaken {A} (n n' : nat) (m : St S A) :
  emits w Q n m → (n ≤ n')%nat → emits w Q n' m.
Proof.
  intros Hm Hle s. destruct (Hm s) as (reqs & ? & ? & ?).
  exists reqs. split; [done|]. split; [lia|done].
Qed.

Lemma emits_bind {A B} (n1 n2 : nat) (m : St S A) (k : A → St S B) :
  emits w Q n1 m → (∀ a, emits w Q n2 (k a)) → emits w Q (n1 + n2) (bind m k).
Proof.
  intros Hm Hk s. unfold bind. destruct (Hm s) as (r1 & Hw1 & Hl1 & HQ1).
  destruct (m s) as [[a|e] s1]; cbn [snd] in *.
  - destruct (Hk a s1) as (r2 & Hw2 & Hl2 & HQ2). exists (r1 ++ r2).
    rewrite Hw2, Hw1, app_assoc, length_app.
    split; [done|]. split; [lia|]. by apply Forall_app.
  - exists r1. split; [done|]. split; [lia|done].
Qed.

(** A silent step before or after does not count. *)
Lemma emits_after {A B} (n : nat) (m : St S A) (k : A → St S B) :
  (∀ l, keeps (λ s, w s = l) m) → (∀ a, emits w Q n (k a)) → emits w Q n (bind m k).
Proof. intros Hm Hk. apply (emits_bind 0 n); [by apply emits_silent|done]. Qed.

Lemma emits_before {A B} (n : nat) (m : St S A) (k : A → St S B) :
  emits w Q n m → (∀ a l, keeps (λ s, w s = l) (k a)) → emits w Q n (bind m k).
Proof.
  intros Hm Hk. apply (emits_weaken (n + 0)); [|lia].
  apply emits_bind; [done|]. intros a. by apply emits_silent.
Qed.

Lemma emits_run_tasks {A B} (fn : A → St S B) (k n : nat) pending sched (s : S) :
  (∀ a, emits w Q k (fn a)) →
  ∃ reqs, w (run_tasks fn n pending sched s).2 = w s ++ reqs ∧
          (length reqs ≤ n * k)%nat ∧ Forall Q reqs.
Proof.
  intros Hfn. revert pending sched s.
  induction n as [|n IH]; intros pending sched s; cbn [run_tasks].
  - exists []. rewrite app_nil_r. split; [done|]. split; [done|constructor].
  - destruct (pending !! _) as [[i a]|].
    + destruct (Hfn a s) as (r1 & Hw1 & Hl1 & HQ1).
      destruct (fn a s) as [r s1]. cbn [snd] in *.
      destruct (IH (delete (hd 0 sched `mod` length pending)%nat pending) (tl sched) s1)
        as (r2 & Hw2 & Hl2 & HQ2).
      destruct (run_tasks fn n _ _ s1) as [done s2]. cbn [snd] in *.
      exists (r1 ++ r2). rewrite Hw2, Hw1, app_assoc, length_app.
      split; [done|]. split; [lia|]. by apply Forall_app.
    + exists []. rewrite app_nil_r. split; [done|]. split; [cbn; lia|constructor].
Qed.

(** The pool sends what its tasks send. *)
Lemma emits_executor_map {A B} (k : nat) sched (fn : A → St S B) (args : list A) :
  (∀ a, emits w Q k (fn a)) → emits w Q (length args * k) (executor_map sched fn args).
Proof.
  intros Hfn s. unfold executor_map.
  destruct (emits_run_tasks fn k (length args) (imap (λ i a, (i, a)) args) sched s Hfn)
    as (reqs & Hw & Hl & HQ).
  destruct (run_tasks fn _ _ sched s) as [done s']. by exists reqs.
Qed.

End Emits.

Lemma emits_on_self {A} (Q : Request → Prop) (n : nat) (m : St DDGS A) :
  emits wire Q n m → emits (λ c, wire (self c)) Q n (on_self m).
Proof.
  intros Hm c. unfold on_self. destruct (Hm (self c)) as (reqs & ? & ? & ?).
  destruct (m (self c)) as [r d]. by exists reqs.
Qed.

Lemma emits_with_locals {A} (Q : Request → Prop) (n : nat) payload (m : St Call A) :
  emits (λ c, wire (self c)) Q n m → emits wire Q n (with_locals payload m).
Proof.
  intros Hm d. unfold with_locals.
  destruct (Hm {| self := d; cache := ∅; payload := payload |}) as (reqs & ? & ? & ?).
  destruct (m _) as [r c]. by exists reqs.
Qed.

Section TransportCount.
Context `{Client} `{Utils}.

(** [_get_url] sends its request, or nothing when the instance has
    tripped. *)
Lemma emits__get_url (Q : Request → Prop) method url params content data :
  Q {| method := method; url := url; params := params; content := content;
       data := data; headers := None; json := None; timeout := None |} →
  emits wire Q 1 (_get_url method url params content data).
Proof.
  intros HQ d. destruct (_exception_event d) eqn:Hflag.
  - rewrite _get_url_tripped by done. exists []. rewrite app_nil_r.
    split; [done|]. split; [cbn; lia|constructor].
  - eexists [_]. split; [|split; [done|by repeat constructor]].
    unfold _get_url, bind, get, send, raise, ret, modify. cbn [fst snd]. rewrite Hflag.
    destruct (client_request _ _) as [resp|type_name ex]; cbn [fst snd].
    + destruct (status_code resp =? 200)%Z; [done|]. by destruct (bool_decide _).
    + by destruct (Py.contains _ _).
Qed.

Lemma emits__get_vqd (Q : Request → Prop) keywords :
  Q {| method := "POST"; url := "https://duckduckgo.com"; params := None; content := None;
       data := Some {[ "q" := keywords ]}; headers := None; json := None;
       timeout := None |} →
  emits wire Q 1 (_get_vqd keywords).
Proof.
  intros HQ. unfold _get_vqd. apply emits_before; [by apply emits__get_url|].
  intros a l. apply keeps_lift.
Qed.

End TransportCount.

(** ** What a search leaves alone *)

(** Breaks a computation into its steps, down to the steps [known]
    solves. *)
Ltac frame_steps known :=
  repeat first
    [ known
    | apply keeps_ret | apply keeps_raise | apply keeps_lift | apply keeps_get
    | apply keeps_bind; [|intros ?]
    | apply keeps_for_each; intros ?
    | apply keeps_executor_map; intros ?
    | apply keeps_with_locals
    | apply keeps_on_self
    | apply keeps_modify; (intros [] ?; done)
    | assumption
    | match goal with
      | |- keeps _ (if ?b then _ else _) => destruct b
      | |- keeps _ (match ?x with _ => _ end) => destruct x
      | |- keeps _ (let (_, _) := ?x in _) => destruct x
      end ].

(** A search reaches the instance through [_get_url] and nowhere else: what
    [_get_url] keeps, the search keeps. *)
Section Frame.
Context `{Client} `{Utils} `{Lxml} `{Places}.
Variable P : DDGS → Prop.
Hypothesis P__get_url : ∀ method url params content data,
  keeps P (_get_url method url params content data).

Lemma frame__get_vqd keywords : keeps P (_get_vqd keywords).
Proof. unfold _get_vqd. frame_steps ltac:(apply P__get_url). Qed.

Lemma frame__text_lite_rows fuel data href title :
  keeps (λ c, P (self c)) (_text_lite_rows fuel data href title).
Proof.
  revert data href title. induction fuel as [|fuel IH]; intros data href title; simpl.
  - apply keeps_ret.
  - destruct (row_next data) as [[[i e]|] data1]; frame_steps ltac:(apply IH).
Qed.

Lemma frame__text_api_page keywords s : keeps (λ c, P (self c)) (_text_api_page keywords s).
Proof.
  unfold _text_api_page, _text_api_fetch, _text_api_row. frame_steps ltac:(apply P__get_url).
Qed.

Lemma frame__text_html_page s : keeps (λ c, P (self c)) (_text_html_page s).
Proof. unfold _text_html_page, _text_html_row. frame_steps ltac:(apply P__get_url). Qed.

Lemma frame__text_lite_page s : keeps (λ c, P (self c)) (_text_lite_page s).
Proof.
  unfold _text_lite_page.
  frame_steps ltac:(first [apply P__get_url | apply frame__text_lite_rows]).
Qed.

Lemma frame_text_pages {R} sched (page : Z → St Call (list R)) payload max_results :
  (∀ s, keeps (λ c, P (self c)) (page s)) →
  keeps P (text_pages sched page payload max_results).
Proof. intros Hpage. unfold text_pages. frame_steps ltac:(apply Hpage). Qed.

Lemma frame_text sched keywords region safesearch timelimit backend max_results :
  keeps P (text sched keywords region safesearch timelimit backend max_results).
Proof.
  unfold text, _text_api, _text_html, _text_lite.
  frame_steps ltac:(first
    [ apply frame__get_vqd
    | apply frame_text_pages; intros ?;
      first [apply frame__text_api_page | apply frame__text_html_page
            | apply frame__text_lite_page] ]).
Qed.

Lemma frame__maps_page keywords vqd max_results n bbox :
  keeps (λ c, P (self c)) (_maps_page keywords vqd max_results n bbox).
Proof. unfold _maps_page, _maps_row. frame_steps ltac:(apply P__get_url). Qed.

Lemma frame_maps_rounds fuel sched keywords vqd max_results vars work results :
  keeps (λ c, P (self c))
    (maps_rounds fuel sched keywords vqd max_results vars work results).
Proof.
  revert sched vars work results.
  induction fuel as [|fuel IH]; intros sched vars work results; simpl.
  - destruct work; apply keeps_ret.
  - destruct work as [|bbox work]; [apply keeps_ret|].
    destruct (maps_queue vars (bbox :: work)) as [vars' queue].
    frame_steps ltac:(first [apply frame__maps_page | apply IH]).
Qed.

Lemma frame_maps_from sched keywords vqd start_bbox max_results :
  keeps P (maps_from sched keywords vqd start_bbox max_results).
Proof. unfold maps_from. frame_steps ltac:(apply frame_maps_rounds). Qed.

End Frame.

Section TransportFrame.
Context `{Client} `{Utils}.

(** [_get_url] writes the latch and the wire, and nothing else. *)
Lemma _get_url_session (P : list (gmap string string) → Z → string → Prop)
    method url params content data :
  keeps (λ d, P (_chat_messages d) (_chat_tokens_count d) (_chat_vqd d))
    (_get_url method url params content data).
Proof.
  intros d Hd. unfold _get_url, bind, get, send, raise, ret, modify. cbn [fst snd].
  destruct (_exception_event d); [done|].
  destruct (client_request _ _) as [resp|type_name ex]; cbn [fst snd].
  - destruct (status_code resp =? 200)%Z; [done|]. by destruct (bool_decide _).
  - by destruct (Py.contains _ _).
Qed.

(** When it trips the instance, the request it has just sent was
    refused. *)
Lemma _get_url_explained (n : nat) method url params content data :
  keeps (trip_explained n) (_get_url method url params content data).
Proof.
  intros d [Hlen Hd]. destruct (_exception_event d) eqn:Hflag.
  - rewrite _get_url_tripped by done. split; [done|]. intros _. by apply Hd.
  - unfold _get_url, bind, get, send, raise, ret, modify. cbn [fst snd]. rewrite Hflag.
    destruct (client_request _ _) as [resp|type_name ex] eqn:Hout; cbn [fst snd].
    + destruct (status_code resp =? 200)%Z eqn:E200.
      * split; [cbn; rewrite length_app; lia|]. intros Hset. cbn in Hset. congruence.
      * apply Z.eqb_neq in E200.
        destruct (bool_decide _); (split; [cbn; rewrite length_app; lia|]); intros _;
          eexists _, _, []; (split; [reflexivity|]); (split; [done|]); by rewrite Hout.
    + destruct (Py.contains _ _); (split; [cbn; rewrite length_app; lia|]); intros _;
        eexists _, _, []; (split; [reflexivity|]); (split; [done|]); by rewrite Hout.
Qed.

End TransportFrame.

(** ** The requests of a text search *)

Lemma slist_of_length (ceiling first stride : Z) (max_results : option Z) :
  (0 < stride)%Z →
  (Z.of_nat (length (slist_of ceiling first stride max_results).1)
   <= 1 + Z.max 0 ((ceiling - first + stride - 1) / stride))%Z.
Proof.
  intros Hstride. unfold slist_of.
  destruct (Py.truthy_int max_results); cbn [fst length]; [|lia].
  unfold Py.range. rewrite length_fmap, length_seq.
  assert ((Z.min (default 0 max_results) ceiling - first + stride - 1) / stride
          <= (ceiling - first + stride - 1) / stride)%Z; [|lia].
  apply Z.div_le_mono; lia.
Qed.

Lemma text_slist_length (max_results : option Z) :
  (length (text_slist max_results).1 ≤ 41)%nat.
Proof.
  pose proof (slist_of_length 2023 23 50 max_results ltac:(lia)) as Hlen.
  unfold text_slist. change ((2023 - 23 + 50 - 1) / 50)%Z with 40%Z in Hlen. lia.
Qed.

Section TextCount.
Context `{Client} `{Utils} `{Lxml}.
Variable Q : Request → Prop.
Hypothesis Q_endpoints : ∀ req, url req ∈ text_endpoints → Q req.

Lemma emits__text_api_page keywords s :
  emits (λ c, wire (self c)) Q 1 (_text_api_page keywords s).
Proof.
  unfold _text_api_page, _text_api_fetch. apply emits_before.
  - apply emits_after; [intros l; keeps_steps|]. intros _.
    apply emits_after; [intros l; keeps_steps|]. intros c.
    apply emits_before; [|intros; keeps_steps].
    apply emits_on_self, emits__get_url, Q_endpoints. cbn. by right; left.
  - intros rows l. unfold _text_api_row. keeps_steps.
Qed.

Lemma emits__text_html_page s : emits (λ c, wire (self c)) Q 1 (_text_html_page s).
Proof.
  unfold _text_html_page.
  apply emits_after; [intros l; keeps_steps|]. intros _.
  apply emits_after; [intros l; keeps_steps|]. intros c.
  apply emits_before.
  - apply emits_on_self, emits__get_url, Q_endpoints. cbn. by do 2 right; left.
  - intros body l. unfold _text_html_row. keeps_steps.
Qed.

Lemma emits__text_lite_page s : emits (λ c, wire (self c)) Q 1 (_text_lite_page s).
Proof.
  unfold _text_lite_page.
  apply emits_after; [intros l; keeps_steps|]. intros _.
  apply emits_after; [intros l; keeps_steps|]. intros c.
  apply emits_before.
  - apply emits_on_self, emits__get_url, Q_endpoints. cbn. by do 3 right; left.
  - intros body l.
    frame_steps ltac:(apply (frame__text_lite_rows (λ d, wire d = l))).
Qed.

Lemma emits_text_pages {R} sched (page : Z → St Call (list R)) payload max_results :
  (∀ s, emits (λ c, wire (self c)) Q 1 (page s)) →
  emits wire Q (length (text_slist max_results).1)
    (text_pages sched page payload max_results).
Proof.
  intros Hpage. unfold text_pages. destruct (text_slist max_results) as [slist cut].
  cbn [fst]. apply emits_before; [|intros; apply keeps_lift].
  apply emits_with_locals. eapply emits_weaken; [apply emits_executor_map, Hpage|lia].
Qed.

Lemma emits_text sched keywords region safesearch timelimit backend max_results :
  emits wire Q (1 + length (text_slist max_results).1)
    (text sched keywords region safesearch timelimit backend max_results).
Proof.
  assert (∀ keywords, emits wire Q 1 (_get_vqd keywords)) as Hvqd.
  { intros kw. apply emits__get_vqd, Q_endpoints. cbn. by left. }
  assert (∀ A e n, emits wire Q n (@raise DDGS A e)) as Hraise.
  { intros A e n. eapply emits_weaken; [apply emits_silent; intros l; apply keeps_raise|lia]. }
  unfold text.
  destruct (decide (_ = "api"));
    [|destruct (decide (_ = "html")); [|destruct (decide (_ = "lite")); [|apply Hraise]]].
  - unfold _text_api. destruct (negb (Py.truthy_str keywords)); [apply Hraise|].
    apply emits_bind; [apply Hvqd|]. intros vqd.
    apply emits_text_pages, emits__text_api_page.
  - unfold _text_html. destruct (negb (Py.truthy_str keywords)); [apply Hraise|].
    cbn zeta. apply emits_bind.
    + destruct (Py.truthy_int max_results && _).
      * apply emits_before; [apply Hvqd|]. intros; apply keeps_ret.
      * eapply emits_weaken; [apply emits_silent; intros l; apply keeps_ret|lia].
    + intros payload. apply emits_text_pages, emits__text_html_page.
  - unfold _text_lite. destruct (negb (Py.truthy_str keywords)); [apply Hraise|].
    cbn zeta. eapply emits_weaken; [apply emits_text_pages, emits__text_lite_page|lia].
Qed.

End TextCount.

Section TextBudget.
Context `{Client} `{Utils} `{Lxml}.

(** X3.  Whatever the backend, the order of the pages and the answers of
    the network, a call of [text] leaves the requests sent before it on the
    wire as they were and adds at most one request for the token and one
    for every page offset: at most 42 in all, at most two without
    [max_results]; and every one of them goes to the token endpoint or to
    one of the three text endpoints. *)
Theorem text_request_budget (self : DDGS) sched keywords region safesearch timelimit
    backend max_results :
  ∃ reqs,
    wire (text sched keywords region safesearch timelimit backend max_results self).2
    = wire self ++ reqs ∧
    (length reqs ≤ 1 + length (text_slist max_results).1)%nat ∧
    (length reqs ≤ 42)%nat ∧
    (max_results = None → (length reqs ≤ 2)%nat) ∧
    Forall (λ req, url req ∈ text_endpoints) reqs.
Proof.
  destruct (emits_text (λ req, url req ∈ text_endpoints) (λ _ Hreq, Hreq)
              sched keywords region safesearch timelimit backend max_results self)
    as (reqs & Hwire & Hlen & Hurl).
  pose proof (text_slist_length max_results).
  exists reqs. split; [done|]. split; [done|]. split; [lia|]. split; [|done].
  intros ->. cbn in Hlen. lia.
Qed.

End TextBudget.

(** ** The pool when the tasks fare alike *)

Lemma result_of_Some {B} (i : nat) (done : list (nat * Res B)) :
  i ∈ done.*1 → ∃ r, result_of i done = Some r ∧ (i, r) ∈ done.
Proof.
  induction done as [|[j r] done IH]; [by intros ?%elem_of_nil|].
  rewrite fmap_cons. cbn [fst result_of]. intros Hin.
  destruct (decide (j = i)) as [->|Hne].
  - exists r. split; [done|by left].
  - apply elem_of_cons in Hin as [->|Hin]; [done|].
    destruct (IH Hin) as (r' & ? & ?). exists r'. split; [done|by right].
Qed.

Lemma run_in_order_all {S A B} (fn : A → St S B) (P : S → Prop) (R : Res B → Prop)
    (tasks : list (nat * A)) (s : S) :
  (∀ a s, P s → R (fn a s).1 ∧ P (fn a s).2) → P s →
  (∀ i r, (i, r) ∈ (run_in_order fn tasks s).1 → R r) ∧ P (run_in_order fn tasks s).2.
Proof.
  intros Hfn. revert s. induction tasks as [|[i a] tasks IH]; intros s Hs.
  - split; [by intros ? ? ?%elem_of_nil|done].
  - cbn [run_in_order]. destruct (Hfn a s Hs) as [Hr Hs1].
    destruct (fn a s) as [r s1]. cbn [fst snd] in *.
    destruct (IH s1 Hs1) as [Hall Hs2].
    destruct (run_in_order fn tasks s1) as [done s2]. cbn [fst snd] in *.
    split; [|done]. intros j r' [[= -> ->]|Hin]%elem_of_cons; [done|by eapply Hall].
Qed.

Lemma run_order_indices {A} (sched : list nat) (args : list A) :
  (run_order sched args).*1 ≡ₚ seq 0 (length args).
Proof. rewrite <- imap_pair_indices. apply fmap_Permutation, run_order_perm. Qed.

(** When every task raises the same error, so does the pool. *)
Lemma executor_map_all_raise {S A B} (P : S → Prop) (e : Exn) (sched : list nat)
    (fn : A → St S B) (args : list A) (s : S) :
  (∀ a s, P s → (fn a s).1 = Raise e ∧ P (fn a s).2) → P s → args ≠ [] →
  (executor_map sched fn args s).1 = Raise e ∧ P (executor_map sched fn args s).2.
Proof.
  intros Hfn Hs Hargs. rewrite executor_map_run_order. cbn [fst snd].
  destruct (run_in_order_all fn P (λ r, r = Raise e) (run_order sched args) s Hfn Hs)
    as [Hall HP].
  split; [|done]. destruct args as [|a args]; [done|]. cbn [length yield_results].
  destruct (result_of_Some 0 (run_in_order fn (run_order sched (a :: args)) s).1)
    as (r & Hr & Hin).
  { rewrite run_in_order_indices, run_order_indices. cbn [length seq]. by left. }
  rewrite Hr. by rewrite (Hall 0%nat r Hin).
Qed.

(** When the pool yields, the last task to run returned. *)
Lemma run_in_order_last {S A B} (fn : A → St S B) (F : S → Prop)
    (tasks : list (nat * A)) (s : S) :
  tasks ≠ [] →
  (∀ a s b s', fn a s = (Ok b, s') → F s') →
  (∀ i r, (i, r) ∈ (run_in_order fn tasks s).1 → ∃ b, r = Ok b) →
  F (run_in_order fn tasks s).2.
Proof.
  intros Hne Hfn. revert s Hne. induction tasks as [|[i a] tasks IH]; intros s Hne Hall; [done|].
  cbn [run_in_order] in *. destruct (fn a s) as [r s1] eqn:Hrun.
  destruct tasks as [|t tasks'].
  - cbn in *. destruct (Hall i r) as [b ->]; [by left|]. by eapply Hfn.
  - specialize (IH s1 ltac:(done)).
    destruct (run_in_order fn (t :: tasks') s1) as [done s2]. cbn [fst snd] in *.
    apply IH. intros j r' Hin. apply (Hall j r'). by right.
Qed.

Lemma executor_map_last {S A B} (F : S → Prop) (sched : list nat) (fn : A → St S B)
    (args : list A) (s s' : S) (bs : list B) :
  args ≠ [] →
  (∀ a s b s', fn a s = (Ok b, s') → F s') →
  executor_map sched fn args s = (Ok bs, s') → F s'.
Proof.
  intros Hargs Hfn Hmap.
  destruct (executor_map_Ok _ _ _ _ _ _ Hmap) as [_ Hdone].
  rewrite executor_map_run_order in Hmap. injection Hmap as _ <-.
  apply run_in_order_last; [|done|].
  - intros Hnil. pose proof (run_order_indices sched args) as Hperm.
    rewrite Hnil in Hperm. apply Permutation_length in Hperm.
    rewrite length_seq in Hperm. by destruct args.
  - intros i r Hin. destruct (Hdone i r Hin) as (b & -> & _). by exists b.
Qed.

Lemma text_slist_cons (max_results : option Z) : (text_slist max_results).1 ≠ [].
Proof. unfold text_slist, slist_of. by destruct (Py.truthy_int max_results). Qed.

(** ** A search on an instance that has tripped *)

Section FailFast.
Context `{Client} `{Utils} `{Lxml}.

Lemma _text_api_page_tripped (keywords : string) (s : Z) (c : Call) :
  _exception_event (self c) = true →
  (_text_api_page keywords s c).1
  = Raise (DuckDuckGoSearchException (JStr "Exception occurred in previous call.")) ∧
  self (_text_api_page keywords s c).2 = self c.
Proof.
  intros Hflag. unfold _text_api_page, _text_api_fetch, bind, modify, get, on_self.
  cbn [self payload_set]. by rewrite _get_url_tripped.
Qed.

Lemma _text_html_page_tripped (s : Z) (c : Call) :
  _exception_event (self c) = true →
  (_text_html_page s c).1
  = Raise (DuckDuckGoSearchException (JStr "Exception occurred in previous call.")) ∧
  self (_text_html_page s c).2 = self c.
Proof.
  intros Hflag. unfold _text_html_page, bind, modify, get, on_self.
  cbn [self payload_set]. by rewrite _get_url_tripped.
Qed.

Lemma _text_lite_page_tripped (s : Z) (c : Call) :
  _exception_event (self c) = true →
  (_text_lite_page s c).1
  = Raise (DuckDuckGoSearchException (JStr "Exception occurred in previous call.")) ∧
  self (_text_lite_page s c).2 = self c.
Proof.
  intros Hflag. unfold _text_lite_page, bind, modify, get, on_self.
  cbn [self payload_set]. by rewrite _get_url_tripped.
Qed.

Lemma _get_vqd_tripped (keywords : string) (d : DDGS) :
  _exception_event d = true →
  _get_vqd keywords d
  = (Raise (DuckDuckGoSearchException (JStr "Exception occurred in previous call.")), d).
Proof. intros Hflag. unfold _get_vqd, bind. by rewrite _get_url_tripped. Qed.

Lemma text_pages_tripped {R} sched (page : Z → St Call (list R)) payload max_results
    (d : DDGS) (e : Exn) :
  (∀ s c, self c = d → (page s c).1 = Raise e ∧ self (page s c).2 = d) →
  text_pages sched page payload max_results d = (Raise e, d).
Proof.
  intros Hpage. unfold text_pages. pose proof (text_slist_cons max_results) as Hcons.
  destruct (text_slist max_results) as [slist cut]. cbn [fst] in Hcons.
  unfold bind, with_locals.
  destruct (executor_map_all_raise (λ c, self c = d) e sched page slist
              {| self := d; cache := ∅; payload := payload |} Hpage eq_refl Hcons)
    as [Hr Hd].
  destruct (executor_map sched page slist _) as [r c]. cbn [fst snd] in *. by subst.
Qed.

(** X4.  On an instance that has tripped, a text search of any of the
    three backends, with keywords, raises the error of the previous call:
    nothing goes on the wire and the instance stays as it was, whatever the
    number of pages asked for and the order the pool takes them in. *)
Theorem text_fails_fast (self : DDGS) sched keywords region safesearch timelimit
    backend max_results :
  _exception_event self = true → keywords ≠ "" → backend ∈ ["api"; "html"; "lite"] →
  text sched keywords region safesearch timelimit backend max_results self
  = (Raise (DuckDuckGoSearchException (JStr "Exception occurred in previous call.")), self).
Proof.
  intros Hflag Hkeywords Hbackend.
  assert (negb (Py.truthy_str keywords) = false) as Hgiven by (by destruct keywords).
  assert (∀ payload,
            text_pages sched (_text_api_page keywords) payload max_results self
            = (Raise (DuckDuckGoSearchException (JStr "Exception occurred in previous call.")),
               self)) as Hapi.
  { intros payload. apply text_pages_tripped. intros s c Hc.
    destruct (_text_api_page_tripped keywords s c) as [? ?]; by subst. }
  assert (∀ payload,
            text_pages sched _text_html_page payload max_results self
            = (Raise (DuckDuckGoSearchException (JStr "Exception occurred in previous call.")),
               self)) as Hhtml.
  { intros payload. apply text_pages_tripped. intros s c Hc.
    destruct (_text_html_page_tripped s c) as [? ?]; by subst. }
  assert (∀ payload,
            text_pages sched _text_lite_page payload max_results self
            = (Raise (DuckDuckGoSearchException (JStr "Exception occurred in previous call.")),
               self)) as Hlite.
  { intros payload. apply text_pages_tripped. intros s c Hc.
    destruct (_text_lite_page_tripped s c) as [? ?]; by subst. }
  assert (_text_api sched keywords region safesearch timelimit max_results self
          = (Raise (DuckDuckGoSearchException (JStr "Exception occurred in previous call.")),
             self)) as Hrun_api.
  { unfold _text_api. rewrite Hgiven. unfold bind at 1. by rewrite _get_vqd_tripped. }
  unfold text. destruct (negb LXML_AVAILABLE && negb (bool_decide (backend = "api"))).
  { by destruct (decide ("api" = "api")). }
  destruct (decide (backend = "api")); [done|].
  destruct (decide (backend = "html")).
  { unfold _text_html. rewrite Hgiven. cbn zeta. unfold bind at 1.
    destruct (Py.truthy_int max_results && _).
    - unfold bind at 1. by rewrite _get_vqd_tripped.
    - unfold ret. apply Hhtml. }
  destruct (decide (backend = "lite")).
  { unfold _text_lite. rewrite Hgiven. apply Hlite. }
  repeat (apply elem_of_cons in Hbackend as [Hbackend|Hbackend]; [done|]).
  by apply elem_of_nil in Hbackend.
Qed.

End FailFast.

(** ** When a search trips the instance *)

Section Trips.
Context `{Client} `{Utils} `{Lxml}.

Lemma on_self__get_url_Ok method url params content data (c c' : Call) body :
  on_self (_get_url method url params content data) c = (Ok body, c') →
  _exception_event (self c') = false.
Proof.
  unfold on_self. destruct (_get_url _ _ _ _ _ (self c)) as [r d] eqn:Hcall.
  intros [= -> <-]. by apply _get_url_Ok in Hcall as [_ ?].
Qed.


Lemma _text_api_page_open (keywords : string) (s : Z) (c c' : Call) rs :
  _text_api_page keywords s c = (Ok rs, c') → _exception_event (self c') = false.
Proof.
  unfold _text_api_page. intros Hrun.
  apply bind_Ok in Hrun as (rows & c1 & Hfetch & Hrows).
  apply _text_api_fetch_Ok in Hfetch as [_ Hflag].
  assert (keeps (λ c, _exception_event (self c) = false)
            (for_each (_text_api_row keywords) rows)) as Hkeeps
    by (unfold _text_api_row; keeps_steps).
  specialize (Hkeeps c1 Hflag). by rewrite Hrows in Hkeeps.
Qed.

Lemma _text_html_page_open (s : Z) (c c' : Call) rs :
  _text_html_page s c = (Ok rs, c') → _exception_event (self c') = false.
Proof.
  unfold _text_html_page. intros Hrun.
  apply bind_Ok in Hrun as ([] & c1 & _ & Hrun).
  apply bind_Ok in Hrun as (c2 & c3 & _ & Hrun).
  apply bind_Ok in Hrun as (body & c4 & Hurl & Hrest).
  apply on_self__get_url_Ok in Hurl.
  assert (keeps (λ c, _exception_event (self c) = false)
            (if Py.contains "No  results." body then ret []
             else elements <- lift (html_divs body) ;; for_each _text_html_row elements))
    as Hkeeps by (unfold _text_html_row; keeps_steps).
  specialize (Hkeeps c4 Hurl). by rewrite Hrest in Hkeeps.
Qed.

Lemma _text_lite_page_open (s : Z) (c c' : Call) rs :
  _text_lite_page s c = (Ok rs, c') → _exception_event (self c') = false.
Proof.
  unfold _text_lite_page. intros Hrun.
  apply bind_Ok in Hrun as ([] & c1 & _ & Hrun).
  apply bind_Ok in Hrun as (c2 & c3 & _ & Hrun).
  apply bind_Ok in Hrun as (body & c4 & Hurl & Hrest).
  apply on_self__get_url_Ok in Hurl.
  assert (keeps (λ c, _exception_event (self c) = false)
            (if Py.contains "No more results." body then ret []
             else elements <- lift (lite_trs body) ;;
                  _text_lite_rows (length elements) (0%nat, elements) None ""))
    as Hkeeps.
  { frame_steps ltac:(apply (frame__text_lite_rows (λ d, _exception_event d = false))). }
  specialize (Hkeeps c4 Hurl). by rewrite Hrest in Hkeeps.
Qed.

Lemma text_pages_open {R} sched (page : Z → St Call (list R)) payload max_results
    (d d' : DDGS) (l : list R) :
  (∀ s c rs c', page s c = (Ok rs, c') → _exception_event (self c') = false) →
  text_pages sched page payload max_results d = (Ok l, d') → _exception_event d' = false.
Proof.
  intros Hpage. unfold text_pages. pose proof (text_slist_cons max_results) as Hcons.
  destruct (text_slist max_results) as [slist cut]. cbn [fst] in Hcons.
  intros Hrun. apply bind_Ok in Hrun as (pages & d1 & Hpages & Hcut).
  unfold lift in Hcut. injection Hcut as _ <-. unfold with_locals in Hpages.
  destruct (executor_map sched page slist _) as [r c] eqn:Hmap. injection Hpages as -> <-.
  by apply (executor_map_last (λ c, _exception_event (self c) = false) _ _ _ _ _ _
              Hcons Hpage Hmap).
Qed.

Lemma text_open (d d' : DDGS) sched keywords region safesearch timelimit backend
    max_results (l : list (gmap string string)) :
  text sched keywords region safesearch timelimit backend max_results d = (Ok l, d') →
  _exception_event d' = false.
Proof.
  unfold text.
  destruct (decide (_ = "api"));
    [|destruct (decide (_ = "html")); [|destruct (decide (_ = "lite")); [|done]]].
  - unfold _text_api. destruct (negb (Py.truthy_str keywords)); [done|].
    intros Hrun. apply bind_Ok in Hrun as (vqd & d1 & _ & Hrun).
    eapply text_pages_open; [|done]. intros ? ? ? ?. apply _text_api_page_open.
  - unfold _text_html. destruct (negb (Py.truthy_str keywords)); [done|]. cbn zeta.
    intros Hrun. apply bind_Ok in Hrun as (payload & d1 & _ & Hrun).
    eapply text_pages_open; [|done]. intros ? ? ? ?. apply _text_html_page_open.
  - unfold _text_lite. destruct (negb (Py.truthy_str keywords)); [done|]. cbn zeta.
    apply text_pages_open. intros ? ? ? ?. apply _text_lite_page_open.
Qed.

(** X5.  A text search trips an instance only by a request of its own
    that was refused: if the instance had not tripped before the call and
    has tripped after it, then the search raised, and among the requests it
    put on the wire there is one that was answered by something other than
    a response of status 200.  A search that returns leaves the latch
    open. *)
Theorem text_trips_on_refusal (self : DDGS) sched keywords region safesearch timelimit
    backend max_results :
  _exception_event self = false →
  let r := (text sched keywords region safesearch timelimit backend max_results self).1 in
  let self' := (text sched keywords region safesearch timelimit backend max_results self).2 in
  (_exception_event self' = true →
   is_Ok r = false ∧ refused_since (length (wire self)) self') ∧
  (is_Ok r = true → _exception_event self' = false).
Proof.
  intros Hflag r self'. subst r self'.
  pose proof (frame_text (trip_explained (length (wire self)))
                (_get_url_explained (length (wire self))) sched keywords region safesearch
                timelimit backend max_results self) as Hexplained.
  destruct (text sched keywords region safesearch timelimit backend max_results self)
    as [[l|e] self'] eqn:Hrun; cbn [fst snd is_Ok] in *.
  - apply text_open in Hrun. split; [congruence|done].
  - split; [|done]. intros Hset. split; [done|]. apply Hexplained; [|done].
    split; [done|]. intros Hwas. congruence.
Qed.

End Trips.

(** ** Search and chat *)

Section Sides.
Context `{Client} `{Utils} `{Lxml} `{Places}.

Lemma chat_keeps_latch (b : bool) keywords model timeout :
  keeps (λ d, _exception_event d = b) (chat keywords model timeout).
Proof.
  unfold chat, chat_request, client_call.
  assert (∀ req, keeps (λ d, _exception_event d = b) (send req)) by (by intros req d).
  keeps_steps.
Qed.

(** X6.  The search side and the chat side of an instance leave each other
    alone.  A text search and a maps search change neither the history of
    the conversation nor its token nor the count of its tokens, whether
    they return or raise; a chat changes the latch in neither direction,
    whether it returns or raises. *)
Theorem search_and_chat_apart (self : DDGS) sched keywords region safesearch timelimit
    backend max_results rounds vqd start_bbox model timeout :
  let searched :=
    (text sched keywords region safesearch timelimit backend max_results self).2 in
  let mapped := (maps_from rounds keywords vqd start_bbox max_results self).2 in
  let chatted := (chat keywords model timeout self).2 in
  (_chat_messages searched = _chat_messages self ∧
   _chat_tokens_count searched = _chat_tokens_count self ∧
   _chat_vqd searched = _chat_vqd self) ∧
  (_chat_messages mapped = _chat_messages self ∧
   _chat_tokens_count mapped = _chat_tokens_count self ∧
   _chat_vqd mapped = _chat_vqd self) ∧
  _exception_event chatted = _exception_event self.
Proof.
  cbn zeta.
  set (P := λ (m : list (gmap string string)) (n : Z) (v : string),
              m = _chat_messages self ∧ n = _chat_tokens_count self ∧ v = _chat_vqd self).
  split; [|split].
  - apply (frame_text (λ d, P (_chat_messages d) (_chat_tokens_count d) (_chat_vqd d))
             (_get_url_session P)). done.
  - apply (frame_maps_from (λ d, P (_chat_messages d) (_chat_tokens_count d) (_chat_vqd d))
             (_get_url_session P)). done.
  - by apply (chat_keeps_latch (_exception_event self)).
Qed.

End Sides.

(** ** One round of [maps] *)

Section MapsRounds.
Context `{Client} `{Utils} `{Places}.

Lemma emits__maps_page (Q : Request → Prop) keywords vqd max_results n bbox :
  (∀ req, url req = "https://duckduckgo.com/local.js" → Q req) →
  emits (λ c, wire (self c)) Q 1 (_maps_page keywords vqd max_results n bbox).
Proof.
  intros HQ. unfold _maps_page. destruct (_ && _).
  { eapply emits_weaken; [apply emits_silent; intros l; apply keeps_ret|lia]. }
  destruct bbox as [[[lat_t lon_l] lat_b] lon_r]. cbn zeta.
  apply emits_before; [by apply emits_on_self, emits__get_url, HQ|].
  intros body l. unfold _maps_row. keeps_steps.
Qed.

Lemma maps_rounds_done fuel sched keywords vqd max_results vars results (c : Call) :
  maps_rounds fuel sched keywords vqd max_results vars [] results c = (Ok results, c).
Proof. by destruct fuel. Qed.

(** X7.  Without [max_results] (or with 0), and also when the start square
    is narrow, [maps] makes one round: it is the page of the start square
    with the cut of [islice] after it, so it sends one request for places
    at most, however the round went. *)
Theorem maps_single_round (self : DDGS) sched keywords vqd start_bbox max_results :
  Py.truthy_int max_results = false ∨ wide start_bbox = false →
  maps_from sched keywords vqd start_bbox max_results self
  = (page <- with_locals ∅ (_maps_page keywords vqd max_results 0 start_bbox) ;;
     lift (Py.islice (default [] page) max_results)) self ∧
  ∃ reqs,
    wire (maps_from sched keywords vqd start_bbox max_results self).2 = wire self ++ reqs ∧
    (length reqs ≤ 1)%nat.
Proof.
  intros Hone.
  assert (maps_from sched keywords vqd start_bbox max_results self
          = (page <- with_locals ∅ (_maps_page keywords vqd max_results 0 start_bbox) ;;
             lift (Py.islice (default [] page) max_results)) self) as Heq.
  { unfold maps_from, bind, with_locals. cbn [maps_rounds].
    rewrite maps_queue_cons. cbn [maps_queue].
    assert (∀ A (k : BBox → list BBox → A),
              (let '(vars, queue) :=
                 if wide start_bbox then (start_bbox, quadrants start_bbox ++ [])
                 else (start_bbox, [])
               in k vars queue)
              = k start_bbox (if wide start_bbox then quadrants start_bbox ++ [] else []))
      as Hlet by (intros A k; by destruct (wide start_bbox)).
    cbn [fst snd]. rewrite Hlet. unfold bind. rewrite executor_map_single.
    cbn [length]. destruct (_maps_page keywords vqd max_results 0 start_bbox _)
      as [[page|e] c1]; cbn [fst snd]; [|done].
    cbn [fmap list_fmap concat app]. rewrite app_nil_r.
    destruct Hone as [Hunset|Hnarrow].
    - rewrite Hunset. cbn [negb orb]. done.
    - rewrite Hnarrow. destruct (_ || _); [done|]. by rewrite maps_rounds_done. }
  split; [done|]. rewrite Heq.
  assert (emits wire (λ _, True) 1
            (page <- with_locals ∅ (_maps_page keywords vqd max_results 0 start_bbox) ;;
             lift (Py.islice (default [] page) max_results))) as Hemits.
  { apply emits_before; [|intros; apply keeps_lift].
    by apply emits_with_locals, emits__maps_page. }
  destruct (Hemits self) as (reqs & ? & ? & _). by exists reqs.
Qed.

(** X8.  [maps] with [max_results = N] returns [N] places at most.  With a
    negative [N] it raises [ValueError], and it does so without a request
    for places: every page returns at once, since no results are still as
    many as [N] or more, and the cut of [islice] refuses [N]. *)
Theorem maps_max_results (self : DDGS) sched keywords vqd start_bbox (N : Z) :
  (∀ l self', maps_from sched keywords vqd start_bbox (Some N) self = (Ok l, self') →
     (0 <= N)%Z ∧ (Z.of_nat (length l) <= N)%Z) ∧
  ((N < 0)%Z →
   ∃ msg, maps_from sched keywords vqd start_bbox (Some N) self
          = (Raise (ValueError msg), self)).
Proof.
  split.
  - intros l self' Hrun. unfold maps_from in Hrun.
    apply bind_Ok in Hrun as (results & d1 & _ & Hcut).
    unfold lift, Py.islice in Hcut.
    destruct ((0 <=? N)%Z && (N <=? Py.maxsize)%Z) eqn:Hrange; [|done].
    injection Hcut as <- _. rewrite length_take. lia.
  - intros Hneg. rename self into d. eexists. unfold maps_from, bind, with_locals.
    replace (Z.to_nat (default 0%Z (Some N))) with 0%nat by (cbn; lia).
    cbn [maps_rounds].
    destruct (maps_queue start_bbox [start_bbox]) as [vars queue].
    unfold bind. rewrite executor_map_single. unfold _maps_page.
    replace (Py.truthy_int (Some N) && (default 0 (Some N) <=? Z.of_nat (length []))%Z)
      with true.
    2:{ symmetry. apply andb_true_iff. split.
        - apply negb_true_iff, Z.eqb_neq. lia.
        - apply Z.leb_le. cbn. lia. }
    cbn [ret fst snd fmap list_fmap concat app default length lift Py.islice].
    replace (0 <=? N)%Z with false by (symmetry; apply Z.leb_gt; lia).
    cbn [andb]. by destruct (_ || _ || _).
Qed.

End MapsRounds.

(** ** The html page, link by link *)

Section HtmlProps.
Context `{Client} `{Utils} `{Lxml}.

(** One round of the loop over the elements, by the link of the element. *)
Lemma _text_html_row_step (e : HtmlDiv) (c : Call) :
  _text_html_row e c
  = match html_key e with
    | Some k =>
        if decide (k ∈ cache c) then (Ok [], c) else (Ok [html_result e], cache_add k c)
    | None => (Ok [], c)
    end.
Proof.
  unfold _text_html_row, html_key, html_result, bind, get, modify, ret.
  destruct (head (div_a_href e)) as [href|]; [|done].
  destruct (Py.truthy_str href); [|done]. cbn [andb default].
  destruct (is_ad_link href); cbn [negb].
  - by rewrite andb_false_r.
  - rewrite andb_true_r. destruct (decide (href ∈ cache c)) as [Hin|Hnin].
    + by rewrite bool_decide_eq_false_2 by (by intros ?).
    + by rewrite bool_decide_eq_true_2.
Qed.

Lemma _text_html_rows_spec (elements : list HtmlDiv) (c : Call) :
  for_each _text_html_row elements c
  = (Ok (html_result <$> html_kept (cache c) elements),
     set_cache (html_seen (cache c) elements) c).
Proof.
  revert c. induction elements as [|e elements IH]; intros c.
  - by destruct c.
  - cbn [for_each html_kept html_seen]. unfold bind at 1. rewrite _text_html_row_step.
    destruct (html_key e) as [k|].
    + destruct (decide (k ∈ cache c)).
      * unfold bind, ret. by rewrite IH.
      * unfold bind, ret. rewrite IH. by destruct c.
    + unfold bind, ret. by rewrite IH.
Qed.

Lemma html_key_Some (e : HtmlDiv) (k : string) :
  html_key e = Some k →
  head (div_a_href e) = Some k ∧ k ≠ "" ∧ is_ad_link k = false.
Proof.
  unfold html_key. destruct (head (div_a_href e)) as [href|]; [|done].
  destruct (Py.truthy_str href) eqn:Htruthy; [|done].
  destruct (is_ad_link href) eqn:Had; [done|]. intros [= <-].
  split; [done|]. split; [|done]. by intros ->.
Qed.

(** What the elements kept are: their links are new and differ from one
    another, and the element kept for a link is the first with that
    link. *)
Lemma html_kept_keys (seen : gset string) (elements : list HtmlDiv) :
  NoDup (html_key <$> html_kept seen elements) ∧
  (∀ e, e ∈ html_kept seen elements →
     ∃ k, html_key e = Some k ∧ (k ∉ seen) ∧ e ∈ elements) ∧
  (∀ e k, e ∈ elements → html_key e = Some k → k ∉ seen →
     ∃ first before after,
       elements = before ++ first :: after ∧
       html_key first = Some k ∧
       (∀ r, r ∈ before → html_key r ≠ Some k) ∧
       first ∈ html_kept seen elements).
Proof.
  revert seen. induction elements as [|e0 elements IH]; intros seen.
  - split; [constructor|]. split; [by intros ? ?%elem_of_nil|by intros ? ? ?%elem_of_nil].
  - cbn [html_kept]. destruct (html_key e0) as [k|] eqn:Hkey.
    + destruct (decide (k ∈ seen)) as [Hin|Hnin].
      * destruct (IH seen) as (Hnodup & Hsound & Hfirst). split; [done|]. split.
        -- intros r Hr. destruct (Hsound r Hr) as (k' & ? & ? & ?).
           exists k'. repeat split; [done..|by right].
        -- intros r k' Hr Hk' Hnew. apply elem_of_cons in Hr as [->|Hr]; [congruence|].
           destruct (Hfirst r k' Hr Hk' Hnew) as (first & l1 & l2 & -> & ? & Hbefore & ?).
           exists first, (e0 :: l1), l2. repeat split; [done..| |done].
           intros r' [->|Hr']%elem_of_cons; [congruence|by apply Hbefore].
      * destruct (IH ({[ k ]} ∪ seen)) as (Hnodup & Hsound & Hfirst). split; [|split].
        -- rewrite fmap_cons, Hkey. constructor; [|done].
           intros Hdup. apply list_elem_of_fmap in Hdup as (r & Hr & Hin).
           destruct (Hsound r Hin) as (k' & Hk' & Hnew & _).
           assert (k' = k) as -> by congruence.
           apply Hnew, elem_of_union. left. by apply elem_of_singleton.
        -- intros r [->|Hr]%elem_of_cons.
           ++ exists k. repeat split; [done..|by left].
           ++ destruct (Hsound r Hr) as (k' & ? & Hnew & ?).
              exists k'. repeat split; [done| |by right].
              intros Hseen. apply Hnew, elem_of_union. by right.
        -- intros r k' Hr Hk' Hnew. destruct (decide (k' = k)) as [->|Hne].
           ++ exists e0, [], elements. repeat split; [done| |by left].
              by intros ? ?%elem_of_nil.
           ++ apply elem_of_cons in Hr as [->|Hr]; [congruence|].
              destruct (Hfirst r k' Hr Hk') as (first & l1 & l2 & -> & ? & Hbefore & ?).
              { rewrite elem_of_union, elem_of_singleton. tauto. }
              exists first, (e0 :: l1), l2. repeat split; [done..| |by right].
              intros r' [->|Hr']%elem_of_cons; [congruence|by apply Hbefore].
    + destruct (IH seen) as (Hnodup & Hsound & Hfirst). split; [done|]. split.
      * intros r Hr. destruct (Hsound r Hr) as (k' & ? & ? & ?).
        exists k'. repeat split; [done..|by right].
      * intros r k' Hr Hk' Hnew. apply elem_of_cons in Hr as [->|Hr]; [congruence|].
        destruct (Hfirst r k' Hr Hk' Hnew) as (first & l1 & l2 & -> & ? & Hbefore & ?).
        exists first, (e0 :: l1), l2. repeat split; [done..| |done].
        intros r' [->|Hr']%elem_of_cons; [congruence|by apply Hbefore].
Qed.

(** X9.  The loop of [_text_html_page] over the elements of a page never
    raises.  It gives one result for every element it keeps, in the order
    of the page, and the elements it keeps are these: their links are not
    empty, are no advertisement and no redirection, were not in the cache,
    and differ from one another; and for every such link on the page the
    element kept is the first that carries it. *)
Theorem html_first_occurrences (elements : list HtmlDiv) (c : Call) :
  let kept := html_kept (cache c) elements in
  for_each _text_html_row elements c
  = (Ok (html_result <$> kept), set_cache (html_seen (cache c) elements) c) ∧
  NoDup (html_key <$> kept) ∧
  (∀ e, e ∈ kept →
     ∃ k, head (div_a_href e) = Some k ∧ k ≠ "" ∧ is_ad_link k = false ∧
          (k ∉ cache c) ∧ e ∈ elements) ∧
  (∀ e k, e ∈ elements → html_key e = Some k → k ∉ cache c →
     ∃ first before after,
       elements = before ++ first :: after ∧
       html_key first = Some k ∧
       (∀ r, r ∈ before → html_key r ≠ Some k) ∧
       first ∈ kept).
Proof.
  cbn zeta. destruct (html_kept_keys (cache c) elements) as (Hnodup & Hsound & Hfirst).
  split; [apply _text_html_rows_spec|]. split; [done|]. split; [|done].
  intros e He. destruct (Hsound e He) as (k & Hk & Hnew & Hin).
  destruct (html_key_Some e k Hk) as (? & ? & ?). by exists k.
Qed.

End HtmlProps.

(** ** A chat that returns *)

Section ChatMore.
Context `{Client} `{Utils}.

(** The loop over the fragments returns when no fragment is an error, and
    then with the messages of the fragments, in their order. *)
Lemma chat_fragments_Ok (data results results' : list Json) :
  chat_fragments data results = Ok results' →
  Forall plain_fragment data ∧ results' = results ++ omap fragment_message data.
Proof.
  revert results. induction data as [|v data IH]; intros results.
  - intros [= <-]. split; [constructor|]. by rewrite app_nil_r.
  - destruct v as [| | | | |items|x]; try done. cbn [chat_fragments omap list_omap].
    destruct (Py.eq_str (Py.assoc "action" x) "error") eqn:Herr.
    { by destruct (Py.eq_int _ _). }
    assert (plain_fragment (JObj x)) as Hplain.
    { exists x. split; [done|]. unfold error_fragment. by rewrite Herr. }
    cbn [fragment_message].
    destruct (Py.assoc "message" x) as [message|].
    + destruct (Py.truthy message).
      * intros Hrun. destruct (IH _ Hrun) as [Hdata ->].
        split; [by constructor|]. by rewrite <- app_assoc.
      * intros Hrun. destruct (IH _ Hrun) as [Hdata ->]. split; [by constructor|done].
    + intros Hrun. destruct (IH _ Hrun) as [Hdata ->]. split; [by constructor|done].
Qed.

(** What [chat_request] has done when it returns. *)
Lemma chat_request_Ok (self self1 : DDGS) keywords model timeout resp :
  chat_request keywords model timeout self = (Ok resp, self1) →
  ∃ model_id w req,
    models !! model = Some model_id ∧
    wire self1 = w ++ [req] ∧
    client_request w req = Responded resp ∧
    req = {| method := "POST"; url := "https://duckduckgo.com/duckchat/v1/chat";
             params := None; content := None; data := None;
             headers := Some {[ "x-vqd-4" := _chat_vqd self1 ]};
             json := Some {| model := model_id;
                             messages := _chat_messages self ++ [turn "user" keywords] |};
             timeout := Some timeout |} ∧
    _chat_messages self1 = _chat_messages self ++ [turn "user" keywords] ∧
    _chat_tokens_count self1
    = (_chat_tokens_count self
       + (if (4 <=? Z.of_nat (String.length keywords))%Z
          then Z.of_nat (String.length keywords) / 4 else 1))%Z ∧
    _exception_event self1 = _exception_event self ∧
    (_chat_vqd self ≠ "" → _chat_vqd self1 = _chat_vqd self ∧ w = wire self).
Proof.
  unfold chat_request, client_call, bind, get, modify, send, lift, ret, raise.
  cbn [fst snd].
  destruct (Py.truthy_str (_chat_vqd self)) eqn:Htoken; cbn [negb fst snd].
  - unfold Py.getitem. destruct (models !! model) as [model_id|]; [|done].
    cbn [wire append_chat_message add_chat_tokens _chat_vqd _chat_messages set_wire].
    destruct (client_request _ _) as [resp'|type_name text] eqn:Hout; [|done].
    intros [= -> <-]. eexists model_id, _, _. split; [done|].
    split; [reflexivity|]. split; [exact Hout|]. done.
  - destruct (client_request (wire self) _) as [status|type_name text]; [|done].
    cbn [fst snd]. unfold Py.getitem. destruct (models !! model) as [model_id|]; [|done].
    cbn [wire append_chat_message add_chat_tokens _chat_vqd _chat_messages set_wire
         set_chat_vqd].
    destruct (client_request _ _) as [resp'|type_name text] eqn:Hout; [|done].
    intros [= -> <-]. eexists model_id, _, _. split; [done|].
    split; [reflexivity|]. split; [exact Hout|]. repeat split; try done.
    all: by destruct (_chat_vqd self).
Qed.

(** X10.  When [chat] returns, the answer to its request held no error
    fragment and the text returned is the messages of the fragments put
    together in their order; the history has grown by the user turn and,
    after it, the assistant turn with that text; the count of tokens has
    grown by the estimate for the prompt and by one for every message; the
    token of the session is the one of the answer (empty if it carries
    none); and the request, the last on the wire, carried the whole
    history with the user turn at its end. *)
Theorem chat_returns (self self' : DDGS) keywords model timeout (result : string) :
  chat keywords model timeout self = (Ok result, self') →
  ∃ resp data model_id w req,
    wire self' = w ++ [req] ∧ client_request w req = Responded resp ∧
    url req = "https://duckduckgo.com/duckchat/v1/chat" ∧
    json req = Some {| model := model_id;
                       messages := _chat_messages self ++ [turn "user" keywords] |} ∧
    models !! model = Some model_id ∧
    chat_decode (resp_content resp) = Ok data ∧
    Forall plain_fragment data ∧
    join_messages (omap fragment_message data) = Ok result ∧
    _chat_messages self'
    = _chat_messages self ++ [turn "user" keywords; turn "assistant" result] ∧
    _chat_tokens_count self'
    = (_chat_tokens_count self
       + (if (4 <=? Z.of_nat (String.length keywords))%Z
          then Z.of_nat (String.length keywords) / 4 else 1)
       + Z.of_nat (length (omap fragment_message data)))%Z ∧
    _chat_vqd self' = default "" (resp_headers resp !! "x-vqd-4").
Proof.
  intros Hrun. unfold chat in Hrun.
  apply bind_Ok in Hrun as (resp & self1 & Hreq & Hrun).
  apply bind_Ok in Hrun as ([] & self2 & [= <-] & Hrun).
  apply bind_Ok in Hrun as (data & self3 & [= Hdecode <-] & Hrun).
  apply bind_Ok in Hrun as (results & self4 & [= Hfragments <-] & Hrun).
  apply bind_Ok in Hrun as (result' & self5 & [= Hjoin <-] & Hrun).
  apply bind_Ok in Hrun as ([] & self6 & [= <-] & Hrun).
  apply bind_Ok in Hrun as ([] & self7 & [= <-] & [= -> <-]).
  apply chat_request_Ok in Hreq
    as (model_id & w & req & Hmodel & Hwire & Hout & -> & Hhistory & Htokens & _ & _).
  apply chat_fragments_Ok in Hfragments as [Hplain ->]. cbn [app] in *.
  eexists resp, data, model_id, w, _. cbn.
  rewrite Hwire, Hhistory, Htokens, <- app_assoc.
  split; [reflexivity|]. split; [exact Hout|]. done.
Qed.

(** X11.  A model that [chat] does not know is found out late: the prompt
    is in the history and in the count of tokens by then, and a session
    without a token has asked for one.  The call raises [KeyError] (or the
    error of the request for the token), and no chat request goes on the
    wire. *)
Theorem chat_unknown_model (self : DDGS) keywords model timeout :
  models !! model = None →
  let r := (chat keywords model timeout self).1 in
  let self' := (chat keywords model timeout self).2 in
  (∃ reqs, wire self' = wire self ++ reqs ∧
           Forall (λ req, url req = "https://duckduckgo.com/duckchat/v1/status") reqs ∧
           (_chat_vqd self ≠ "" → reqs = [])) ∧
  ((r = Raise (KeyError model) ∧
    _chat_messages self' = _chat_messages self ++ [turn "user" keywords] ∧
    _chat_tokens_count self'
    = (_chat_tokens_count self
       + (if (4 <=? Z.of_nat (String.length keywords))%Z
          then Z.of_nat (String.length keywords) / 4 else 1))%Z) ∨
   (∃ type_name text, r = Raise (ForeignError type_name text) ∧ _chat_vqd self = "" ∧
                      _chat_messages self' = _chat_messages self)).
Proof.
  intros Hmodel. cbn zeta.
  unfold chat, chat_request, client_call, bind, get, modify, send, lift, ret, raise.
  cbn [fst snd]. unfold Py.getitem.
  destruct (Py.truthy_str (_chat_vqd self)) eqn:Htoken; cbn [negb fst snd].
  - rewrite Hmodel. cbn. split; [|by left].
    exists []. rewrite app_nil_r. split; [done|]. split; [constructor|done].
  - assert (_chat_vqd self = "") as Hempty by (by destruct (_chat_vqd self)).
    destruct (client_request (wire self) _) as [status|type_name text]; cbn [fst snd].
    + rewrite Hmodel. cbn. split; [|by left].
      eexists [_]. split; [done|]. split; [by repeat constructor|]. by rewrite Hempty.
    + cbn. split; [|right; by eexists _, _].
      eexists [_]. split; [done|]. split; [by repeat constructor|]. by rewrite Hempty.
Qed.

(** X12.  In a session that has a token, [chat] with a model it knows
    sends one request and no more: the chat request, with the token of the
    session in its header and, as messages, the whole history of the
    session with the new prompt as the user turn at its end. *)
Theorem chat_sends_history (self : DDGS) keywords model model_id timeout :
  _chat_vqd self ≠ "" → models !! model = Some model_id →
  wire (chat keywords model timeout self).2
  = wire self
    ++ [ {| method := "POST"; url := "https://duckduckgo.com/duckchat/v1/chat";
            params := None; content := None; data := None;
            headers := Some {[ "x-vqd-4" := _chat_vqd self ]};
            json := Some {| model := model_id;
                            messages := _chat_messages self ++ [turn "user" keywords] |};
            timeout := Some timeout |} ].
Proof.
  intros Htoken Hmodel.
  assert (Py.truthy_str (_chat_vqd self) = true) as Htruthy
    by (by destruct (_chat_vqd self)).
  unfold chat. unfold bind at 1.
  destruct (chat_request keywords model timeout self) as [[resp|e] self1] eqn:Hreq.
  - apply chat_request_Ok in Hreq
      as (mid & w & req & Hmid & Hwire & _ & -> & _ & _ & _ & Hsame).
    destruct (Hsame Htoken) as [Hvqd ->]. rewrite Hvqd in Hwire.
    assert (mid = model_id) as -> by congruence.
    match goal with
    | |- wire (?m ?s).2 = _ =>
        assert (keeps (λ d, wire d = wire self1) m) as Hkeeps by keeps_steps;
        rewrite (Hkeeps s)
    end; done.
  - cbn [snd]. revert Hreq.
    unfold chat_request, client_call, bind, get, modify, send, lift, ret, raise.
    cbn [fst snd]. rewrite Htruthy. cbn [negb fst snd]. unfold Py.getitem. rewrite Hmodel.
    cbn [wire append_chat_message add_chat_tokens _chat_vqd _chat_messages set_wire].
    destruct (client_request _ _); [done|]. by intros [= _ <-].
Qed.

End ChatMore.

(** * The searches that answer in JSON *)

(** ** Their locals *)

Lemma keeps_media_on_self {A} (P : DDGS → Prop) (m : St DDGS A) :
  keeps P m → keeps (λ c, P (Media.self c)) (Media.on_self m).
Proof.
  intros Hm c Hc. unfold Media.on_self. specialize (Hm (Media.self c) Hc).
  destruct (m (Media.self c)) as [r d]. done.
Qed.

Lemma keeps_media_with_locals {A} (P : DDGS → Prop) payload (m : St Media.Call A) :
  keeps (λ c, P (Media.self c)) m → keeps P (Media.with_locals payload m).
Proof.
  intros Hm d Hd. unfold Media.with_locals.
  specialize (Hm {| Media.self := d; Media.cache := []; Media.payload := payload |} Hd).
  destruct (m _) as [r c]. done.
Qed.

Lemma emits_media_on_self {A} (Q : Request → Prop) (n : nat) (m : St DDGS A) :
  emits wire Q n m → emits (λ c, wire (Media.self c)) Q n (Media.on_self m).
Proof.
  intros Hm c. unfold Media.on_self. destruct (Hm (Media.self c)) as (reqs & ? & ? & ?).
  destruct (m (Media.self c)) as [r d]. by exists reqs.
Qed.

Lemma emits_media_with_locals {A} (Q : Request → Prop) (n : nat) payload
    (m : St Media.Call A) :
  emits (λ c, wire (Media.self c)) Q n m → emits wire Q n (Media.with_locals payload m).
Proof.
  intros Hm d. unfold Media.with_locals.
  destruct (Hm {| Media.self := d; Media.cache := []; Media.payload := payload |})
    as (reqs & ? & ? & ?).
  destruct (m _) as [r c]. by exists reqs.
Qed.

Ltac media_steps known :=
  frame_steps ltac:(first [known | apply keeps_media_on_self | apply keeps_media_with_locals]).

Section MediaPages.
Context `{Client} `{Utils} `{Values}.

Lemma _images_page_eq : _images_page = media_page "https://duckduckgo.com/i.js" _images_row.
Proof. reflexivity. Qed.

Lemma _videos_page_eq : _videos_page = media_page "https://duckduckgo.com/v.js" _videos_row.
Proof. reflexivity. Qed.

Lemma _news_page_eq : _news_page = media_page "https://duckduckgo.com/news.js" _news_row.
Proof. reflexivity. Qed.

(** The loop bodies do not touch the instance. *)
Lemma _images_row_self (P : DDGS → Prop) row : keeps (λ c, P (Media.self c)) (_images_row row).
Proof. unfold _images_row. media_steps fail. Qed.

Lemma _videos_row_self (P : DDGS → Prop) row : keeps (λ c, P (Media.self c)) (_videos_row row).
Proof. unfold _videos_row. media_steps fail. Qed.

Lemma _news_row_self (P : DDGS → Prop) row : keeps (λ c, P (Media.self c)) (_news_row row).
Proof. unfold _news_row. media_steps fail. Qed.

Lemma emits_media_page {R} (Q : Request → Prop) endpoint
    (row : Json → St Media.Call (list R)) (s : Z) :
  (∀ req, url req = endpoint → Q req) →
  (∀ r l, keeps (λ c, wire (Media.self c) = l) (row r)) →
  emits (λ c, wire (Media.self c)) Q 1 (media_page endpoint row s).
Proof.
  intros HQ Hrow. unfold media_page.
  apply emits_after; [intros l; media_steps fail|]. intros _.
  apply emits_after; [intros l; media_steps fail|]. intros c.
  apply emits_before; [by apply emits_media_on_self, emits__get_url, HQ|].
  intros body l. media_steps ltac:(apply Hrow).
Qed.

Lemma emits_media_pages {R} (Q : Request → Prop) (n : nat) slist_of_search sched
    (page : Z → St Media.Call (list R)) payload max_results :
  (∀ s, emits (λ c, wire (Media.self c)) Q 1 (page s)) →
  (length (slist_of_search max_results).1 ≤ n)%nat →
  emits wire Q n (media_pages slist_of_search sched page payload max_results).
Proof.
  intros Hpage Hlen. unfold media_pages.
  destruct (slist_of_search max_results) as [slist cut]. cbn [fst] in Hlen.
  apply emits_before; [|intros; apply keeps_lift].
  apply emits_media_with_locals.
  eapply emits_weaken; [apply emits_executor_map, Hpage|lia].
Qed.

(** With [max_results = N] a search returns [min(N, ceiling)] results at
    most, and [N] is not negative. *)
Lemma media_pages_length {R} (ceiling first stride : Z) sched
    (page : Z → St Media.Call (list R)) payload (N : Z) (d d' : DDGS) (l : list R) :
  (0 < first)%Z → (0 < stride)%Z → (0 <= ceiling <= Py.maxsize)%Z →
  media_pages (slist_of ceiling first stride) sched page payload (Some N) d = (Ok l, d') →
  (0 <= N)%Z ∧ (Z.of_nat (length l) <= Z.min N ceiling)%Z.
Proof.
  intros Hfirst Hstride Hceiling. unfold media_pages. rewrite slist_of_given by done.
  intros Hrun. apply bind_Ok in Hrun as (pages & d1 & _ & Hcut).
  unfold lift, Py.islice in Hcut.
  destruct (decide (N = 0%Z)) as [->|Hne].
  - cbn in Hcut. injection Hcut as <- _. rewrite length_take. lia.
  - destruct ((0 <=? Z.min N ceiling)%Z && (Z.min N ceiling <=? Py.maxsize)%Z) eqn:Hrange;
      [|done].
    injection Hcut as <- _. rewrite length_take. lia.
Qed.

End MediaPages.

(** ** Their bounds *)

Lemma images_slist_length (max_results : option Z) :
  (length (images_slist max_results).1 ≤ 5)%nat.
Proof.
  pose proof (slist_of_length 500 100 100 max_results ltac:(lia)) as Hlen.
  unfold images_slist. change ((500 - 100 + 100 - 1) / 100)%Z with 4%Z in Hlen. lia.
Qed.

Lemma videos_slist_length (max_results : option Z) :
  (length (videos_slist max_results).1 ≤ 7)%nat.
Proof.
  pose proof (slist_of_length 400 60 60 max_results ltac:(lia)) as Hlen.
  unfold videos_slist. change ((400 - 60 + 60 - 1) / 60)%Z with 6%Z in Hlen. lia.
Qed.

Lemma news_slist_length (max_results : option Z) :
  (length (news_slist max_results).1 ≤ 4)%nat.
Proof.
  pose proof (slist_of_length 120 30 30 max_results ltac:(lia)) as Hlen.
  unfold news_slist. change ((120 - 30 + 30 - 1) / 30)%Z with 3%Z in Hlen. lia.
Qed.

Section MediaBounds.
Context `{Client} `{Utils} `{Values}.

(** X13.  [images], [videos] and [news] with [max_results = N] return, when
    they return, [N] results at most and never more than 500, 400 and 120:
    the ceiling of the search cuts the list as it cuts the page offsets.
    With a negative [N] they do not return. *)
Theorem media_max_results (self : DDGS) sched keywords region safesearch timelimit
    size color type_image layout license_image resolution duration license_videos (N : Z) :
  (∀ l self',
     images sched keywords region safesearch timelimit size color type_image layout
       license_image (Some N) self = (Ok l, self') →
     (0 <= N)%Z ∧ (Z.of_nat (length l) <= Z.min N 500)%Z) ∧
  (∀ l self',
     videos sched keywords region safesearch timelimit resolution duration license_videos
       (Some N) self = (Ok l, self') →
     (0 <= N)%Z ∧ (Z.of_nat (length l) <= Z.min N 400)%Z) ∧
  (∀ l self',
     news sched keywords region safesearch timelimit (Some N) self = (Ok l, self') →
     (0 <= N)%Z ∧ (Z.of_nat (length l) <= Z.min N 120)%Z).
Proof.
  assert (∀ ceiling, (0 <= ceiling <= 500)%Z → (0 <= ceiling <= Py.maxsize)%Z) as Hsmall.
  { intros ceiling ?. unfold Py.maxsize. lia. }
  split; [|split]; intros l self' Hrun.
  - unfold images in Hrun. destruct (negb (Py.truthy_str keywords)); [done|].
    apply bind_Ok in Hrun as (vqd & d1 & _ & Hrun). cbn zeta in Hrun.
    apply bind_Ok in Hrun as (p & d2 & _ & Hrun).
    eapply (media_pages_length 500 100 100); [lia|lia|apply Hsmall; lia|exact Hrun].
  - unfold videos in Hrun. destruct (negb (Py.truthy_str keywords)); [done|].
    apply bind_Ok in Hrun as (vqd & d1 & _ & Hrun). cbn zeta in Hrun.
    apply bind_Ok in Hrun as (p & d2 & _ & Hrun).
    eapply (media_pages_length 400 60 60); [lia|lia|apply Hsmall; lia|exact Hrun].
  - unfold news in Hrun. destruct (negb (Py.truthy_str keywords)); [done|].
    apply bind_Ok in Hrun as (vqd & d1 & _ & Hrun). cbn zeta in Hrun.
    apply bind_Ok in Hrun as (p & d2 & _ & Hrun).
    eapply (media_pages_length 120 30 30); [lia|lia|apply Hsmall; lia|exact Hrun].
Qed.

Lemma emits_raise_any {S A} (w : S → list Request) (Q : Request → Prop) (n : nat) (e : Exn) :
  emits w Q n (@raise S A e).
Proof. eapply emits_weaken; [apply emits_silent; intros l; apply keeps_raise|lia]. Qed.

Lemma emits_lift_then {S A B} (w : S → list Request) (Q : Request → Prop) (n : nat)
    (r : Res A) (k : A → St S B) :
  (∀ a, emits w Q n (k a)) → emits w Q n (bind (lift r) k).
Proof. intros Hk. apply emits_after; [intros l; apply keeps_lift|done]. Qed.

(** X14.  The requests of the searches that answer in JSON.  Each leaves
    the requests sent before it on the wire and adds at most: [images] 6,
    [videos] 8, [news] 5 (one for the token and one for every page offset),
    [answers] 2, [suggestions] 1, and [translate] one for the token and one
    for every keyword; and each sends to its own endpoints only. *)
Theorem media_request_budget sched keywords region safesearch timelimit
    size color type_image layout license_image resolution duration license_videos
    max_results (words : Keywords) from_ to :
  emits wire (λ req, url req ∈ images_endpoints) 6
    (images sched keywords region safesearch timelimit size color type_image layout
       license_image max_results) ∧
  emits wire (λ req, url req ∈ videos_endpoints) 8
    (videos sched keywords region safesearch timelimit resolution duration license_videos
       max_results) ∧
  emits wire (λ req, url req ∈ news_endpoints) 5
    (news sched keywords region safesearch timelimit max_results) ∧
  emits wire (λ req, url req = "https://api.duckduckgo.com/") 2 (answers keywords) ∧
  emits wire (λ req, url req = "https://duckduckgo.com/ac/") 1
    (suggestions keywords region) ∧
  emits wire (λ req, url req ∈ translate_endpoints) (1 + length (keywords_list words))
    (translate sched words from_ to).
Proof.
  split; [|split; [|split; [|split; [|split]]]].
  - unfold images. destruct (negb (Py.truthy_str keywords)); [apply emits_raise_any|].
    apply (emits_bind _ _ 1 5); [apply emits__get_vqd; cbn; by left|]. intros vqd. cbn zeta.
    apply emits_lift_then. intros p.
    apply emits_media_pages; [|apply images_slist_length].
    intros s. rewrite _images_page_eq. apply emits_media_page.
    + intros req ->. by right; left.
    + intros r l. apply (_images_row_self (λ d, wire d = l)).
  - unfold videos. destruct (negb (Py.truthy_str keywords)); [apply emits_raise_any|].
    apply (emits_bind _ _ 1 7); [apply emits__get_vqd; cbn; by left|]. intros vqd. cbn zeta.
    apply emits_lift_then. intros p.
    apply emits_media_pages; [|apply videos_slist_length].
    intros s. rewrite _videos_page_eq. apply emits_media_page.
    + intros req ->. by right; left.
    + intros r l. apply (_videos_row_self (λ d, wire d = l)).
  - unfold news. destruct (negb (Py.truthy_str keywords)); [apply emits_raise_any|].
    apply (emits_bind _ _ 1 4); [apply emits__get_vqd; cbn; by left|]. intros vqd. cbn zeta.
    apply emits_lift_then. intros p.
    apply emits_media_pages; [|apply news_slist_length].
    intros s. rewrite _news_page_eq. apply emits_media_page.
    + intros req ->. by right; left.
    + intros r l. apply (_news_row_self (λ d, wire d = l)).
  - unfold answers. destruct (negb (Py.truthy_str keywords)); [apply emits_raise_any|].
    cbn zeta. apply (emits_bind _ _ 1 1); [by apply emits__get_url|]. intros body.
    do 3 (apply emits_lift_then; intros ?).
    apply emits_before; [by apply emits__get_url|]. intros; keeps_steps.
  - unfold suggestions. destruct (negb (Py.truthy_str keywords)); [apply emits_raise_any|].
    cbn zeta. apply emits_before; [by apply emits__get_url|]. intros; keeps_steps.
  - unfold translate. destruct (negb _); [apply emits_raise_any|].
    apply emits_bind; [apply emits__get_vqd; cbn; by left|]. intros vqd. cbn zeta.
    fold (keywords_list words).
    eapply emits_weaken; [apply (emits_executor_map _ _ 1)|lia].
    intros keyword. unfold _translate_keyword.
    apply emits_before; [apply emits__get_url; cbn; by right; left|]. intros; keeps_steps.
Qed.

Lemma safesearch_base_unknown (key a b c : string) :
  key ∉ ["on"; "moderate"; "off"] →
  Py.getitem ({[ "on" := a; "moderate" := b; "off" := c ]} : gmap string string) key
  = Raise (KeyError key).
Proof.
  intros Hkey. unfold Py.getitem.
  rewrite !lookup_insert_ne, lookup_singleton_ne; [done|..];
    intros <-; apply Hkey; [by do 2 right; left|by right; left|by left].
Qed.

Lemma _get_vqd_Ok_wire (keywords vqd : string) (d d' : DDGS) :
  _get_vqd keywords d = (Ok vqd, d') →
  wire d' = wire d ++ [ {| method := "POST"; url := "https://duckduckgo.com";
                            params := None; content := None;
                            data := Some {[ "q" := keywords ]}; headers := None;
                            json := None; timeout := None |} ].
Proof.
  unfold _get_vqd. intros Hrun. apply bind_Ok in Hrun as (body & d1 & Hurl & [= _ <-]).
  revert Hurl. unfold _get_url, bind, get, send, raise, ret, modify. cbn [fst snd].
  destruct (_exception_event d); [done|].
  destruct (client_request _ _) as [resp|type_name ex]; cbn [fst snd].
  - destruct (status_code resp =? 200)%Z; [by intros [= _ <-]|]. by destruct (bool_decide _).
  - by destruct (Py.contains _ _).
Qed.

(** X15.  A [safesearch] that is, in lower case, none of [on], [moderate]
    and [off] makes [images], [videos] and [news] raise [KeyError] with the
    lower-case value; they find it out after the request for the token,
    which is on the wire by then, and before any request for a page. *)
Theorem media_unknown_safesearch (self self1 : DDGS) sched keywords region safesearch vqd
    timelimit size color type_image layout license_image resolution duration license_videos
    max_results :
  keywords ≠ "" → Py.lower safesearch ∉ ["on"; "moderate"; "off"] →
  _get_vqd keywords self = (Ok vqd, self1) →
  images sched keywords region safesearch timelimit size color type_image layout
    license_image max_results self
  = (Raise (KeyError (Py.lower safesearch)), self1) ∧
  videos sched keywords region safesearch timelimit resolution duration license_videos
    max_results self
  = (Raise (KeyError (Py.lower safesearch)), self1) ∧
  news sched keywords region safesearch timelimit max_results self
  = (Raise (KeyError (Py.lower safesearch)), self1) ∧
  wire self1
  = wire self ++ [ {| method := "POST"; url := "https://duckduckgo.com"; params := None;
                      content := None; data := Some {[ "q" := keywords ]};
                      headers := None; json := None; timeout := None |} ].
Proof.
  intros Hkeywords Hunknown Hvqd.
  assert (negb (Py.truthy_str keywords) = false) as Hgiven by (by destruct keywords).
  split; [|split; [|split]].
  - unfold images. rewrite Hgiven. unfold bind at 1. rewrite Hvqd. cbn zeta.
    unfold bind, lift. by rewrite safesearch_base_unknown.
  - unfold videos. rewrite Hgiven. unfold bind at 1. rewrite Hvqd. cbn zeta.
    unfold bind, lift. by rewrite safesearch_base_unknown.
  - unfold news. rewrite Hgiven. unfold bind at 1. rewrite Hvqd. cbn zeta.
    unfold bind, lift. by rewrite safesearch_base_unknown.
  - by eapply _get_vqd_Ok_wire.
Qed.

End MediaBounds.

(** ** On an instance that has tripped, and without keywords *)

Section MediaFailFast.
Context `{Client} `{Utils} `{Lxml} `{Places} `{Values}.

(** X16.  On an instance that has tripped, [images], [videos], [news],
    [answers], [suggestions] and [translate], called with keywords, and the
    rounds of [maps] with a [max_results] that is not negative, all raise
    the error of the previous call: nothing goes on the wire and the
    instance stays as it was. *)
Theorem searches_fail_fast (self : DDGS) sched rounds keywords region safesearch timelimit
    size color type_image layout license_image resolution duration license_videos
    max_results (words : Keywords) from_ to vqd start_bbox :
  _exception_event self = true → keywords ≠ "" → keywords_list words ≠ [] →
  words ≠ One "" → (∀ N, max_results = Some N → (0 <= N)%Z) →
  let previous :=
    DuckDuckGoSearchException (JStr "Exception occurred in previous call.") in
  images sched keywords region safesearch timelimit size color type_image layout
    license_image max_results self = (Raise previous, self) ∧
  videos sched keywords region safesearch timelimit resolution duration license_videos
    max_results self = (Raise previous, self) ∧
  news sched keywords region safesearch timelimit max_results self = (Raise previous, self) ∧
  answers keywords self = (Raise previous, self) ∧
  suggestions keywords region self = (Raise previous, self) ∧
  translate sched words from_ to self = (Raise previous, self) ∧
  maps_from rounds keywords vqd start_bbox max_results self = (Raise previous, self).
Proof.
  intros Hflag Hkeywords Hwords Hword Hmax. cbn zeta.
  assert (negb (Py.truthy_str keywords) = false) as Hgiven by (by destruct keywords).
  split; [|split; [|split; [|split; [|split; [|split]]]]].
  - unfold images. rewrite Hgiven. unfold bind at 1. by rewrite _get_vqd_tripped.
  - unfold videos. rewrite Hgiven. unfold bind at 1. by rewrite _get_vqd_tripped.
  - unfold news. rewrite Hgiven. unfold bind at 1. by rewrite _get_vqd_tripped.
  - unfold answers. rewrite Hgiven. cbn zeta. unfold bind at 1.
    by rewrite _get_url_tripped.
  - unfold suggestions. rewrite Hgiven. cbn zeta. unfold bind at 1.
    by rewrite _get_url_tripped.
  - unfold translate.
    replace (negb _) with false.
    2:{ destruct words as [keyword|[|keyword l]]; [|done..].
        destruct keyword; [done|done]. }
    unfold bind at 1. by rewrite _get_vqd_tripped.
  - rename self into d. unfold maps_from, bind, with_locals. cbn [maps_rounds].
    destruct (maps_queue start_bbox [start_bbox]) as [vars queue].
    unfold bind. rewrite executor_map_single. unfold _maps_page.
    replace (Py.truthy_int max_results && _) with false.
    2:{ symmetry. destruct max_results as [N|]; [|done]. cbn.
        specialize (Hmax N eq_refl). destruct (decide (N = 0%Z)) as [->|Hne]; [done|].
        apply andb_false_iff. right. apply Z.leb_gt. lia. }
    destruct start_bbox as [[[lat_t lon_l] lat_b] lon_r]. cbn zeta.
    unfold bind, on_self. cbn [self]. by rewrite _get_url_tripped.
Qed.

(** X17.  Without keywords every search refuses at once: [text] (of any
    of its three backends), [images], [videos], [news], [answers],
    [suggestions] and [translate] (of the empty string and of the empty
    list) raise [AssertionError], send nothing and leave the instance as it
    was, tripped or not. *)
Theorem keywords_mandatory (self : DDGS) sched region safesearch timelimit backend
    size color type_image layout license_image resolution duration license_videos
    max_results from_ to :
  backend ∈ ["api"; "html"; "lite"] →
  let mandatory := AssertionError "keywords is mandatory" in
  text sched "" region safesearch timelimit backend max_results self
  = (Raise mandatory, self) ∧
  images sched "" region safesearch timelimit size color type_image layout
    license_image max_results self = (Raise mandatory, self) ∧
  videos sched "" region safesearch timelimit resolution duration license_videos
    max_results self = (Raise mandatory, self) ∧
  news sched "" region safesearch timelimit max_results self = (Raise mandatory, self) ∧
  answers "" self = (Raise mandatory, self) ∧
  suggestions "" region self = (Raise mandatory, self) ∧
  translate sched (One "") from_ to self = (Raise mandatory, self) ∧
  translate sched (Many []) from_ to self = (Raise mandatory, self).
Proof.
  intros Hbackend. cbn zeta. split; [|done].
  unfold text. destruct (negb LXML_AVAILABLE && negb (bool_decide (backend = "api"))).
  { by destruct (decide ("api" = "api")). }
  destruct (decide (backend = "api")); [done|].
  destruct (decide (backend = "html")); [done|].
  destruct (decide (backend = "lite")); [done|].
  repeat (apply elem_of_cons in Hbackend as [Hbackend|Hbackend]; [done|]).
  by apply elem_of_nil in Hbackend.
Qed.

End MediaFailFast.

(** ** The rows of [videos] differ *)

Lemma number_identity (v w : Json) (p q : Q) :
  Value.number v = Some p → Value.number w = Some q →
  Qeq_bool p q = true ↔ identity v = identity w.
Proof.
  intros Hv Hw.
  assert (identity v = Some (INumber (Qnum (Qred p)) (Zpos (Qden (Qred p))))) as ->.
  { destruct v; cbn in *; try done; by injection Hv as <-. }
  assert (identity w = Some (INumber (Qnum (Qred q)) (Zpos (Qden (Qred q))))) as ->.
  { destruct w; cbn in *; try done; by injection Hw as <-. }
  rewrite Qeq_bool_iff. split.
  - intros Heq. by rewrite (Qred_complete p q Heq).
  - intros [= Hnum Hden]. rewrite <- (Qred_correct p), <- (Qred_correct q).
    destruct (Qred p), (Qred q). cbn in *. by subst.
Qed.

(** Two values with a hash are equal for Python exactly when they have the
    same identity. *)
Lemma eqb_identity (v w : Json) :
  Value.hashable v = true → Value.hashable w = true →
  Value.eqb v w = true ↔ identity v = identity w.
Proof.
  intros Hv Hw.
  destruct (Value.number v) as [p|] eqn:Hp, (Value.number w) as [q|] eqn:Hq.
  - rewrite <- (number_identity v w p q Hp Hq).
    destruct v, w; cbn in *; try done; by simplify_eq.
  - destruct v, w; cbn in *; try done.
  - destruct v, w; cbn in *; try done.
  - destruct v, w; cbn in *; try done.
    rewrite bool_decide_eq_true. split; [by intros ->|by intros [= ->]].
Qed.

Lemma mem_identity (k : Json) (cache : list Json) (seen : bool) :
  Forall (λ w, Value.hashable w = true) cache →
  Value.mem k cache = Ok seen →
  Value.hashable k = true ∧ (seen = false → identity k ∉ identity <$> cache).
Proof.
  intros Hcache. unfold Value.mem. destruct (Value.hashable k) eqn:Hk; [|done].
  intros [= <-]. split; [done|]. intros Hnone Hin.
  apply list_elem_of_fmap in Hin as (w & Hid & Hw).
  rewrite Forall_forall in Hcache.
  apply (eqb_identity k w Hk (Hcache w Hw)) in Hid.
  apply not_true_iff_false in Hnone. apply Hnone.
  apply existsb_exists. exists w. split; [by apply list_elem_of_In|done].
Qed.

Lemma cache_ok_sub (l1 l2 : list Json) : l1 ⊆+ l2 → cache_ok l2 → cache_ok l1.
Proof.
  intros Hsub [Hhash Hnodup]. split.
  - rewrite Forall_forall in *. intros k Hk. apply Hhash. by eapply elem_of_submseteq.
  - apply (fmap_submseteq identity) in Hsub.
    apply submseteq_Permutation in Hsub as [rest Hperm].
    rewrite Hperm in Hnodup. by apply NoDup_app in Hnodup as [? _].
Qed.

Lemma bind_eq {S A B} (m : St S A) (k : A → St S B) (s : S) :
  bind m k s
  = match m s with
    | (Ok a, s') => k a s'
    | (Raise e, s') => (Raise e, s')
    end.
Proof. reflexivity. Qed.

Section VideosRows.
Context `{Client} `{Utils} `{Values}.

Lemma _videos_row_caches (row : Json) : caches_contents (_videos_row row).
Proof.
  intros c [Hhash Hnodup]. unfold _videos_row, bind, lift, get.
  destruct (Value.item row "content") as [content|e] eqn:Hitem; cbn [fst snd]; [|done].
  destruct (Value.mem content (Media.cache c)) as [seen|e] eqn:Hmem; cbn [fst snd]; [|done].
  destruct (mem_identity content _ seen Hhash Hmem) as [Hcontent Hnew].
  destruct seen; cbn [fst snd ret modify].
  - split; [done|]. split; [done|constructor].
  - assert (content_of row = content) as Hof by (unfold content_of; by rewrite Hitem).
    split; [|split].
    + cbn [Media.cache Media.cache_add]. split; [by constructor|].
      rewrite fmap_cons. constructor; [by apply Hnew|done].
    + cbn [Media.cache Media.cache_add fmap list_fmap app]. by rewrite Hof.
    + repeat constructor; by rewrite Hof.
Qed.

Lemma for_each_caches (row : Json → St Media.Call (list Json)) (rows : list Json) :
  (∀ r, caches_contents (row r)) → caches_contents (for_each row rows).
Proof.
  intros Hrow. induction rows as [|r rows IH]; intros c Hc.
  - cbn. split; [done|]. split; [done|constructor].
  - cbn [for_each]. rewrite bind_eq. destruct (Hrow r c Hc) as [Hc1 Hr].
    destruct (row r c) as [[rs1|e] c1]; cbn [fst snd] in *; [|done].
    destruct Hr as [Hsub1 Hsigned1]. rewrite bind_eq. destruct (IH c1 Hc1) as [Hc2 Hrs].
    destruct (for_each row rows c1) as [[rs2|e] c2]; cbn [fst snd ret] in *.
    + destruct Hrs as [Hsub2 Hsigned2]. split; [done|]. split; [|by apply Forall_app].
      rewrite fmap_app, <- app_assoc.
      rewrite (Permutation_app_swap_app (content_of <$> rs1)).
      etrans; [|exact Hsub2]. by apply submseteq_skips_l.
    + split; [done|]. etrans; [|exact Hrs]. etrans; [|exact Hsub1].
      by apply submseteq_inserts_l.
Qed.

Lemma media_page_caches endpoint (row : Json → St Media.Call (list Json)) (s : Z) :
  (∀ r, caches_contents (row r)) → caches_contents (media_page endpoint row s).
Proof.
  intros Hrow c Hc. unfold media_page, bind, modify, get, Media.on_self, lift.
  cbn [fst snd Media.self Media.payload Media.payload_set].
  destruct (_get_url _ _ _ _ _ (Media.self c)) as [[body|e] d]; cbn [fst snd]; [|done].
  destruct (json_loads body) as [resp_json|e]; cbn [fst snd]; [|done].
  destruct (results_of resp_json) as [page_data|e]; cbn [fst snd]; [|done].
  exact (for_each_caches row page_data Hrow
           (Media.set_self d (Media.payload_set "s" (pretty s) c)) Hc).
Qed.

(** Page tasks run one after the other: when all of them return, the
    content signatures of their rows are in the cache, each for itself. *)
Lemma run_in_order_caches (page : Z → St Media.Call (list Json)) (tasks : list (nat * Z))
    (c : Media.Call) (pages : list (list Json)) (before : list Json) :
  (∀ s, caches_contents (page s)) →
  cache_ok (Media.cache c) → before ⊆+ Media.cache c →
  (∀ i r, (i, r) ∈ (run_in_order page tasks c).1 → ∃ b, r = Ok b ∧ pages !! i = Some b) →
  let rows := concat ((λ t, default [] (pages !! t.1)) <$> tasks) in
  cache_ok (Media.cache (run_in_order page tasks c).2) ∧
  (content_of <$> rows) ++ before ⊆+ Media.cache (run_in_order page tasks c).2 ∧
  Forall signed rows.
Proof.
  intros Hpage. revert c before.
  induction tasks as [|[i s] tasks IH]; intros c before Hc Hbefore Hdone; cbn zeta.
  - cbn. split; [done|]. split; [done|constructor].
  - cbn [run_in_order] in *. destruct (Hpage s c Hc) as [Hc1 Hrows].
    destruct (page s c) as [r c1]. cbn [fst snd] in *.
    specialize (IH c1).
    destruct (run_in_order page tasks c1) as [done c2]. cbn [fst snd] in *.
    destruct (Hdone i r ltac:(by left)) as (b & -> & Hi). destruct Hrows as [Hsub Hsigned].
    destruct (IH ((content_of <$> b) ++ before) Hc1) as (Hc2 & Hsub2 & Hsigned2).
    { etrans; [|exact Hsub]. by apply submseteq_skips_l. }
    { intros j r Hin. apply Hdone. by right. }
    rewrite fmap_cons. cbn [concat fst]. rewrite Hi. cbn [default].
    split; [done|]. split; [|by apply Forall_app].
    rewrite fmap_app, <- app_assoc.
    by rewrite (Permutation_app_swap_app (content_of <$> b)).
Qed.

End VideosRows.

Lemma concat_perm {A} (l1 l2 : list (list A)) : l1 ≡ₚ l2 → concat l1 ≡ₚ concat l2.
Proof.
  induction 1 as [|x l1 l2 _ IH|x y l|l1 l2 l3 _ IH1 _ IH2]; cbn [concat].
  - done.
  - by rewrite IH.
  - by rewrite !app_assoc, (Permutation_app_comm y x).
  - by etrans.
Qed.

(** The pages put together in the order of the offsets hold the rows of
    the pages put together in the order the tasks ran. *)
Lemma pages_any_order {B} (sched : list nat) (slist : list Z) (pages : list (list B)) :
  length pages = length slist →
  concat pages ≡ₚ concat ((λ t : nat * Z, default [] (pages !! t.1)) <$> run_order sched slist).
Proof.
  intros Hlen. rewrite <- (pages_in_order slist pages Hlen) at 1.
  apply concat_perm, fmap_Permutation. symmetry. apply run_order_perm.
Qed.

Lemma islice_take {A} (l l' : list A) (stop : option Z) :
  Py.islice l stop = Ok l' → ∃ k, l' = take k l.
Proof.
  unfold Py.islice. destruct stop as [n|].
  - destruct (_ && _); [|done]. intros [= <-]. by eexists.
  - intros [= <-]. exists (length l). by rewrite firstn_all.
Qed.

Section VideosDistinct.
Context `{Client} `{Utils} `{Values}.

(** X18.  When the pool runs the pages of [videos] one at a time, in
    whatever order, the rows returned differ in their content signatures:
    every row returned is an object with a [content] that has a hash, and
    no two of them have contents that are equal for Python (so [1], [1.0]
    and [True] count as one). *)
Theorem videos_distinct_contents (self self' : DDGS) sched keywords region safesearch
    timelimit resolution duration license_videos max_results (l : list Json) :
  videos sched keywords region safesearch timelimit resolution duration license_videos
    max_results self = (Ok l, self') →
  Forall signed l ∧
  ∀ i j row1 row2, l !! i = Some row1 → l !! j = Some row2 →
    Value.eqb (content_of row1) (content_of row2) = true → i = j.
Proof.
  intros Hrun. unfold videos in Hrun. destruct (negb (Py.truthy_str keywords)); [done|].
  apply bind_Ok in Hrun as (vqd & d1 & _ & Hrun). cbn zeta in Hrun.
  apply bind_Ok in Hrun as (p & d2 & _ & Hrun). unfold media_pages in Hrun.
  destruct (videos_slist max_results) as [slist cut].
  apply bind_Ok in Hrun as (pages & d3 & Hpages & Hcut).
  unfold lift in Hcut. injection Hcut as Hcut _.
  apply islice_take in Hcut as [k ->].
  unfold Media.with_locals in Hpages.
  destruct (executor_map sched _videos_page slist _) as [r c] eqn:Hmap.
  injection Hpages as -> _.
  destruct (executor_map_Ok _ _ _ _ _ _ Hmap) as [Hlen Hdone].
  match type of Hmap with
  | executor_map _ _ _ ?c0 = _ =>
      destruct (run_in_order_caches _videos_page (run_order sched slist) c0 pages [])
        as (Hok & Hsub & Hsigned)
  end.
  { intros s. rewrite _videos_page_eq. apply media_page_caches, _videos_row_caches. }
  { split; constructor. }
  { done. }
  { exact Hdone. }
  rewrite app_nil_r in Hsub. apply cache_ok_sub in Hsub as [_ Hnodup]; [|done].
  rewrite <- (pages_any_order sched slist pages Hlen) in Hnodup, Hsigned.
  split; [by apply Forall_take|].
  intros i j row1 row2 Hi Hj Heq.
  assert (Forall signed (take k (concat pages))) as Htaken by (by apply Forall_take).
  rewrite Forall_forall in Htaken.
  destruct (Htaken row1) as [_ Hhash1]; [by eapply list_elem_of_lookup_2|].
  destruct (Htaken row2) as [_ Hhash2]; [by eapply list_elem_of_lookup_2|].
  apply eqb_identity in Heq; [|done..].
  assert (NoDup (identity <$> (content_of <$> take k (concat pages)))) as Hdup.
  { eapply sublist_NoDup; [exact Hnodup|]. do 2 apply fmap_sublist. apply sublist_take. }
  apply (NoDup_lookup _ i j (identity (content_of row1)) Hdup).
  - by rewrite !list_lookup_fmap, Hi.
  - by rewrite !list_lookup_fmap, Hj, Heq.
Qed.

End VideosDistinct.

(** ** [translate] *)

Lemma run_in_order_elem {S A B} (fn : A → St S B) (tasks : list (nat * A)) (s : S)
    (i : nat) (a : A) :
  (i, a) ∈ tasks → ∃ s0, (i, (fn a s0).1) ∈ (run_in_order fn tasks s).1.
Proof.
  revert s. induction tasks as [|[j a'] tasks IH]; intros s; [by intros ?%elem_of_nil|].
  cbn [run_in_order]. intros Hin.
  destruct (fn a' s) as [r s1] eqn:Hrun. specialize (IH s1).
  destruct (run_in_order fn tasks s1) as [done s2]. cbn [fst] in *.
  apply elem_of_cons in Hin as [[= -> ->]|Hin].
  - exists s. rewrite Hrun. by left.
  - destruct (IH Hin) as [s0 ?]. exists s0. by right.
Qed.

(** What the pool yields at the place of an argument is what the task
    returned for that argument, from the state it found. *)
Lemma executor_map_each {S A B} (sched : list nat) (fn : A → St S B) (args : list A)
    (s s' : S) (bs : list B) :
  executor_map sched fn args s = (Ok bs, s') →
  length bs = length args ∧
  ∀ i a, args !! i = Some a → ∃ b s0, bs !! i = Some b ∧ (fn a s0).1 = Ok b.
Proof.
  intros Hmap. destruct (executor_map_Ok _ _ _ _ _ _ Hmap) as [Hlen Hdone].
  split; [done|]. intros i a Hi.
  assert ((i, a) ∈ run_order sched args) as Hin.
  { rewrite run_order_perm. by apply (elem_of_lookup_imap_2 (λ i a, (i, a))). }
  destruct (run_in_order_elem fn _ s i a Hin) as [s0 Hran].
  destruct (Hdone _ _ Hran) as (b & Hb & Hbs). by exists b, s0.
Qed.

Lemma assoc_set_eq (k : string) (x : Json) (fields : list (string * Json)) :
  Py.assoc k (Value.assoc_set k x fields) = Some x.
Proof.
  induction fields as [|[k' y] fields IH]; cbn.
  - by destruct (decide (k = k)).
  - destruct (decide (k' = k)) as [->|Hne]; cbn.
    + by destruct (decide (k = k)).
    + by destruct (decide (k' = k)).
Qed.

Lemma assoc_set_ne (k k' : string) (x : Json) (fields : list (string * Json)) :
  k' ≠ k → Py.assoc k' (Value.assoc_set k x fields) = Py.assoc k' fields.
Proof.
  intros Hne. induction fields as [|[k0 y] fields IH]; cbn.
  - by destruct (decide (k = k')) as [->|].
  - destruct (decide (k0 = k)) as [->|Hne0]; cbn.
    + destruct (decide (k = k')) as [->|]; [done|]. by destruct (decide (k = k')).
    + destruct (decide (k0 = k')); [done|]. apply IH.
Qed.

Section TransportWire.
Context `{Client} `{Utils}.

(** When [_get_url] returns, its request is on the wire, answered with
    status 200 and the body returned, and the instance is otherwise as it
    was. *)
Lemma _get_url_Ok_wire (d d' : DDGS) method url params content data body :
  _get_url method url params content data d = (Ok body, d') →
  let req := {| method := method; url := url; params := params; content := content;
                data := data; headers := None; json := None; timeout := None |} in
  d' = set_wire (wire d ++ [req]) d ∧
  ∃ resp, client_request (wire d) req = Responded resp ∧ status_code resp = 200%Z ∧
          resp_content resp = body.
Proof.
  unfold _get_url, bind, get, send, raise, ret, modify. cbn [fst snd].
  destruct (_exception_event d); [done|].
  destruct (client_request _ _) as [resp|type_name ex] eqn:Hout; cbn [fst snd].
  - destruct (status_code resp =? 200)%Z eqn:E200.
    + intros [= <- <-]. split; [done|]. exists resp. split; [done|].
      split; [by apply Z.eqb_eq|done].
    + by destruct (bool_decide _).
  - by destruct (Py.contains _ _).
Qed.

End TransportWire.

Section Translate.
Context `{Client} `{Utils} `{Values}.

(** When a keyword is translated, its request is on the wire, answered
    with status 200 by an object, and what is returned is that object with
    the keyword under [original]. *)
Lemma _translate_keyword_Ok payload keyword (d d' : DDGS) (b : Json) :
  _translate_keyword payload keyword d = (Ok b, d') →
  wire d' = wire d ++ [translate_request payload keyword] ∧
  ∃ resp answer,
    client_request (wire d) (translate_request payload keyword) = Responded resp ∧
    status_code resp = 200%Z ∧
    json_loads (resp_content resp) = Ok (JObj answer) ∧
    b = JObj (Value.assoc_set "original" (JStr keyword) answer).
Proof.
  unfold _translate_keyword. intros Hrun.
  apply bind_Ok in Hrun as (body & d1 & Hurl & Hrun).
  apply bind_Ok in Hrun as (page_data & d2 & [= Hloads <-] & [= Hset <-]).
  apply _get_url_Ok_wire in Hurl as (-> & resp & Hresp & Hstatus & <-).
  split; [done|]. destruct page_data; try done. injection Hset as <-.
  by exists resp, fields.
Qed.

(** Keywords translated one after the other, all with success: the wire
    grows by their requests in that order, and what the pool holds for a
    keyword is decoded from the answer to its request. *)
Lemma run_in_order_translate payload (tasks : list (nat * string)) (d : DDGS)
    (results : list Json) :
  (∀ i r, (i, r) ∈ (run_in_order (_translate_keyword payload) tasks d).1 →
          ∃ b, r = Ok b ∧ results !! i = Some b) →
  wire (run_in_order (_translate_keyword payload) tasks d).2
  = wire d ++ ((λ t : nat * string, translate_request payload t.2) <$> tasks) ∧
  ∀ j i keyword, tasks !! j = Some (i, keyword) →
    ∃ resp answer,
      client_request
        (wire d ++ ((λ t : nat * string, translate_request payload t.2) <$> take j tasks))
        (translate_request payload keyword) = Responded resp ∧
      status_code resp = 200%Z ∧
      json_loads (resp_content resp) = Ok (JObj answer) ∧
      results !! i = Some (JObj (Value.assoc_set "original" (JStr keyword) answer)).
Proof.
  revert d. induction tasks as [|[i0 kw] tasks IH]; intros d Hdone.
  - cbn. rewrite app_nil_r. split; [done|]. intros j i keyword Hj. done.
  - cbn [run_in_order] in *.
    destruct (_translate_keyword payload kw d) as [r d1] eqn:Hcall.
    destruct (run_in_order (_translate_keyword payload) tasks d1) as [done d2] eqn:Hrest.
    cbn [fst snd] in *.
    destruct (Hdone i0 r ltac:(by left)) as (b & -> & Hb).
    apply _translate_keyword_Ok in Hcall as (Hwire & resp & answer & Hresp & Hstatus & Hloads & ->).
    specialize (IH d1). rewrite Hrest in IH. cbn [fst snd] in IH.
    destruct (IH ltac:(by intros i r Hin; apply Hdone; right)) as [Hwire2 Heach].
    split.
    + rewrite Hwire2, Hwire, fmap_cons, <- app_assoc. done.
    + intros [|j] i keyword Hj.
      * injection Hj as <- <-. cbn [take fmap list_fmap]. rewrite app_nil_r.
        by exists resp, answer.
      * cbn [lookup list_lookup] in Hj. destruct (Heach j i keyword Hj) as (resp' & answer' & Hr & ?).
        exists resp', answer'. split; [|done].
        rewrite firstn_cons, fmap_cons. rewrite Hwire, <- app_assoc in Hr. exact Hr.
Qed.

(** X19.  When [translate] returns, it has sent the request for the token
    and then one request for every keyword, in the order in which the pool
    ran the keywords, and nothing else.  It returns one object for every
    keyword, in the order of the keywords whatever the order of the pool
    (a single string counts as one keyword): the object at the place of a
    keyword is the object decoded from the status-200 answer to the request
    of that keyword, with the keyword itself under [original] (an
    [original] of the answer is overwritten) and every other field as in
    the answer. *)
Theorem translate_in_order (self self' : DDGS) sched (words : Keywords) from_ to
    (results : list Json) :
  translate sched words from_ to self = (Ok results, self') →
  let keywords := keywords_list words in
  ∃ vqd,
    let request := translate_request (translate_payload vqd from_ to) in
    (_get_vqd "translate" self).1 = Ok vqd ∧
    length results = length keywords ∧
    run_order sched keywords ≡ₚ imap (λ i keyword, (i, keyword)) keywords ∧
    wire self'
    = wire self ++ vqd_request "translate"
                   :: ((λ t : nat * string, request t.2) <$> run_order sched keywords) ∧
    ∀ j i keyword, run_order sched keywords !! j = Some (i, keyword) →
      ∃ resp answer fields,
        client_request
          (wire self ++ vqd_request "translate"
                        :: ((λ t : nat * string, request t.2)
                              <$> take j (run_order sched keywords)))
          (request keyword) = Responded resp ∧
        status_code resp = 200%Z ∧
        json_loads (resp_content resp) = Ok (JObj answer) ∧
        keywords !! i = Some keyword ∧
        results !! i = Some (JObj fields) ∧
        Py.assoc "original" fields = Some (JStr keyword) ∧
        ∀ k, k ≠ "original" → Py.assoc k fields = Py.assoc k answer.
Proof.
  unfold translate. destruct (negb _); [done|]. intros Hrun. cbn zeta.
  apply bind_Ok in Hrun as (vqd & d1 & Hvqd & Hrun). cbn zeta in Hrun.
  fold (keywords_list words) in Hrun. fold (translate_payload vqd from_ to) in Hrun.
  exists vqd. split; [by rewrite Hvqd|].
  apply _get_vqd_Ok_wire in Hvqd. fold (vqd_request "translate") in Hvqd.
  destruct (executor_map_Ok _ _ _ _ _ _ Hrun) as [Hlen Hdone]. split; [done|].
  split; [apply run_order_perm|].
  rewrite executor_map_run_order in Hrun. injection Hrun as _ <-.
  destruct (run_in_order_translate _ _ _ _ Hdone) as [Hwire Heach].
  rewrite Hvqd, <- app_assoc in Hwire. split; [exact Hwire|].
  intros j i keyword Hj.
  destruct (Heach j i keyword Hj) as (resp & answer & Hresp & Hstatus & Hloads & Hi).
  rewrite Hvqd, <- app_assoc in Hresp.
  exists resp, answer, (Value.assoc_set "original" (JStr keyword) answer).
  split; [exact Hresp|]. split; [done|]. split; [done|]. split.
  { assert ((i, keyword) ∈ imap (λ i keyword, (i, keyword)) (keywords_list words)) as Hin.
    { rewrite <- run_order_perm. by eapply list_elem_of_lookup_2. }
    apply elem_of_lookup_imap in Hin as (i' & kw' & [= -> ->] & Hlook). done. }
  split; [done|]. split; [apply assoc_set_eq|]. intros k Hk. by apply assoc_set_ne.
Qed.

End Translate.

(** ** [answers] *)

Lemma startswith_app (p s : string) : Py.startswith p (p +:+ s) = true.
Proof.
  induction p as [|a p IH]; [done|].
  change (String a p +:+ s) with (String a (p +:+ s)). cbn [Py.startswith].
  by destruct (decide (a = a)).
Qed.

Section Answers.
Context `{Client} `{Utils} `{Values}.

Lemma _answers_topic_icon topic row r : _answers_topic topic row = Ok r → related_icon r.
Proof.
  unfold _answers_topic.
  destruct (Value.item row "Icon") as [row_icon|]; [|done].
  destruct (Value.get_default row_icon "URL" JNull) as [icon|]; [|done].
  destruct (Value.item row "Text") as [text|]; [|done].
  destruct (Value.item row "FirstURL") as [url|]; [|done].
  intros [= <-]. unfold related_icon, answer. rewrite lookup_insert_eq.
  destruct (Py.truthy icon); eexists; (split; [done|]).
  - right. apply startswith_app.
  - by left.
Qed.

Lemma map_res_Forall {A B} (f : A → Res B) (P : B → Prop) (l : list A) (rs : list B) :
  (∀ a b, f a = Ok b → P b) → map_res f l = Ok rs → Forall P rs.
Proof.
  intros Hf. revert rs. induction l as [|a l IH]; intros rs; cbn.
  - intros [= <-]. constructor.
  - destruct (f a) as [b|] eqn:Hb; [|done]. destruct (map_res f l) as [bs|]; [|done].
    intros [= <-]. constructor; [by eapply Hf|by apply IH].
Qed.

Lemma _answers_rows_icon page_data rs :
  _answers_rows page_data = Ok rs → Forall related_icon rs.
Proof.
  revert rs. induction page_data as [|row page_data IH]; intros rs; cbn.
  - intros [= <-]. constructor.
  - destruct (_answers_row row) as [rs1|] eqn:Hrow; [|done].
    destruct (_answers_rows page_data) as [rs2|]; [|done]. intros [= <-].
    apply Forall_app. split; [|by apply IH].
    unfold _answers_row in Hrow.
    destruct (Value.get_default row "Name" JNull) as [topic|]; [|done].
    destruct (negb (Py.truthy topic)).
    + destruct (_answers_topic JNull row) as [r|] eqn:Htopic; [|done].
      injection Hrow as <-. repeat constructor. by eapply _answers_topic_icon.
    + destruct (Value.item row "Topics") as [topics|]; [|done].
      destruct (iter_json topics) as [subrows|]; [|done].
      eapply map_res_Forall; [|exact Hrow]. intros a b. apply _answers_topic_icon.
Qed.

Lemma _answers_topic_spec topic row r :
  _answers_topic topic row = Ok r → topic_result topic row r.
Proof.
  unfold _answers_topic.
  destruct (Value.item row "Icon") as [row_icon|] eqn:Hicon; [|done].
  destruct (Value.get_default row_icon "URL" JNull) as [icon|] eqn:Hurl; [|done].
  destruct (Value.item row "Text") as [text|] eqn:Htext; [|done].
  destruct (Value.item row "FirstURL") as [url|] eqn:Hfirst; [|done].
  intros [= <-]. exists row_icon, icon, text, url. by destruct (Py.truthy icon).
Qed.

Lemma map_res_Forall2 {A B} (f : A → Res B) (l : list A) (rs : list B) :
  map_res f l = Ok rs → Forall2 (λ a b, f a = Ok b) l rs.
Proof.
  revert rs. induction l as [|a l IH]; intros rs; cbn.
  - intros [= <-]. constructor.
  - destruct (f a) as [b|] eqn:Hb; [|done]. destruct (map_res f l) as [bs|]; [|done].
    intros [= <-]. constructor; [done|by apply IH].
Qed.

Lemma _answers_row_spec row rs : _answers_row row = Ok rs → related_of_row row rs.
Proof.
  unfold _answers_row, related_of_row.
  destruct (Value.get_default row "Name" JNull) as [name|]; [|done].
  intros Hrow. exists name. split; [done|]. destruct (Py.truthy name); cbn [negb] in Hrow.
  - destruct (Value.item row "Topics") as [topics|]; [|done].
    destruct (iter_json topics) as [subrows|] eqn:Hsub; [|done].
    exists topics, subrows. split; [done|]. split; [done|].
    apply map_res_Forall2 in Hrow. eapply Forall2_impl; [exact Hrow|].
    intros a b. apply _answers_topic_spec.
  - destruct (_answers_topic JNull row) as [r|] eqn:Htopic; [|done].
    injection Hrow as <-. exists r. split; [done|]. by apply _answers_topic_spec.
Qed.

Lemma _answers_rows_spec page_data rs :
  _answers_rows page_data = Ok rs →
  ∃ groups, Forall2 related_of_row page_data groups ∧ rs = concat groups.
Proof.
  revert rs. induction page_data as [|row page_data IH]; intros rs; cbn.
  - intros [= <-]. by exists [].
  - destruct (_answers_row row) as [rs1|] eqn:Hrow; [|done].
    destruct (_answers_rows page_data) as [rs2|]; [|done]. intros [= <-].
    destruct (IH rs2 eq_refl) as (groups & Hgroups & ->).
    exists (rs1 :: groups). split; [|done]. constructor; [by apply _answers_row_spec|done].
Qed.

(** X20.  When [answers] returns, it has sent two requests and nothing
    else, the first asking what the keywords are and the second for the
    keywords themselves, and both were answered with status 200 by a body
    that decodes.  Its results are the abstract of the first answer, if
    that has one, followed by the results of the related topics of the
    second, row by row in their order: a row without a name gives its own
    text, address and icon, a row with a name gives those of every topic
    of its group, under that name.  The abstract is one result at most;
    the icon of every related result is a string, empty or an address at
    duckduckgo.com. *)
Theorem answers_results (self self' : DDGS) keywords (l : list (gmap string Json)) :
  answers keywords self = (Ok l, self') →
  let request1 := answers_request ("what is " +:+ keywords) in
  let request2 := answers_request keywords in
  ∃ resp1 resp2 page1 page2 topics rows abstract groups,
    wire self' = wire self ++ [request1; request2] ∧
    client_request (wire self) request1 = Responded resp1 ∧
    status_code resp1 = 200%Z ∧ json_loads (resp_content resp1) = Ok page1 ∧
    client_request (wire self ++ [request1]) request2 = Responded resp2 ∧
    status_code resp2 = 200%Z ∧ json_loads (resp_content resp2) = Ok page2 ∧
    abstract_of page1 abstract ∧
    Value.get_default page2 "RelatedTopics" (JArr []) = Ok topics ∧
    iter_json topics = Ok rows ∧
    Forall2 related_of_row rows groups ∧
    l = abstract ++ concat groups ∧
    (length abstract ≤ 1)%nat ∧
    Forall related_icon (concat groups).
Proof.
  unfold answers. destruct (negb (Py.truthy_str keywords)); [done|]. cbn zeta.
  intros Hrun.
  apply bind_Ok in Hrun as (body1 & d1 & Hurl1 & Hrun).
  apply bind_Ok in Hrun as (page1 & d1' & [= Hpage1 <-] & Hrun).
  apply bind_Ok in Hrun as (answer_text & d1' & [= Htext <-] & Hrun).
  apply bind_Ok in Hrun as (url1 & d1' & [= Habs_url <-] & Hrun).
  apply bind_Ok in Hrun as (body2 & d2 & Hurl2 & Hrun).
  apply bind_Ok in Hrun as (page2 & d2' & [= Hpage2 <-] & Hrun).
  apply bind_Ok in Hrun as (topics & d2' & [= Htopics <-] & Hrun).
  apply bind_Ok in Hrun as (rows & d2' & [= Hrows <-] & Hrun).
  apply bind_Ok in Hrun as (related & d2' & [= Hrelated <-] & [= <- <-]).
  apply _get_url_Ok_wire in Hurl1 as (-> & resp1 & Hresp1 & Hstatus1 & <-).
  apply _get_url_Ok_wire in Hurl2 as (-> & resp2 & Hresp2 & Hstatus2 & <-).
  pose proof (_answers_rows_icon _ _ Hrelated) as Hicons.
  apply _answers_rows_spec in Hrelated as (groups & Hgroups & ->).
  exists resp1, resp2, page1, page2, topics, rows.
  exists (if Py.truthy answer_text then [answer JNull answer_text JNull url1] else []), groups.
  split; [cbn; by rewrite <- app_assoc|].
  split; [exact Hresp1|]. split; [done|]. split; [done|].
  split; [exact Hresp2|]. split; [done|]. split; [done|].
  split; [by exists answer_text, url1|].
  split; [done|]. split; [done|]. split; [done|]. split; [done|].
  split; [destruct (Py.truthy answer_text); cbn; lia|done].
Qed.

End Answers.

(** * A text search, end to end *)

Section TextSearch.
Context `{Client} `{Utils} `{Lxml}.

(** [text] is what it does before its pages, then the pages of its
    backend, then the cut. *)
Lemma text_decompose (d : DDGS) sched keywords region safesearch timelimit backend
    max_results :
  effective_backend backend ∈ ["api"; "html"; "lite"] →
  text sched keywords region safesearch timelimit backend max_results d
  = (payload <- text_payload (effective_backend backend) keywords region safesearch
                  timelimit max_results ;;
     text_pages sched (text_page (effective_backend backend) keywords) payload max_results) d.
Proof.
  intros Hbackend. unfold text. fold (effective_backend backend).
  set (b := effective_backend backend) in *. unfold text_payload, text_page.
  destruct (decide (b = "api")) as [->|Hapi].
  - unfold _text_api, bind. destruct (negb (Py.truthy_str keywords)); [done|].
    by destruct (_get_vqd keywords d) as [[vqd|e] d1].
  - destruct (decide (b = "html")) as [->|Hhtml].
    + unfold _text_html, bind. destruct (negb (Py.truthy_str keywords)); [done|]. cbn zeta.
      destruct (Py.truthy_int max_results && _); [|done].
      by destruct (_get_vqd keywords d) as [[vqd|e] d1].
    + destruct (decide (b = "lite")) as [->|Hlite].
      * unfold _text_lite, bind. by destruct (negb (Py.truthy_str keywords)).
      * repeat (apply elem_of_cons in Hbackend as [?|Hbackend]; [done|]).
        by apply elem_of_nil in Hbackend.
Qed.

(** The pool yields one page for every offset. *)
Lemma with_locals_pages {R} sched (page : Z → St Call (list R)) payload (slist : list Z)
    (d d' : DDGS) (pages : list (list R)) :
  with_locals payload (executor_map sched page slist) d = (Ok pages, d') →
  length pages = length slist.
Proof.
  unfold with_locals. destruct (executor_map sched page slist _) as [r c] eqn:Hmap.
  intros [= -> _]. by apply executor_map_Ok in Hmap as [? _].
Qed.

Lemma text_pages_outcome {R} sched (page : Z → St Call (list R)) payload max_results
    (d d' : DDGS) (l : list R) :
  text_pages sched page payload max_results d = (Ok l, d') →
  (∀ N, max_results = Some N → (0 <= N)%Z ∧ (Z.of_nat (length l) <= N)%Z) ∧
  ∃ pages,
    with_locals payload (executor_map sched page (text_slist max_results).1) d
    = (Ok pages, d') ∧
    l = text_cut max_results (concat pages).
Proof.
  destruct max_results as [N|]; intros Hrun.
  - pose proof (text_pages_length _ _ _ _ _ _ _ Hrun) as Hlen.
    apply text_pages_given in Hrun as (HN & pages & Hpages & ->).
    split; [by intros ? [= <-]|]. by exists pages.
  - split; [done|]. unfold text_pages, text_slist in *. rewrite slist_of_unset in *.
    apply bind_Ok in Hrun as (pages & d1 & Hpages & [= <- <-]). by exists pages.
Qed.

Lemma text_pages_back {R} sched (page : Z → St Call (list R)) payload max_results
    (d d' : DDGS) (pages : list (list R)) :
  (∀ N, max_results = Some N → (0 <= N)%Z) →
  with_locals payload (executor_map sched page (text_slist max_results).1) d
  = (Ok pages, d') →
  text_pages sched page payload max_results d
  = (Ok (text_cut max_results (concat pages)), d').
Proof.
  destruct max_results as [N|]; intros HN Hpages.
  - by apply text_pages_returns; [apply HN|].
  - unfold text_pages, text_slist in *. rewrite slist_of_unset in *.
    cbn [fst] in Hpages. unfold bind. by rewrite Hpages.
Qed.

(** C1.  A text search on one of the three backends is what it does
    before its pages (assertion, token, payload), then one page task of
    that backend for every offset on the pool, from an empty cache, then
    the cut.  So a search that returns a list returns the results of its
    pages, put together in the order of the offsets and cut to the first
    [min(N, 2023)] for [max_results = N], which is then not negative and
    bounds the length of the list; it does return that list when what
    comes before the pages and all page tasks return and [N] is not
    negative.  Without [max_results] the only offset is 0 and the search
    is its first page and nothing else. *)
Theorem text_max_results (self : DDGS) sched keywords region safesearch timelimit backend
    (max_results : option Z) :
  effective_backend backend ∈ ["api"; "html"; "lite"] →
  let search := text sched keywords region safesearch timelimit backend max_results in
  let before :=
    text_payload (effective_backend backend) keywords region safesearch timelimit
      max_results in
  let page := text_page (effective_backend backend) keywords in
  let slist := (text_slist max_results).1 in
  (∀ l self', search self = (Ok l, self') →
     (∀ N, max_results = Some N → (0 <= N)%Z ∧ (Z.of_nat (length l) <= N)%Z) ∧
     ∃ payload self1 pages,
       before self = (Ok payload, self1) ∧
       with_locals payload (executor_map sched page slist) self1 = (Ok pages, self') ∧
       length pages = length slist ∧
       l = text_cut max_results (concat pages)) ∧
  (∀ payload self1 pages self',
     before self = (Ok payload, self1) →
     with_locals payload (executor_map sched page slist) self1 = (Ok pages, self') →
     (∀ N, max_results = Some N → (0 <= N)%Z) →
     search self = (Ok (text_cut max_results (concat pages)), self')) ∧
  (max_results = None →
   slist = [0%Z] ∧
   search self = (payload <- before ;; with_locals payload (page 0%Z)) self).
Proof.
  intros Hbackend. cbn zeta. split; [|split].
  - intros l self' Hrun. rewrite text_decompose in Hrun by done.
    apply bind_Ok in Hrun as (payload & self1 & Hbefore & Hrun).
    apply text_pages_outcome in Hrun as (HN & pages & Hpages & ->).
    split; [done|]. exists payload, self1, pages.
    split; [done|]. split; [done|]. split; [by eapply with_locals_pages|done].
  - intros payload self1 pages self' Hbefore Hpages HN.
    rewrite text_decompose by done. unfold bind at 1. rewrite Hbefore.
    by apply text_pages_back.
  - intros ->. split; [done|]. rewrite text_decompose by done. unfold bind.
    destruct (text_payload _ _ _ _ _ _ self) as [[payload|e] self1]; [|done].
    apply text_pages_unset.
Qed.

End TextSearch.

(** ** The api backend, result by result *)



Section ApiSearch.
Context `{Client} `{Utils} `{Lxml}.





End ApiSearch.

(** * The statements at work *)

Import World.


(** A search for thirty results on the example network, the pages run in
    the order of their offsets: the three links, each once, the second from
    the page at offset 0. *)
Example text_in_order :
  titles (text [] "cats" "wt-wt" "moderate" None "api" (Some 30%Z) __init__).1
  = Ok [Some "A"; Some "B"; Some "C"].
Proof. vm_compute. reflexivity. Qed.

(** C1 at work: a search for one result returns one, the first of the
    page at offset 0. *)
Lemma text_max_results_witness :
  ∃ l self',
    text [] "cats" "wt-wt" "moderate" None "api" (Some 1%Z) __init__ = (Ok l, self') ∧
    (Z.of_nat (length l) <= 1)%Z.
Proof.
  eexists _, _. split.
  - vm_compute. reflexivity.
  - assert (effective_backend "api" ∈ ["api"; "html"; "lite"]) as Hbackend by (by left).
    destruct (text_max_results __init__ [] "cats" "wt-wt" "moderate" None "api" (Some 1%Z)
                Hbackend) as [Hreturned _].
    refine (proj2 (proj1 (Hreturned _ _ _) 1%Z eq_refl)).
    vm_compute. reflexivity.
Defined.




(** With a normaliser that unwraps redirections, a page that carries one
    link bare and wrapped gives two results with the same link. *)
Example text_same_link_twice :
  Replies.hrefs Replies.search_wrapped.1
  = Ok [Some "https://a.example"; Some "https://a.example"].
Proof. vm_compute. reflexivity. Qed.

(** C4 at work: a refused request, then a chat and a search, then the
    latch. *)
Lemma fail_fast_latch_witness :
  let self := (_get_url "GET" "https://blocked.example" None None None __init__).2 in
  let calls := [Call_chat "hi" "gpt-4o-mini" 30%Z;
                Call_text [] "cats" "wt-wt" "moderate" None "api" None] in
  _exception_event (after_all calls self) = true ∧
  _get_url "GET" "https://duckduckgo.com" None None None (after_all calls self)
  = (Raise (DuckDuckGoSearchException (JStr "Exception occurred in previous call.")),
     after_all calls self) ∧
  wire (_get_url "GET" "https://duckduckgo.com" None None None (after_all calls self)).2
  = wire (after_all calls self).
Proof.
  eapply (fail_fast_latch __init__ _ _ _ "GET" "https://blocked.example" None None None).
  vm_compute. reflexivity.
Defined.

(** C5 at work: status 403 on a fresh instance. *)
Lemma _get_url_outcomes_witness :
  ∃ msg, (_get_url "GET" "https://blocked.example" None None None __init__).1
         = Raise (RatelimitException msg).
Proof.
  apply (_get_url_outcomes __init__ "GET" "https://blocked.example" None None None eq_refl).
  eexists. split; [reflexivity|]. vm_compute. by right; right; left.
Defined.

(** C6 at work: the advertisement is passed with its run, and the page
    after it is read from its first row. *)
Lemma lite_resynchronises_witness :
  rows_of_blocks lite_blocks = lite_table ∧
  _text_lite_rows 8 (0%nat, lite_table) None "" fresh
  = _text_lite_rows 7 (4%nat, drop 4 lite_table) None "" fresh ∧
  titles (_text_lite_rows (length lite_table) (0%nat, lite_table) None "" fresh).1
  = Ok [Some "All about cats"].
Proof.
  split; [reflexivity|].
  pose proof (lite_resynchronises lite_blocks
                (tr ["https://duckduckgo.com/y.js?ad_domain=shop.example"] ["Buy cats"] [])
                (tr [] [] ["Cats for sale"]) (tr [] [] []) (tr [] [] [])
                (drop 4 lite_table) 7 0 None "" fresh eq_refl) as (_ & _ & Hstep & Hrun).
  split; [exact Hstep|].
  change (rows_of_blocks lite_blocks) with lite_table in Hrun.
  rewrite Hrun. vm_compute. reflexivity.
Defined.

Lemma example_chat_request :
  ∃ resp self1,
    chat_request "hi" "gpt-4o-mini" 30%Z __init__ = (Ok resp, self1) ∧
    chat_decode (resp_content resp) = Ok ([] ++ JObj limit_reached :: []) ∧
    resp_headers resp !! "x-vqd-4" = Some "token-2".
Proof. eexists _, _. split; [vm_compute; reflexivity|]. split; vm_compute; reflexivity. Defined.

(** C8 at work: the conversation limit. *)
Lemma chat_error_classes_witness :
  (chat "hi" "gpt-4o-mini" 30%Z __init__).1
  = Raise (ConversationLimitException (JStr "ERR_CONVERSATION_LIMIT")).
Proof.
  destruct example_chat_request as (resp & self1 & Hreq & Hdecode & _).
  apply (chat_error_classes __init__ self1 "hi" "gpt-4o-mini" 30%Z resp [] [] limit_reached
           Hreq Hdecode (List.Forall_nil _) eq_refl).
  split; reflexivity.
Defined.

(** C9 at work: the call failed; the user turn and the new token stay. *)
Lemma chat_failure_keeps_changes_witness :
  is_Ok (chat "hi" "gpt-4o-mini" 30%Z __init__).1 = false ∧
  _chat_messages (chat "hi" "gpt-4o-mini" 30%Z __init__).2 = [turn "user" "hi"] ∧
  _chat_vqd (chat "hi" "gpt-4o-mini" 30%Z __init__).2 = "token-2".
Proof.
  destruct example_chat_request as (resp & self1 & Hreq & Hdecode & Htoken).
  destruct (chat_failure_keeps_changes __init__ self1 "hi" "gpt-4o-mini" 30%Z resp [] []
              limit_reached Hreq Hdecode (List.Forall_nil _) eq_refl)
    as (Hfailed & Hhistory & _ & Hvqd).
  split; [exact Hfailed|]. split; [exact Hhistory|].
  rewrite Hvqd, Htoken. reflexivity.
Defined.

(** C10 at work: a backend that does not exist. *)
Lemma text_unknown_backend_witness :
  text [] "cats" "wt-wt" "moderate" None "bing" (Some 5%Z) __init__
  = (Raise (UnboundLocalError "results"), __init__).
Proof.
  apply (@text_unknown_backend client utils lxml __init__ [] "cats" "wt-wt" "moderate" None
           "bing" (Some 5%Z) eq_refl).
  intros Hin. repeat (apply elem_of_cons in Hin as [Hin|Hin]; [discriminate Hin|]).
  by apply elem_of_nil in Hin.
Defined.

(** C7 fails on the code.  Take the square of one degree by one degree and a
    search with room for ten results.  The first round cuts the square in
    four.  None of the four is wide, yet the second round cuts the first of
    them, the north-west quadrant, in four again, and a third round fetches
    its quadrants: nine requests for places where five were due. *)
Theorem maps_cuts_a_narrow_square :
  let round1 := maps_queue unit_square [unit_square] in
  let round2 := maps_queue round1.1 round1.2 in
  wide unit_square = true ∧
  round1.2 = quadrants unit_square ∧
  wide <$> round1.2 = [false; false; false; false] ∧
  round2.2 = quadrants north_west ∧
  head round1.2 = Some north_west ∧
  length (wire (maps_from [] "cafe" "4-1" unit_square (Some 10%Z) __init__).2) = 9%nat.
Proof. vm_compute. done. Qed.

(** * The further statements at work *)

(** X1 at work: the square of one degree, whose sides are a degree
    apart. *)
Lemma quadrants_partition_witness :
  separated unit_square ∧
  Forall normal (quadrants unit_square) ∧
  ∀ q, q ∈ quadrants unit_square → inside (1 # 4) (3 # 4) q →
       inside (1 # 4) (3 # 4) unit_square.
Proof.
  assert (separated unit_square) as Hsep by (by vm_compute).
  split; [exact Hsep|].
  destruct (quadrants_partition 1 0 0 1 (1 # 4) (3 # 4))
    as (lat_middle & lon_middle & _ & _ & _ & _ & _ & Hin & _).
  exact (Hin Hsep).
Defined.

(** X4 at work: a search of three pages on an instance that has tripped. *)
Lemma text_fails_fast_witness :
  text [] "cats" "wt-wt" "moderate" None "lite" (Some 100%Z) Replies.tripped_instance
  = (Raise (DuckDuckGoSearchException (JStr "Exception occurred in previous call.")),
     Replies.tripped_instance).
Proof.
  apply text_fails_fast; [reflexivity|discriminate|]. by do 2 right; left.
Defined.

(** X5 at work: the network turns the third request away; the search
    raises, and a request of its own was refused. *)
Lemma text_trips_on_refusal_witness :
  is_Ok Replies.search_limited.1 = false ∧
  @refused_since Replies.limited 0 Replies.search_limited.2.
Proof.
  apply (proj1 (@text_trips_on_refusal Replies.limited World.utils World.lxml __init__ []
                  "cats" "wt-wt" "moderate" None "api" (Some 100%Z) eq_refl)).
  vm_compute. reflexivity.
Defined.

(** X7 at work: no [max_results], one request, however wide the square. *)
Lemma maps_single_round_witness :
  ∃ reqs,
    wire (maps_from [] "cafe" "4-1" unit_square None __init__).2 = wire __init__ ++ reqs ∧
    (length reqs ≤ 1)%nat.
Proof.
  apply (proj2 (maps_single_round __init__ [] "cafe" "4-1" unit_square None
                  (or_introl eq_refl))).
Defined.

Lemma example_chat : ∃ result self', Replies.say_hi = (Ok result, self').
Proof. eexists _, _. vm_compute. reflexivity. Defined.

(** X10 at work: an answer in two messages. *)
Lemma chat_returns_witness :
  ∃ result self',
    Replies.say_hi = (Ok result, self') ∧
    _chat_messages self'
    = _chat_messages __init__ ++ [turn "user" "hi"; turn "assistant" result].
Proof.
  destruct example_chat as (result & self' & Hrun). exists result, self'.
  split; [exact Hrun|].
  destruct (@chat_returns Replies.client Replies.utils __init__ self' "hi" "gpt-4o-mini"
              30%Z result Hrun)
    as (resp & data & model_id & w & req & _ & _ & _ & _ & _ & _ & _ & _ & Hhistory & _).
  exact Hhistory.
Defined.

(** X11 at work: a model that does not exist, on a fresh instance. *)
Lemma chat_unknown_model_witness :
  ∃ reqs,
    wire (chat "hi" "gpt-5" 30%Z __init__).2 = wire __init__ ++ reqs ∧
    Forall (λ req, url req = "https://duckduckgo.com/duckchat/v1/status") reqs ∧
    (_chat_vqd __init__ ≠ "" → reqs = []).
Proof. apply (proj1 (chat_unknown_model __init__ "hi" "gpt-5" 30%Z eq_refl)). Defined.

(** X12 at work: the second prompt of a session. *)
Lemma chat_sends_history_witness :
  wire (chat "hi" "gpt-4o-mini" 30%Z Replies.in_session).2
  = [ {| method := "POST"; url := "https://duckduckgo.com/duckchat/v1/chat";
         params := None; content := None; data := None;
         headers := Some {[ "x-vqd-4" := "token-1" ]};
         json := Some {| model := "gpt-4o-mini"; messages := [turn "user" "hi"] |};
         timeout := Some 30%Z |} ].
Proof.
  apply (chat_sends_history Replies.in_session "hi" "gpt-4o-mini" "gpt-4o-mini" 30%Z);
    [discriminate|reflexivity].
Defined.

(** X15 at work: [Strict] is no level of [images]. *)
Lemma media_unknown_safesearch_witness :
  Replies.strict_images.1 = Raise (KeyError "strict").
Proof.
  destruct (@media_unknown_safesearch Replies.client Replies.utils Replies.values __init__
              (@_get_vqd Replies.client Replies.utils "cats" __init__).2
              [] "cats" "wt-wt" "Strict" "4-1" None None None None None None None None None
              (Some 10%Z)) as (Himages & _).
  - discriminate.
  - intros Hin. repeat (apply elem_of_cons in Hin as [Hin|Hin]; [discriminate Hin|]).
    by apply elem_of_nil in Hin.
  - vm_compute. reflexivity.
  - exact (f_equal fst Himages).
Defined.

(** X16 at work: suggestions on an instance that has tripped. *)
Lemma searches_fail_fast_witness :
  Replies.suggest_tripped
  = (Raise (DuckDuckGoSearchException (JStr "Exception occurred in previous call.")),
     Replies.tripped_instance).
Proof.
  edestruct (@searches_fail_fast Replies.client Replies.utils World.places Replies.values
               Replies.tripped_instance [] [] "cats" "wt-wt" "moderate" None None None None
               None None None None None None (One "katze") None "en" "4-1" unit_square)
    as (_ & _ & _ & _ & Hsuggestions & _).
  - reflexivity.
  - discriminate.
  - discriminate.
  - discriminate.
  - intros N. discriminate.
  - exact Hsuggestions.
Defined.

(** X17 at work: [translate] of no keyword at all. *)
Lemma keywords_mandatory_witness :
  Replies.translate_nothing = (Raise (AssertionError "keywords is mandatory"), __init__).
Proof.
  edestruct (@keywords_mandatory Replies.client Replies.utils World.lxml Replies.values
               __init__ [] "wt-wt" "moderate" None "api" None None None None None None None
               None None None "en")
    as (_ & _ & _ & _ & _ & _ & _ & Hnothing).
  - by left.
  - exact Hnothing.
Defined.

Lemma example_videos : ∃ l self', Replies.search_videos = (Ok l, self').
Proof. eexists _, _. vm_compute. reflexivity. Defined.

(** X18 at work: two pages that share a video, and name the number one in
    three ways. *)
Lemma videos_distinct_contents_witness :
  ∃ l self', Replies.search_videos = (Ok l, self') ∧ Forall signed l.
Proof.
  destruct example_videos as (l & self' & Hrun). exists l, self'. split; [exact Hrun|].
  exact (proj1 (@videos_distinct_contents Replies.client Replies.utils __init__ self'
                  [1%nat] "cats" "wt-wt" "moderate" None None None None (Some 100%Z) l
                  Hrun)).
Defined.

Lemma example_translate :
  ∃ results self', Replies.translate_words = (Ok results, self').
Proof. eexists _, _. vm_compute. reflexivity. Defined.

(** X19 at work: two words, the second translated first. *)
Lemma translate_in_order_witness :
  ∃ results self',
    Replies.translate_words = (Ok results, self') ∧ length results = 2%nat.
Proof.
  destruct example_translate as (results & self' & Hrun). exists results, self'.
  split; [exact Hrun|].
  destruct (@translate_in_order Replies.client Replies.utils __init__ self' [1%nat]
              (Many ["katze"; "hund"]) None "en" results Hrun) as (vqd & _ & Hlen & _).
  exact Hlen.
Defined.

Lemma example_answers : ∃ l self', Replies.ask_cats = (Ok l, self').
Proof. eexists _, _. vm_compute. reflexivity. Defined.

(** X20 at work: an abstract, a topic and a group of one topic. *)
Lemma answers_results_witness :
  ∃ l self',
    Replies.ask_cats = (Ok l, self') ∧
    wire self' = [answers_request "what is cats"; answers_request "cats"].
Proof.
  destruct example_answers as (l & self' & Hrun). exists l, self'. split; [exact Hrun|].
  destruct (@answers_results Replies.client Replies.utils Replies.values __init__ self'
              "cats" l Hrun)
    as (resp1 & resp2 & page1 & page2 & topics & rows & abstract & groups & Hwire & _).
  exact Hwire.
Defined.
